(** * the-dev-server MCP: managed process registry and lifecycle reconciler

    A shallow embedding of the tool handlers of the MCP server
    (register / update / start / stop / restart / delete / describe /
    read-logs / status) together with the helpers they call
    ([loadState], [persistState], [runPm2], [startPm2Process], ...).

    Conventions of the embedding.
    - A JavaScript string is a [string] of bytes (its UTF-8 encoding); the
      operations the handlers use ([includes], [join], concatenation and the
      regular expressions, whose literals are all ASCII) behave the same on
      the encoding.
    - An optional property is an [option]; [None] is JavaScript's
      [undefined] (an absent key).
    - [serverState.managedProcesses] is a plain object: its own properties
      are a [gmap]; a read of a key that is not an own property falls
      through to [Object.prototype].
    - The handlers run in a small state-and-exception monad over [World],
      which holds the module variable [serverState], the state file, the
      supervisor, the log files and the journal of external effects.
    - The supervisor (PM2), its shell and the file system are outside the
      repository: [World] carries a model of them.  Writes of the state
      file are taken to succeed; waiting ([setTimeout]) has no effect on
      the model; the timestamp [lastSynced] is not represented.  What a
      command prints is taken to fit the buffer of [exec] (1 MiB); for
      [pm2 logs] and [pm2 describe] a longer output is one of the ways the
      command fails.
    - [Throw "Command failed"] stands for the rejection of [exec], whatever
      its message is (the command and what it printed, or the error of the
      spawn); no handler looks at the message. *)

From Stdlib Require Import ZArith String Ascii List Lia.
From stdpp Require Import base option list strings gmap pretty.

Local Open Scope Z_scope.

(* ================================================================== *)
(** ** JavaScript string helpers *)

Module Js.

(** [haystack.includes(needle)] *)
Fixpoint includes (needle hay : string) : bool :=
  String.prefix needle hay ||
  match hay with
  | EmptyString => false
  | String _ rest => includes needle rest
  end.

(** [s.replace(/\/+$/, '')]: drop the run of slashes that ends [s]. *)
Fixpoint stripTrailingSlashes (s : string) : string :=
  match s with
  | EmptyString => EmptyString
  | String c rest =>
      match stripTrailingSlashes rest with
      | EmptyString => if Ascii.eqb c "/" then EmptyString else String c EmptyString
      | kept => String c kept
      end
  end.

(** [parts.join(sep)] where an [undefined] element prints as the empty
    string. *)
Definition join (sep : string) (parts : list (option string)) : string :=
  String.concat sep (map (default EmptyString) parts).

(** Truthiness of an optional string: defined and not empty. *)
Definition truthyStr (o : option string) : bool :=
  match o with
  | Some s => negb (String.eqb s EmptyString)
  | None => false
  end.

(** [String(n)] for an integral number. *)
Definition numberToString (n : Z) : string := pretty n.

(** Template interpolation of a possibly undefined string. *)
Definition interp (o : option string) : string := default "undefined"%string o.

End Js.

(* ================================================================== *)
(** ** Decoding UTF-8 *)

(** [buffer.toString('utf8')].  The text is kept as its UTF-8 encoding, so
    decoding copies every well-formed character and puts U+FFFD (encoded)
    in the place of every maximal ill-formed run: a byte that cannot open
    a character, or the bytes of a character that is cut short, by the end
    of the buffer or by a byte that cannot continue it. *)
Module Utf8.

Definition byte (c : ascii) : N := N_of_ascii c.

(** U+FFFD: EF BF BD *)
Definition replacement : string :=
  String (ascii_of_N 239) (String (ascii_of_N 191) (String (ascii_of_N 189) EmptyString)).

(** What a byte is at the start of a character: a character of its own,
    the first of a longer one (with the number of bytes to come and the
    range the next byte must be in), or no start at all. *)
Inductive Lead :=
  | One
  | More (needed : nat) (lower upper : N)
  | Bad.

Definition lead (c : ascii) : Lead :=
  let b := byte c in
  if (b <=? 127)%N then One
  else if ((194 <=? b) && (b <=? 223))%N then More 1 128 191
  else if (b =? 224)%N then More 2 160 191
  else if (b =? 237)%N then More 2 128 159
  else if ((225 <=? b) && (b <=? 239))%N then More 2 128 191
  else if (b =? 240)%N then More 3 144 191
  else if (b =? 244)%N then More 3 128 143
  else if ((241 <=? b) && (b <=? 243))%N then More 3 128 191
  else Bad.

(** The decoder in the state where [needed] more bytes of the character
    begun with [seen] are expected, the next one between [lower] and
    [upper]. *)
Fixpoint decodeFrom (needed : nat) (seen : string) (lower upper : N) (s : string) : string :=
  match s with
  | EmptyString =>
      match needed with
      | O => EmptyString
      | S _ => replacement
      end
  | String c rest =>
      let fresh :=
        match lead c with
        | One => String c (decodeFrom 0 EmptyString 128 191 rest)
        | More n lo hi => decodeFrom n (String c EmptyString) lo hi rest
        | Bad => replacement +:+ decodeFrom 0 EmptyString 128 191 rest
        end in
      match needed with
      | O => fresh
      | S n =>
          if ((lower <=? byte c) && (byte c <=? upper))%N then
            match n with
            | O => seen +:+ String c (decodeFrom 0 EmptyString 128 191 rest)
            | S _ => decodeFrom n (seen +:+ String c EmptyString) 128 191 rest
            end
          else replacement +:+ fresh
      end
  end.

Definition decode (s : string) : string := decodeFrom 0 EmptyString 128 191 s.

(** Every byte is below 128. *)
Definition isAscii (s : string) : bool :=
  forallb (fun c => (byte c <=? 127)%N) (list_ascii_of_string s).

End Utf8.

(* ================================================================== *)
(** ** Data model *)

(** [interface ManagedProcessConfig].  The TypeScript type makes [name] and
    [script] mandatory, but nothing enforces it at run time (a value read
    through the prototype chain has neither), so they are options too.
    [instances] and [logOffset] are numbers; the model keeps the integral
    ones. *)
Record ManagedProcessConfig := mkConfig {
  name : option string;
  script : option string;
  cwd : option string;
  args : option (list string);
  env : option (gmap string string);
  interpreter : option string;
  instances : option Z;
  watch : option bool;
  autorestart : option bool;
  logOffset : option Z
}.

(** The object with no property at all. *)
Definition emptyConfig : ManagedProcessConfig :=
  mkConfig None None None None None None None None None None.

(** [config.logOffset = v] *)
Definition withLogOffset (v : option Z) (c : ManagedProcessConfig) : ManagedProcessConfig :=
  mkConfig (name c) (script c) (cwd c) (args c) (env c) (interpreter c)
           (instances c) (watch c) (autorestart c) v.

Definition withAutorestart (v : option bool) (c : ManagedProcessConfig) : ManagedProcessConfig :=
  mkConfig (name c) (script c) (cwd c) (args c) (env c) (interpreter c)
           (instances c) (watch c) v (logOffset c).

Definition withArgs (v : option (list string)) (c : ManagedProcessConfig) : ManagedProcessConfig :=
  mkConfig (name c) (script c) (cwd c) v (env c) (interpreter c)
           (instances c) (watch c) (autorestart c) (logOffset c).

Definition withEnv (v : option (gmap string string)) (c : ManagedProcessConfig) : ManagedProcessConfig :=
  mkConfig (name c) (script c) (cwd c) (args c) v (interpreter c)
           (instances c) (watch c) (autorestart c) (logOffset c).

(** The fields a caller of [update-managed-process] may supply besides
    [name] and [applyToPm2]; [None] is a key that was not sent. *)
Record ConfigUpdates := mkUpdates {
  u_script : option string;
  u_cwd : option string;
  u_args : option (list string);
  u_env : option (gmap string string);
  u_interpreter : option string;
  u_instances : option Z;
  u_watch : option bool;
  u_autorestart : option bool
}.

Definition noUpdates : ConfigUpdates :=
  mkUpdates None None None None None None None None.

(** One spread step: a key of the later object overrides the earlier. *)
Definition over {A} (later earlier : option A) : option A :=
  match later with
  | Some v => Some v
  | None => earlier
  end.

(** [{ ...existing, ...updates, name }] *)
Definition mergeConfig (existing : ManagedProcessConfig) (updates : ConfigUpdates)
    (nm : string) : ManagedProcessConfig :=
  mkConfig (Some nm)
           (over (u_script updates) (script existing))
           (over (u_cwd updates) (cwd existing))
           (over (u_args updates) (args existing))
           (over (u_env updates) (env existing))
           (over (u_interpreter updates) (interpreter existing))
           (over (u_instances updates) (instances existing))
           (over (u_watch updates) (watch existing))
           (over (u_autorestart updates) (autorestart existing))
           (logOffset existing).

(** *** Property access on the registry object *)

(** The own property names of [Object.prototype]; every plain object
    inherits them. *)
Definition objectPrototypeKeys : list string :=
  [ "constructor"; "__defineGetter__"; "__defineSetter__"; "hasOwnProperty";
    "__lookupGetter__"; "__lookupSetter__"; "isPrototypeOf";
    "propertyIsEnumerable"; "toString"; "valueOf"; "__proto__";
    "toLocaleString" ]%string.

(** What [managedProcesses[key]] evaluates to when it is not [undefined]:
    a stored config, or the built-in reached through the prototype. *)
Inductive Slot :=
  | Own (c : ManagedProcessConfig)
  | Inherited (key : string).

Definition getProperty (reg : gmap string ManagedProcessConfig) (key : string)
    : option Slot :=
  match reg !! key with
  | Some c => Some (Own c)
  | None =>
      if bool_decide (key ∈ objectPrototypeKeys) then Some (Inherited key) else None
  end.

(** The [name] property of a built-in: [Object.prototype.constructor] is
    the function [Object], [__proto__] yields [Object.prototype] itself
    (no name), the others are functions named after their key. *)
Definition builtinName (key : string) : option string :=
  if String.eqb key "constructor" then Some "Object"%string
  else if String.eqb key "__proto__" then None
  else Some key.

(** The config fields read off a slot. *)
Definition viewSlot (s : Slot) : ManagedProcessConfig :=
  match s with
  | Own c => c
  | Inherited key =>
      mkConfig (builtinName key) None None None None None None None None None
  end.

(** [{ ...slot }]: the own enumerable properties; a built-in has none. *)
Definition spreadSlot (s : Slot) : ManagedProcessConfig :=
  match s with
  | Own c => c
  | Inherited _ => emptyConfig
  end.

(** [managedProcesses[key] = c].  Assigning to ["__proto__"] on an object
    without such an own property replaces the prototype and stores
    nothing. *)
Definition setProperty (key : string) (c : ManagedProcessConfig)
    (reg : gmap string ManagedProcessConfig) : gmap string ManagedProcessConfig :=
  match reg !! key with
  | Some _ => <[key := c]> reg
  | None => if String.eqb key "__proto__" then reg else <[key := c]> reg
  end.

(* ================================================================== *)
(** ** The supervisor command line *)

(** The [parts] array of [startPm2Process], push by push. *)
Definition startParts (config : ManagedProcessConfig) : list (option string) :=
  let parts := [Some "pm2"; Some "start"; script config; Some "--name"; name config]%string in
  let parts :=
    if Js.truthyStr (interpreter config)
    then parts ++ [Some "--interpreter"%string; interpreter config] else parts in
  let parts :=
    if Js.truthyStr (cwd config)
    then parts ++ [Some "--cwd"%string; cwd config] else parts in
  let parts :=
    match instances config with
    | Some n => if 0 <? n then parts ++ [Some "-i"%string; Some (Js.numberToString n)] else parts
    | None => parts
    end in
  let parts :=
    match watch config with
    | Some true => parts ++ [Some "--watch"%string]
    | _ => parts
    end in
  let parts :=
    match watch config with
    | Some false => parts ++ [Some "--no-watch"%string]
    | _ => parts
    end in
  let parts :=
    match autorestart config with
    | Some true => parts
    | _ => parts ++ [Some "--no-autorestart"%string]
    end in
  let parts :=
    match args config with
    | Some (a :: rest) => parts ++ Some "--"%string :: map Some (a :: rest)
    | _ => parts
    end in
  parts.

Inductive LogStream := StreamAll | StreamOut | StreamError.

(** The commands the handlers hand to [runPm2]. *)
Inductive Pm2Command :=
  | PmJlist
  | PmStart (config : ManagedProcessConfig)
  | PmRestart (nm : string)
  | PmDelete (nm : string)
  | PmStop (nm : string)
  | PmFlush (nm : string)
  | PmDescribe (nm : string)
  | PmLogs (nm : string) (lines : Z) (stream : LogStream).

(** The string each command is, as the source writes it. *)
Definition commandLine (c : Pm2Command) : string :=
  match c with
  | PmJlist => "pm2 jlist"
  | PmStart config => Js.join " " (startParts config)
  | PmRestart nm => "pm2 restart " +:+ nm
  | PmDelete nm => "pm2 delete " +:+ nm
  | PmStop nm => "pm2 stop " +:+ nm
  | PmFlush nm => "pm2 flush " +:+ nm
  | PmDescribe nm => "pm2 describe " +:+ nm
  | PmLogs nm lines stream =>
      "pm2 logs " +:+ nm +:+ " --lines " +:+ Js.numberToString lines +:+ " --nostream"
      +:+ match stream with
          | StreamOut => " --out"
          | StreamError => " --err"
          | StreamAll => ""
          end
  end%string.

(** The [options] argument of [runPm2]: only [startPm2Process] passes one. *)
Definition commandCwd (c : Pm2Command) : option string :=
  match c with
  | PmStart config => cwd config
  | _ => None
  end.

Definition commandEnv (c : Pm2Command) : gmap string string :=
  match c with
  | PmStart config => default ∅ (env config)
  | _ => ∅
  end.

(* ================================================================== *)
(** ** The world the handlers run in *)

(** One element of the array [pm2 jlist] prints: [p.name] and
    [p.pm2_env?.status]. *)
Record Pm2Process := mkProc {
  p_name : string;
  p_status : option string
}.

(** What a command wrote on its standard output. *)
Inductive Stdout :=
  | Text (s : string)
  | ProcessList (l : list Pm2Process).

(** External effects, in the order they happen: a command handed to
    [exec] with its options, and a write of the state file. *)
Inductive Event :=
  | EvExec (command : string) (dir : option string) (environment : gmap string string)
  | EvPersist (written : gmap string ManagedProcessConfig).

Record World := mkWorld {
  (** [serverState.managedProcesses], the module variable *)
  serverState : gmap string ManagedProcessConfig;
  (** the parsed state file; [None] when it is missing or unreadable *)
  stateFile : option (gmap string ManagedProcessConfig);
  (** whether the supervisor answers at all *)
  pm2Online : bool;
  (** the supervisor's process table *)
  pm2List : list Pm2Process;
  (** what [pm2 logs] and [pm2 describe] print, by command line; [None]
      when the command fails *)
  pm2Output : string → option string;
  (** how the supervisor answers a creation command, by command line:
      [None] when it refuses (the script is not found, ...), otherwise the
      status its new descriptors have when the command returns ([online],
      [launching], [errored], ...) *)
  pm2Launch : string → option string;
  (** whether a directory exists, by path *)
  dirExists : string → bool;
  (** [PM2_HOME], or [~/.pm2] *)
  pm2Home : string;
  (** the log files, by path *)
  logFiles : gmap string string;
  (** [logOffset] properties that assignments through the prototype chain
      have put on built-in objects, by the key that reaches the object
      (["__proto__"] is [Object.prototype], which every object inherits
      from) *)
  builtinOffsets : gmap string Z;
  (** the effects so far, oldest first *)
  journal : list Event
}.

Definition setServerState (v : gmap string ManagedProcessConfig) (w : World) : World :=
  mkWorld v (stateFile w) (pm2Online w) (pm2List w) (pm2Output w) (pm2Launch w) (dirExists w)
          (pm2Home w) (logFiles w) (builtinOffsets w) (journal w).

Definition setStateFile (v : option (gmap string ManagedProcessConfig)) (w : World) : World :=
  mkWorld (serverState w) v (pm2Online w) (pm2List w) (pm2Output w) (pm2Launch w) (dirExists w)
          (pm2Home w) (logFiles w) (builtinOffsets w) (journal w).

Definition setPm2List (v : list Pm2Process) (w : World) : World :=
  mkWorld (serverState w) (stateFile w) (pm2Online w) v (pm2Output w) (pm2Launch w) (dirExists w)
          (pm2Home w) (logFiles w) (builtinOffsets w) (journal w).

Definition setLogFiles (v : gmap string string) (w : World) : World :=
  mkWorld (serverState w) (stateFile w) (pm2Online w) (pm2List w) (pm2Output w)
          (pm2Launch w) (dirExists w) (pm2Home w)
          v (builtinOffsets w) (journal w).

Definition setBuiltinOffsets (v : gmap string Z) (w : World) : World :=
  mkWorld (serverState w) (stateFile w) (pm2Online w) (pm2List w) (pm2Output w)
          (pm2Launch w) (dirExists w) (pm2Home w)
          (logFiles w) v (journal w).

Definition record (e : Event) (w : World) : World :=
  mkWorld (serverState w) (stateFile w) (pm2Online w) (pm2List w) (pm2Output w)
          (pm2Launch w) (dirExists w) (pm2Home w)
          (logFiles w) (builtinOffsets w) (journal w ++ [e]).

(** *** The monad of a handler: state, and exceptions that keep the state *)

Inductive Outcome (A : Type) :=
  | Ok (a : A)
  | Throw (msg : string).
Arguments Ok {A} a.
Arguments Throw {A} msg.

Definition M (A : Type) : Type := World → Outcome A * World.

Definition ret {A} (a : A) : M A := fun w => (Ok a, w).

Definition bind {A B} (m : M A) (k : A → M B) : M B :=
  fun w =>
    match m w with
    | (Ok a, w') => k a w'
    | (Throw e, w') => (Throw e, w')
    end.

Definition throw {A} (msg : string) : M A := fun w => (Throw msg, w).

(** [try { body } catch (error) { handler }] *)
Definition tryCatch {A} (body handler : M A) : M A :=
  fun w =>
    match body w with
    | (Ok a, w') => (Ok a, w')
    | (Throw _, w') => handler w'
    end.

Definition gets {A} (f : World → A) : M A := fun w => (Ok (f w), w).

Definition modify (f : World → World) : M unit := fun w => (Ok tt, f w).

Notation "'let*' x ':=' m 'in' k" := (bind m (fun x => k))
  (at level 10, x name, m at level 100, k at level 200, only parsing).
Notation "m ';;' k" := (bind m (fun _ => k))
  (at level 100, k at level 200, right associativity, only parsing).

(** [getPm2LogPath(name, type)]: [path.join(pm2Home, 'logs', name-suffix)],
    without the normalisation [path.join] applies to a name that holds
    [..] or doubled slashes. *)
Definition getPm2LogPath (home nm : string) (errorStream : bool) : string :=
  (home +:+ "/logs/" +:+ nm +:+ "-" +:+ (if errorStream then "error.log" else "out.log"))%string.

Definition named (nm : string) (p : Pm2Process) : bool := String.eqb (p_name p) nm.

Definition setStatus (nm status : string) (l : list Pm2Process) : list Pm2Process :=
  map (fun p => if named nm p then mkProc (p_name p) (Some status) else p) l.

Definition truncateFile (path : string) (files : gmap string string) : gmap string string :=
  match files !! path with
  | Some _ => <[path := EmptyString]> files
  | None => files
  end.

(** How many descriptors a creation command asks for: [-i N] is N
    instances, and a command without it is one. *)
Definition instanceCount (config : ManagedProcessConfig) : nat :=
  match instances config with
  | Some n => if 0 <? n then Z.to_nat n else 1%nat
  | None => 1%nat
  end.

(** The descriptors a creation command adds when the supervisor answers it
    with [status]. *)
Definition launched (config : ManagedProcessConfig) (status : string) : list Pm2Process :=
  repeat (mkProc (default EmptyString (name config)) (Some status)) (instanceCount config).

(** Modelled from the spec: the supervisor (PM2) that [exec] runs, which
    is not part of the repository.  A creation command, unless the
    supervisor refuses it, adds as many descriptors as the command asks
    instances for, all under the given name and in the status
    [pm2Launch] tells, with no check that the name is free; [restart]
    and [stop] set the status of the descriptors of that name and [delete]
    removes them, each failing when there is none; [flush] empties the two
    log files of the name; [jlist] prints the process table; [logs] and
    [describe] print what [pm2Output] holds.  Nothing succeeds while the
    supervisor is unreachable.  The command is taken with the arguments
    the handler meant; what the shell makes of the command string is the
    subject of [Shell]. *)
Definition pm2Step (c : Pm2Command) (w : World) : option (Stdout * World) :=
  if negb (pm2Online w) then None else
  match c with
  | PmJlist => Some (ProcessList (pm2List w), w)
  | PmStart config =>
      match pm2Launch w (commandLine c) with
      | Some status =>
          Some (Text EmptyString, setPm2List (pm2List w ++ launched config status) w)
      | None => None
      end
  | PmRestart nm =>
      if existsb (named nm) (pm2List w)
      then Some (Text EmptyString, setPm2List (setStatus nm "online" (pm2List w)) w)
      else None
  | PmStop nm =>
      if existsb (named nm) (pm2List w)
      then Some (Text EmptyString, setPm2List (setStatus nm "stopped" (pm2List w)) w)
      else None
  | PmDelete nm =>
      if existsb (named nm) (pm2List w)
      then Some (Text EmptyString,
                 setPm2List (filter (fun p => named nm p = false) (pm2List w)) w)
      else None
  | PmFlush nm =>
      Some (Text EmptyString,
            setLogFiles (truncateFile (getPm2LogPath (pm2Home w) nm false)
                           (truncateFile (getPm2LogPath (pm2Home w) nm true) (logFiles w))) w)
  | PmDescribe _ | PmLogs _ _ _ =>
      match pm2Output w (commandLine c) with
      | Some out => Some (Text out, w)
      | None => None
      end
  end.

(* ================================================================== *)
(** ** Endpoint discovery *)

Module Discovery.

Definition code (c : ascii) : nat := nat_of_ascii c.

(** [\d] *)
Definition isDigit (c : ascii) : bool :=
  ((48 <=? code c) && (code c <=? 57))%nat.

(** The one-byte members of [[\s:]]: tab, line feed, vertical tab, form
    feed, carriage return, space, and the colon. *)
Definition isSep1 (a : ascii) : bool :=
  ((9 <=? code a) && (code a <=? 13) || (code a =? 32) || (code a =? 58))%nat.

(** U+00A0 *)
Definition isSep2 (a b : ascii) : bool :=
  ((code a =? 194) && (code b =? 160))%nat.

(** U+1680, U+2000..U+200A, U+2028, U+2029, U+202F, U+205F, U+3000,
    U+FEFF *)
Definition isSep3 (a b c : ascii) : bool :=
  ((code a =? 225) && (code b =? 154) && (code c =? 128)
   || (code a =? 226) && (code b =? 128)
      && ((128 <=? code c) && (code c <=? 138)
          || (code c =? 168) || (code c =? 169) || (code c =? 175))
   || (code a =? 226) && (code b =? 129) && (code c =? 159)
   || (code a =? 227) && (code b =? 128) && (code c =? 128)
   || (code a =? 239) && (code b =? 187) && (code c =? 191))%nat.

(** How many bytes the character at the head of [s] takes when it is in
    [[\s:]]; [0] when it is not. *)
Definition sepLen (s : string) : nat :=
  match s with
  | String a (String b (String c _)) =>
      if isSep1 a then 1 else if isSep2 a b then 2 else if isSep3 a b c then 3 else 0
  | String a (String b EmptyString) =>
      if isSep1 a then 1 else if isSep2 a b then 2 else 0
  | String a EmptyString => if isSep1 a then 1 else 0
  | EmptyString => 0
  end%nat.

(** What is left of [s] after the longest run of [[\s:]] characters. *)
Fixpoint skipSeps (s : string) : string :=
  match s with
  | EmptyString => s
  | String a r1 =>
      if isSep1 a then skipSeps r1 else
      match r1 with
      | EmptyString => s
      | String b r2 =>
          if isSep2 a b then skipSeps r2 else
          match r2 with
          | EmptyString => s
          | String c r3 => if isSep3 a b c then skipSeps r3 else s
          end
      end
  end.

(** The longest run of digits at the head of [s], cut at [max]. *)
Fixpoint takeDigits (max : nat) (s : string) : string :=
  match max, s with
  | S m, String c rest => if isDigit c then String c (takeDigits m rest) else EmptyString
  | _, _ => EmptyString
  end.

(** [s] without the prefix [p], when it has it. *)
Fixpoint stripPrefix (p s : string) : option string :=
  match p, s with
  | EmptyString, _ => Some s
  | String a p', String b s' => if Ascii.eqb a b then stripPrefix p' s' else None
  | String _ _, EmptyString => None
  end.

(** [(?:port|Port|PORT)] at the head of [s] *)
Definition stripLabel (s : string) : option string :=
  match stripPrefix "port" s with
  | Some rest => Some rest
  | None =>
      match stripPrefix "Port" s with
      | Some rest => Some rest
      | None => stripPrefix "PORT" s
      end
  end.

(** [/(?:port|Port|PORT)[\s:]+(\d{4,5})/] anchored at the head of [s]:
    the captured group. *)
Definition portMatchHere (s : string) : option string :=
  match stripLabel s with
  | Some rest =>
      match sepLen rest with
      | O => None
      | _ =>
          let digits := takeDigits 5 (skipSeps rest) in
          if (4 <=? String.length digits)%nat then Some digits else None
      end
  | None => None
  end.

(** [logs.match(/(?:port|Port|PORT)[\s:]+(\d{4,5})/)]: group 1 of the
    leftmost match. *)
Fixpoint portMatch (logs : string) : option string :=
  match portMatchHere logs with
  | Some digits => Some digits
  | None =>
      match logs with
      | EmptyString => None
      | String _ rest => portMatch rest
      end
  end.

(** The predicate of [links.find]: the href contains one of the three
    loopback spellings. *)
Definition isLocalHref (href : string) : bool :=
  Js.includes "localhost" href || Js.includes "127.0.0.1" href
  || Js.includes "0.0.0.0" href.

(** The address the start handler reports, from the hrefs of the links
    found in the log text (in text order) and the text itself. *)
Definition discoverUrl (links : list string) (logs : string) : option string :=
  match over (find isLocalHref links) (head links) with
  | Some href => Some (Js.stripTrailingSlashes href)
  | None =>
      match portMatch logs with
      | Some port => Some ("http://localhost:" +:+ port)%string
      | None => None
      end
  end.

Definition urlInfo (links : list string) (logs : string) : string :=
  match discoverUrl links logs with
  | Some url => (" on " +:+ url)%string
  | None => EmptyString
  end.

End Discovery.

(* ================================================================== *)
(** ** Cleaning the supervisor's log output *)

(** The three [replace] calls and the [trim] that the log handler applies
    to what [pm2 logs] printed.  The regular expressions work on the
    encoded text: their literals are ASCII, [.] stops at the four line
    terminators and [\s] is the white space of [Discovery] without the
    colon. *)
Module Pm2Text.

Definition code (c : ascii) : nat := nat_of_ascii c.

(** The bytes the line terminator at the head of [s] takes (LF and CR one,
    U+2028 and U+2029 three); [0] when there is none. *)
Definition termLen (s : string) : nat :=
  match s with
  | String a r =>
      if ((code a =? 10) || (code a =? 13))%nat then 1%nat
      else
        match r with
        | String b (String c _) =>
            if ((code a =? 226) && (code b =? 128)
                && ((code c =? 168) || (code c =? 169)))%nat
            then 3%nat else 0%nat
        | _ => 0%nat
        end
  | EmptyString => 0%nat
  end.

(** The one-byte members of [\s]. *)
Definition isWs1 (a : ascii) : bool :=
  ((9 <=? code a) && (code a <=? 13) || (code a =? 32))%nat.

(** [\s*]: the bytes of the longest run of white space at the head of
    [s]. *)
Fixpoint wsRun (s : string) : nat :=
  match s with
  | EmptyString => 0
  | String a r1 =>
      if isWs1 a then S (wsRun r1) else
      match r1 with
      | EmptyString => 0
      | String b r2 =>
          if Discovery.isSep2 a b then S (S (wsRun r2)) else
          match r2 with
          | EmptyString => 0
          | String c r3 => if Discovery.isSep3 a b c then S (S (S (wsRun r3))) else 0
          end
      end
  end%nat.

(** [\d*] *)
Fixpoint digitRun (s : string) : nat :=
  match s with
  | String c rest => if Discovery.isDigit c then S (digitRun rest) else 0
  | EmptyString => 0
  end%nat.

(** [[^|]*] *)
Fixpoint fieldRun (s : string) : nat :=
  match s with
  | String c rest => if Ascii.eqb c "|" then 0 else S (fieldRun rest)
  | EmptyString => 0
  end%nat.

(** [.*] up to the end of the line: the bytes before the next line
    terminator. *)
Fixpoint lineRest (s : string) : nat :=
  match s with
  | String _ rest => if (termLen s =? 0)%nat then S (lineRest rest) else 0
  | EmptyString => 0
  end%nat.

Fixpoint dropBytes (n : nat) (s : string) : string :=
  match n, s with
  | S m, String _ rest => dropBytes m rest
  | _, _ => s
  end.

(** Greedy [.*] followed by [k]: the longest stretch of the line first,
    then shorter ones, until [k] matches what follows; the bytes matched
    by both. *)
Fixpoint dotStar (k : string → option nat) (s : string) : option nat :=
  match s with
  | String _ rest =>
      if (termLen s =? 0)%nat then
        match dotStar k rest with
        | Some n => Some (S n)
        | None => k s
        end
      else k s
  | EmptyString => k s
  end.

(** [\.log last \d+ lines:] at the head of [s] *)
Definition tailLen (s : string) : option nat :=
  match Discovery.stripPrefix ".log last " s with
  | Some s1 =>
      match digitRun s1 with
      | O => None
      | S d =>
          match Discovery.stripPrefix " lines:" (dropBytes (S d) s1) with
          | Some _ => Some (10 + S d + 7)%nat
          | None => None
          end
      end
  | None => None
  end.

(** [/\/.*\.pm2\/logs\/.*\.log last \d+ lines:/] at the head of [s]: the
    bytes of the match. *)
Definition bannerLen (s : string) : option nat :=
  match s with
  | String "/" rest =>
      option_map S
        (dotStar (fun s1 =>
                    match Discovery.stripPrefix ".pm2/logs/" s1 with
                    | Some s2 => option_map (Nat.add 10) (dotStar tailLen s2)
                    | None => None
                    end) rest)
  | _ => None
  end.

(** [/^\s*\d+\|[^|]+\|\s*/m] at the head of [s], which is at the start
    of a line. *)
Definition prefixLen (s : string) : option nat :=
  let n1 := wsRun s in
  let s1 := dropBytes n1 s in
  let n2 := digitRun s1 in
  match n2, dropBytes n2 s1 with
  | S _, String "|" s3 =>
      let n3 := fieldRun s3 in
      match n3, dropBytes n3 s3 with
      | S _, String "|" s5 => Some (n1 + n2 + 1 + n3 + 1 + wsRun s5)%nat
      | _, _ => None
      end
  | _, _ => None
  end.

(** [/\[TAILING\].*$/m] at the head of [s] *)
Definition tailingLen (s : string) : option nat :=
  match Discovery.stripPrefix "[TAILING]" s with
  | Some rest => Some (9 + lineRest rest)%nat
  | None => None
  end.

(** [s.replace(re, '')] for a global [re] that matches no empty string.
    [matchLen atLineStart t] is the length of the match of [re] at the
    head of the suffix [t].  The scan goes byte by byte: [skip] bytes of
    the match in progress are still to drop, [atLineStart] tells whether
    the byte before the head ends a line terminator, and [pending] counts
    the bytes of a three-byte terminator that are still to come. *)
Fixpoint replaceAll (matchLen : bool → string → option nat)
    (atLineStart : bool) (pending skip : nat) (s : string) : string :=
  match s with
  | EmptyString => EmptyString
  | String c rest =>
      let t := termLen s in
      let next := ((t =? 1) || (pending =? 1))%nat in
      let pending' := if (t =? 3)%nat then 2%nat else Nat.pred pending in
      match skip with
      | S n => replaceAll matchLen next pending' n rest
      | O =>
          match matchLen atLineStart s with
          | Some (S n) => replaceAll matchLen next pending' n rest
          | _ => String c (replaceAll matchLen next pending' 0 rest)
          end
      end
  end.

Definition replaceBanners (s : string) : string :=
  replaceAll (fun _ t => bannerLen t) true 0 0 s.

Definition replacePrefixes (s : string) : string :=
  replaceAll (fun atLineStart t => if atLineStart then prefixLen t else None) true 0 0 s.

Definition replaceTailing (s : string) : string :=
  replaceAll (fun _ t => tailingLen t) true 0 0 s.

Definition trimStart (s : string) : string := dropBytes (wsRun s) s.

Fixpoint trimEnd (s : string) : string :=
  match s with
  | EmptyString => EmptyString
  | String c rest =>
      if (wsRun s =? String.length s)%nat then EmptyString else String c (trimEnd rest)
  end.

(** [s.trim()] *)
Definition trim (s : string) : string := trimEnd (trimStart s).

(** The chain of the log handler. *)
Definition stripPm2Formatting (rawLogs : string) : string :=
  trim (replaceTailing (replacePrefixes (replaceBanners rawLogs))).

End Pm2Text.

(* ================================================================== *)
(** ** Helpers of the handlers *)

Definition loadState : M unit :=
  modify (fun w => setServerState (default ∅ (stateFile w)) w).

Definition persistState : M unit :=
  modify (fun w => record (EvPersist (serverState w)) (setStateFile (Some (serverState w)) w)).

(** Whether [exec] can spawn its shell with the option [cwd: dir]: a
    directory that is given (and not the empty string, which counts as not
    given) has to exist. *)
Definition spawnable (dir : option string) (w : World) : bool :=
  match dir with
  | Some d => if String.eqb d EmptyString then true else dirExists w d
  | None => true
  end.

(** [runPm2(command, options)]: the command line goes to [exec], which
    rejects when the shell cannot be spawned in [options.cwd] and when the
    command exits with an error or prints more than the buffer holds (the
    latter among the failures that [pm2Output] tells for [pm2 logs] and
    [pm2 describe]; the other commands print little, and the process list
    is taken to fit). *)
Definition runPm2 (c : Pm2Command) : M Stdout :=
  fun w =>
    let w1 := record (EvExec (commandLine c) (commandCwd c) (commandEnv c)) w in
    if spawnable (commandCwd c) w1 then
      match pm2Step c w1 with
      | Some (out, w2) => (Ok out, w2)
      | None => (Throw "Command failed", w1)
      end
    else (Throw "Command failed", w1).

(** [JSON.parse(stdout)] where a process array is expected. *)
Definition jsonParse (out : Stdout) : M (list Pm2Process) :=
  match out with
  | ProcessList l => ret l
  | Text _ => throw "SyntaxError"
  end.

Definition stdoutText (out : Stdout) : string :=
  match out with
  | Text s => s
  | ProcessList _ => EmptyString
  end.

(** [p => p.name === name] *)
Definition sameName (nm : option string) (p : Pm2Process) : bool :=
  match nm with
  | Some n => named n p
  | None => false
  end.

Definition getPm2ProcessInfo (nm : option string) : M (option Pm2Process) :=
  tryCatch
    (let* stdout := runPm2 PmJlist in
     let* processes := jsonParse stdout in
     ret (find (sameName nm) processes))
    (ret None).

Definition restartPm2Process (nm : string) : M unit :=
  runPm2 (PmRestart nm) ;; ret tt.

Definition deletePm2Process (nm : string) : M unit :=
  tryCatch (runPm2 (PmDelete nm) ;; ret tt) (ret tt).

Definition stopPm2Process (nm : string) : M unit :=
  tryCatch (runPm2 (PmStop nm) ;; ret tt) (ret tt).

Definition describePm2Process (nm : string) : M string :=
  let* stdout := runPm2 (PmDescribe nm) in ret (stdoutText stdout).

(** The duplicate-prevention reconciler. *)
Definition startPm2Process (config : ManagedProcessConfig) : M unit :=
  let create := runPm2 (PmStart config) ;; ret tt in
  let* existingProcess := getPm2ProcessInfo (name config) in
  match existingProcess with
  | Some p =>
      match p_status p with
      | Some status =>
          if String.eqb status "online" then ret tt
          else if String.eqb status "stopped" then restartPm2Process (Js.interp (name config))
          else deletePm2Process (Js.interp (name config)) ;; create
      | None => deletePm2Process (Js.interp (name config)) ;; create
      end
  | None => create
  end.

(** [fs.stat(path)] then [.size]; rejects when there is no such file. *)
Definition statSize (path : string) : M Z :=
  fun w =>
    match logFiles w !! path with
    | Some content => (Ok (Z.of_nat (String.length content)), w)
    | None => (Throw "ENOENT", w)
    end.

(** [n] zero bytes. *)
Fixpoint zeroBytes (n : nat) : string :=
  match n with
  | O => EmptyString
  | S m => String zero (zeroBytes m)
  end.

(** The bytes [fileHandle.read(buffer, 0, length, position)] leaves in a
    fresh buffer of [len] zero bytes ([Buffer.alloc]): those of the file
    from [from] on, as many as there are, and the rest of the buffer as it
    was. *)
Definition fillBuffer (from len : nat) (content : string) : string :=
  let got := substring from len content in
  got +:+ zeroBytes (len - String.length got).

(** [fileHandle.read(buffer, 0, length, position)] into a fresh buffer of
    [length] bytes, then [buffer.toString('utf8')].  The position [-1]
    means the current position of the handle, which is the start of the
    file; a position below that is rejected. *)
Definition readAt (path : string) (position len : Z) : M string :=
  fun w =>
    match logFiles w !! path with
    | Some content =>
        if position <? -1 then (Throw "ERR_OUT_OF_RANGE", w)
        else
          let from := if position =? -1 then 0%nat else Z.to_nat position in
          (Ok (Utf8.decode (fillBuffer from (Z.to_nat len) content)), w)
    | None => (Throw "ENOENT", w)
    end.

(** [serverState.managedProcesses[nm]?.logOffset] *)
Definition readLogOffset (w : World) (nm : string) : option Z :=
  match getProperty (serverState w) nm with
  | Some (Own c) => over (logOffset c) (builtinOffsets w !! "__proto__"%string)
  | Some (Inherited key) =>
      over (builtinOffsets w !! key) (builtinOffsets w !! "__proto__"%string)
  | None => None
  end.

(** [serverState.managedProcesses[nm].logOffset = v] *)
Definition assignLogOffset (nm : string) (v : Z) : M unit :=
  fun w =>
    match getProperty (serverState w) nm with
    | Some (Own c) =>
        (Ok tt, setServerState (<[nm := withLogOffset (Some v) c]> (serverState w)) w)
    | Some (Inherited key) =>
        (Ok tt, setBuiltinOffsets (<[key := v]> (builtinOffsets w)) w)
    | None => (Throw "TypeError", w)
    end.

Definition maxBytes : Z := 1024 * 1024.

Definition noNewLogs : string := "(no new logs since last restart)".

(* ================================================================== *)
(** ** The tool handlers *)

(** The arguments of [register-managed-process] besides
    [startImmediately]. *)
Record RegisterParams := mkParams {
  r_name : string;
  r_script : string;
  r_cwd : option string;
  r_args : option (list string);
  r_env : option (gmap string string);
  r_interpreter : option string;
  r_instances : option Z;
  r_watch : option bool;
  r_autorestart : option bool
}.

(** One row of [get-managed-processes]. *)
Record ServerRow := mkRow {
  row_name : option string;
  row_status : string;
  row_script : option string;
  row_cwd : option string
}.

Section Handlers.

(** [linkify.find(text, 'url')] mapped to the hrefs it finds, in text
    order; linkifyjs is a dependency. *)
Variable linkifyFind : string → list string.

(** What the log handler does to the text [pm2 logs] printed before it
    returns it.  The handlers are taken over every such function; the one
    the source applies is [Pm2Text.stripPm2Formatting]. *)
Variable stripPm2Formatting : string → string.

Definition getManagedProcesses : M (list ServerRow) :=
  loadState ;;
  let* processes :=
    tryCatch (let* stdout := runPm2 PmJlist in jsonParse stdout) (ret []) in
  let* reg := gets serverState in
  ret (map (fun kc : string * ManagedProcessConfig =>
              let config := snd kc in
              let pm2Info := find (sameName (name config)) (rev processes) in
              let status :=
                match pm2Info with
                | Some p => if Js.truthyStr (p_status p) then Js.interp (p_status p)
                            else "stopped"%string
                | None => "stopped"%string
                end in
              mkRow (name config) status (script config) (cwd config))
           (map_to_list reg)).

Definition registerManagedProcess (params : RegisterParams) (startImmediately : bool)
    : M string :=
  loadState ;;
  let config :=
    mkConfig (Some (r_name params)) (Some (r_script params)) (r_cwd params)
             (r_args params) (r_env params) (r_interpreter params)
             (r_instances params) (r_watch params) (r_autorestart params) None in
  modify (fun w => setServerState (setProperty (r_name params) config (serverState w)) w) ;;
  persistState ;;
  (if startImmediately then startPm2Process config else ret tt) ;;
  ret ("Server '" +:+ r_name params +:+ "' registered"
       +:+ (if startImmediately then " and started" else ""))%string.

Definition updateManagedProcess (nm : string) (updates : ConfigUpdates) (applyToPm2 : bool)
    : M string :=
  loadState ;;
  let* reg := gets serverState in
  match getProperty reg nm with
  | None =>
      throw ("Managed process '" +:+ nm
             +:+ "' is not registered. Use register-managed-process first.")%string
  | Some existing =>
      let updated := mergeConfig (spreadSlot existing) updates nm in
      modify (fun w => setServerState (setProperty nm updated (serverState w)) w) ;;
      persistState ;;
      (if applyToPm2
       then deletePm2Process nm ;; startPm2Process updated
       else ret tt) ;;
      ret ("Server '" +:+ nm +:+ "' updated"
           +:+ (if applyToPm2 then " and restarted with new settings" else ""))%string
  end.

Definition startManagedProcess (nm : string) : M string :=
  loadState ;;
  let* reg := gets serverState in
  match getProperty reg nm with
  | None =>
      throw ("Server '" +:+ nm
             +:+ "' is not registered. Use register-managed-process first.")%string
  | Some config =>
      startPm2Process (viewSlot config) ;;
      tryCatch
        (let* home := gets pm2Home in
         let* size := statSize (getPm2LogPath home nm false) in
         assignLogOffset nm size ;;
         persistState)
        (ret tt) ;;
      let* urlInfo :=
        tryCatch
          (let* stdout := runPm2 (PmLogs nm 100 StreamAll) in
           let logs := stdoutText stdout in
           ret (Discovery.urlInfo (linkifyFind logs) logs))
          (ret EmptyString) in
      ret ("Server '" +:+ nm +:+ "' started" +:+ urlInfo)%string
  end.

Definition stopManagedProcess (nm : string) : M string :=
  stopPm2Process nm ;;
  ret ("Server '" +:+ nm +:+ "' stopped")%string.

Definition restartManagedProcess (nm : string) : M string :=
  loadState ;;
  tryCatch (runPm2 (PmFlush nm) ;; ret tt) (ret tt) ;;
  restartPm2Process nm ;;
  tryCatch
    (let* home := gets pm2Home in
     let* size := statSize (getPm2LogPath home nm false) in
     let* reg := gets serverState in
     match getProperty reg nm with
     | Some _ => assignLogOffset nm size ;; persistState
     | None => ret tt
     end)
    (ret tt) ;;
  ret ("Server '" +:+ nm +:+ "' restarted (logs flushed)")%string.

Definition deleteManagedProcess (nm : string) (deleteFromPm2 : bool) : M string :=
  loadState ;;
  (if deleteFromPm2 then deletePm2Process nm else ret tt) ;;
  modify (fun w => setServerState (delete nm (serverState w)) w) ;;
  persistState ;;
  ret ("Server '" +:+ nm +:+ "' deleted"
       +:+ (if deleteFromPm2 then " and stopped" else ""))%string.

Definition describeManagedProcess (nm : string) : M string :=
  describePm2Process nm.

(** The handler returns the log text and the final value of its
    [freshOnly] variable. *)
Definition readManagedProcessLogs (nm : string) (lines : Z) (type : LogStream)
    (freshOnly : bool) : M (string * bool) :=
  loadState ;;
  let* recorded := gets (fun w => readLogOffset w nm) in
  let* afterFresh :=
    match freshOnly, recorded with
    | true, Some stored =>
        tryCatch
          (let* home := gets pm2Home in
           let logPath :=
             getPm2LogPath home nm
               match type with StreamError => true | _ => false end in
           let offset := stored (* [logOffset || 0]: a zero stays zero *) in
           let* size := statSize logPath in
           let bytesToRead := size - offset in
           if 0 <? bytesToRead then
             let readSize := Z.min bytesToRead maxBytes in
             let* buffer := readAt logPath offset readSize in
             assignLogOffset nm (offset + readSize) ;;
             persistState ;;
             ret (buffer, true)
           else ret (noNewLogs, true))
          (ret (EmptyString, false))
    | _, _ => ret (EmptyString, freshOnly)
    end in
  if snd afterFresh then ret afterFresh
  else
    let* stdout := runPm2 (PmLogs nm lines type) in
    ret (stripPm2Formatting (stdoutText stdout), false).

Definition getPm2Status (processName : option string) : M (option (list Pm2Process)) :=
  tryCatch
    (let* stdout := runPm2 PmJlist in
     let* processes := jsonParse stdout in
     ret (Some (if Js.truthyStr processName
                then filter (fun p => sameName processName p = true) processes
                else processes)))
    (ret None).

(** *** A request to the server *)

Inductive Request :=
  | GetManagedProcesses
  | Register (params : RegisterParams) (startImmediately : bool)
  | Update (nm : string) (updates : ConfigUpdates) (applyToPm2 : bool)
  | Start (nm : string)
  | Stop (nm : string)
  | Restart (nm : string)
  | Delete (nm : string) (deleteFromPm2 : bool)
  | Describe (nm : string)
  | ReadLogs (nm : string) (lines : Z) (type : LogStream) (freshOnly : bool)
  | GetPm2Status (processName : option string).

(** The world after the handler of a request has run, whether it
    returned or threw. *)
Definition serve (r : Request) (w : World) : World :=
  match r with
  | GetManagedProcesses => snd (getManagedProcesses w)
  | Register params startImmediately => snd (registerManagedProcess params startImmediately w)
  | Update nm updates applyToPm2 => snd (updateManagedProcess nm updates applyToPm2 w)
  | Start nm => snd (startManagedProcess nm w)
  | Stop nm => snd (stopManagedProcess nm w)
  | Restart nm => snd (restartManagedProcess nm w)
  | Delete nm deleteFromPm2 => snd (deleteManagedProcess nm deleteFromPm2 w)
  | Describe nm => snd (describeManagedProcess nm w)
  | ReadLogs nm lines type freshOnly => snd (readManagedProcessLogs nm lines type freshOnly w)
  | GetPm2Status processName => snd (getPm2Status processName w)
  end.

End Handlers.

(* ================================================================== *)
(** ** The shell and the specification's reading of discovery *)

Module Shell.

Definition isBlank (c : ascii) : bool :=
  (Ascii.eqb c " " || Ascii.eqb c "009" || Ascii.eqb c "010")%char.

(** The fields of a command line, cut at every blank. *)
Fixpoint fields (s : string) : list string :=
  match s with
  | EmptyString => [EmptyString]
  | String c rest =>
      if isBlank c then EmptyString :: fields rest
      else match fields rest with
           | w :: ws => String c w :: ws
           | [] => [String c EmptyString]
           end
  end.

(** Word splitting, the one thing the shell of [exec] is modelled to do
    to a command line: the non-empty fields. *)
Definition words (s : string) : list string :=
  filter (fun w => w ≠ EmptyString) (fields s).

(** Characters that mean nothing to a shell. *)
Definition isPlain (c : ascii) : bool :=
  let n := nat_of_ascii c in
  ((48 <=? n) && (n <=? 57) || (65 <=? n) && (n <=? 90) || (97 <=? n) && (n <=? 122)
   || (n =? 45) || (n =? 46) || (n =? 47) || (n =? 95) || (n =? 58) || (n =? 64)
   || (n =? 43) || (n =? 44) || (n =? 61))%nat.

(** A non-empty string of plain characters. *)
Definition plainWord (s : string) : bool :=
  negb (String.eqb s EmptyString) && forallb isPlain (list_ascii_of_string s).

End Shell.

(** The words of the specification, for comparison with [Discovery]. *)
Module Spec.

Definition lower (c : ascii) : ascii :=
  let n := nat_of_ascii c in
  if ((65 <=? n) && (n <=? 90))%nat then ascii_of_nat (n + 32) else c.

(** [s] without the prefix [p], compared without regard to case. *)
Fixpoint stripPrefixNoCase (p s : string) : option string :=
  match p, s with
  | EmptyString, _ => Some s
  | String a p', String b s' =>
      if Ascii.eqb (lower a) (lower b) then stripPrefixNoCase p' s' else None
  | String _ _, EmptyString => None
  end.

(** All the digits at the head of [s]. *)
Fixpoint leadingDigits (s : string) : string :=
  match s with
  | String c rest =>
      if Discovery.isDigit c then String c (leadingDigits rest) else EmptyString
  | EmptyString => EmptyString
  end.

(** "a decimal number labeled as a port (case-insensitive token
    match)": the label in any case, separators, then the number. *)
Definition portLabelHere (s : string) : option string :=
  match stripPrefixNoCase "port" s with
  | Some rest =>
      match Discovery.sepLen rest with
      | O => None
      | _ =>
          match leadingDigits (Discovery.skipSeps rest) with
          | EmptyString => None
          | number => Some number
          end
      end
  | None => None
  end.

Fixpoint portLabel (logs : string) : option string :=
  match portLabelHere logs with
  | Some number => Some number
  | None =>
      match logs with
      | EmptyString => None
      | String _ rest => portLabel rest
      end
  end.

(** What follows ["://"] in [s], if anything does. *)
Fixpoint afterScheme (s : string) : option string :=
  match Discovery.stripPrefix "://" s with
  | Some rest => Some rest
  | None =>
      match s with
      | EmptyString => None
      | String _ rest => afterScheme rest
      end
  end.

(** The prefix of [s] up to the first of [/ : ? #]. *)
Fixpoint hostPart (s : string) : string :=
  match s with
  | EmptyString => EmptyString
  | String c rest =>
      if (Ascii.eqb c "/" || Ascii.eqb c ":" || Ascii.eqb c "?" || Ascii.eqb c "#")%char
      then EmptyString else String c (hostPart rest)
  end.

(** The host component of an href. *)
Definition hostOf (href : string) : string :=
  hostPart (default href (afterScheme href)).

(** "whose host component is a loopback form" *)
Definition isLoopback (href : string) : bool :=
  bool_decide (hostOf href ∈ ["localhost"; "127.0.0.1"; "0.0.0.0"]%string).

(** Endpoint discovery as the specification words it. *)
Definition discoverUrl (links : list string) (logs : string) : option string :=
  match over (find isLoopback links) (head links) with
  | Some href => Some (Js.stripTrailingSlashes href)
  | None =>
      match portLabel logs with
      | Some port => Some ("http://localhost:" +:+ port)%string
      | None => None
      end
  end.

End Spec.

(* ================================================================== *)
(** ** Vocabulary of the properties *)

(** [m] keeps [P] true, whether it returns or throws. *)
Definition Preserves {A} (P : World → Prop) (m : M A) : Prop :=
  ∀ w, P w → P (snd (m w)).

(** The part of the world the supervisor cannot touch. *)
Definition memory (w : World) :=
  (serverState w, stateFile w, builtinOffsets w, pm2Home w).

(** [P] looks at the memory only. *)
Definition OfMemory (P : World → Prop) : Prop :=
  ∀ w w', memory w = memory w' → P w → P w'.

(** [P] survives a journal entry and a step of the supervisor. *)
Definition SupervisorStable (P : World → Prop) : Prop :=
  (∀ e w, P w → P (record e w))
  ∧ (∀ c w out w', pm2Step c w = Some (out, w') → P w → P w').

(** The registry a handler works on once it has called [loadState]. *)
Definition registryOf (w : World) : gmap string ManagedProcessConfig :=
  default ∅ (stateFile w).

(** Every entry is stored under its own [name]. *)
Definition Keyed (reg : gmap string ManagedProcessConfig) : Prop :=
  ∀ k c, reg !! k = Some c → name c = Some k.

Definition registryKeyed (w : World) : Prop :=
  Keyed (serverState w) ∧ Keyed (registryOf w).

(** The worlds a server can be in: it starts with an empty
    [serverState] and no or an empty state file; it serves requests; and
    between requests the supervisor and the log files change on their
    own. *)
Inductive Reachable (linkifyFind : string → list string)
    (stripPm2Formatting : string → string) : World → Prop :=
  | reach_start w :
      serverState w = ∅ → registryOf w = ∅ →
      Reachable linkifyFind stripPm2Formatting w
  | reach_serve r w :
      Reachable linkifyFind stripPm2Formatting w →
      Reachable linkifyFind stripPm2Formatting (serve linkifyFind stripPm2Formatting r w)
  | reach_outside w w' :
      Reachable linkifyFind stripPm2Formatting w → memory w' = memory w →
      Reachable linkifyFind stripPm2Formatting w'.

(** The commands handed to [exec] among the events [l]. *)
Definition commandsOf (l : list Event) : list string :=
  omap (fun e => match e with EvExec c _ _ => Some c | EvPersist _ => None end) l.

(** The state-file writes among the events [l]. *)
Definition persistsOf (l : list Event) : list (gmap string ManagedProcessConfig) :=
  omap (fun e => match e with EvPersist r => Some r | EvExec _ _ _ => None end) l.

(** How many descriptors the supervisor holds under [nm]. *)
Definition liveCount (nm : string) (w : World) : nat :=
  length (filter (fun p => named nm p = true) (pm2List w)).

(** The journal of [w] starts with the events [l]. *)
Definition Extends (l : list Event) (w : World) : Prop :=
  ∃ rest, journal w = l ++ rest.

(** The event [runPm2] leaves in the journal. *)
Definition execEvent (c : Pm2Command) : Event :=
  EvExec (commandLine c) (commandCwd c) (commandEnv c).

(** The descriptor the supervisor reports for a name, if it answers and
    has one. *)
Definition liveDescriptor (nm : option string) (w : World) : option Pm2Process :=
  if pm2Online w then find (sameName nm) (pm2List w) else None.

(** The creation command for [config] goes through: the supervisor
    answers, [exec] can spawn in the working directory of the config, and
    the supervisor does not refuse the command. *)
Definition creates (config : ManagedProcessConfig) (w : World) : bool :=
  pm2Online w && spawnable (cwd config) w
  && bool_decide (is_Some (pm2Launch w (commandLine (PmStart config)))).

(** The descriptors the creation command for [config] adds in [w]. *)
Definition additions (config : ManagedProcessConfig) (w : World) : list Pm2Process :=
  if creates config w
  then launched config (default EmptyString (pm2Launch w (commandLine (PmStart config))))
  else [].

(** The creation command, field by field. *)
Definition creationText (config : ManagedProcessConfig) : string :=
  ("pm2 start " +:+ default EmptyString (script config)
   +:+ " --name " +:+ default EmptyString (name config)
   +:+ (if Js.truthyStr (interpreter config)
        then " --interpreter " +:+ default EmptyString (interpreter config) else "")
   +:+ (if Js.truthyStr (cwd config)
        then " --cwd " +:+ default EmptyString (cwd config) else "")
   +:+ match instances config with
       | Some n => if (0 <? n)%Z then " -i " +:+ Js.numberToString n else ""
       | None => ""
       end
   +:+ match watch config with
       | Some true => " --watch"
       | Some false => " --no-watch"
       | None => ""
       end
   +:+ match autorestart config with
       | Some true => ""
       | _ => " --no-autorestart"
       end
   +:+ match args config with
       | Some (a :: rest) => " -- " +:+ String.concat " " (a :: rest)
       | _ => ""
       end)%string.

(** [p.pm2_env?.status === s] *)
Definition statusIs (s : string) (p : Pm2Process) : bool :=
  match p_status p with
  | Some status => String.eqb status s
  | None => false
  end.

(** The requests that may write the [logOffset] of the entry [k]: a
    start or restart of [k], a fresh-only log read of [k], and a
    registration under [k], which replaces the entry. *)
Definition writesOffset (r : Request) (k : string) : bool :=
  match r with
  | Start nm | Restart nm => String.eqb nm k
  | ReadLogs nm _ _ true => String.eqb nm k
  | Register params _ => String.eqb (r_name params) k
  | _ => false
  end.

(** The entry [k], wherever it exists, has [logOffset] [o]. *)
Definition offsetIs (k : string) (o : option Z) (w : World) : Prop :=
  (∀ c, serverState w !! k = Some c → logOffset c = o)
  ∧ (∀ c, registryOf w !! k = Some c → logOffset c = o).

(** The sentences of the specification that the code is compared with. *)
Module Claimed.

Definition isStartOrRestart (r : Request) : bool :=
  match r with
  | Start _ | Restart _ => true
  | _ => false
  end.

(** "[logOffset] ... updated only by restart/start operations" *)
Definition offsetWrittenOnlyByStartAndRestart : Prop :=
  ∀ lf sp r k w c c',
    isStartOrRestart r = false →
    registryOf w !! k = Some c →
    registryOf (serve lf sp r w) !! k = Some c' →
    logOffset c' = logOffset c.

(** "In every case at most one live process per name results." *)
Definition atMostOnePerName : Prop :=
  ∀ config nm w,
    name config = Some nm →
    (liveCount nm (snd (startPm2Process config w)) ≤ 1)%nat.

(** "construct an explicit argument list/array, never a single
    interpolated shell string": the words the shell makes of the command
    are the parts it was built from. *)
Definition argumentsSurviveTheShell : Prop :=
  ∀ config,
    Shell.words (commandLine (PmStart config))
    = map (default EmptyString) (startParts config).

(** Endpoint discovery does what the specification says. *)
Definition discoveryAsSpecified : Prop :=
  ∀ links logs, Discovery.discoverUrl links logs = Spec.discoverUrl links logs.

End Claimed.

(** A string of [k] slashes. *)
Fixpoint slashes (k : nat) : string :=
  match k with
  | O => EmptyString
  | S k' => String "/" (slashes k')
  end.

(** The last character of [s] is a slash. *)
Fixpoint endsWithSlash (s : string) : bool :=
  match s with
  | EmptyString => false
  | String c EmptyString => Ascii.eqb c "/"
  | String _ rest => endsWithSlash rest
  end.

(** What the port pattern matches: one of the three spellings of the
    label, a non-empty run of white space and colons, and four or five
    digits, somewhere in the text. *)
Definition PortMention (logs port : string) : Prop :=
  ∃ before label seps after,
    logs = before +:+ label +:+ seps +:+ port +:+ after
    ∧ label ∈ ["port"; "Port"; "PORT"]%string
    ∧ seps ≠ EmptyString
    ∧ Discovery.skipSeps seps = EmptyString
    ∧ forallb Discovery.isDigit (list_ascii_of_string port) = true
    ∧ (4 ≤ String.length port ≤ 5)%nat.

(** The supervisor is as reachable, and prints the same, as in [w0]. *)
Definition SameLink (w0 w : World) : Prop :=
  pm2Online w = pm2Online w0 ∧ pm2Output w = pm2Output w0.

(** Every command but [flush]: the commands that leave the log files
    alone. *)
Definition notFlush (c : Pm2Command) : bool :=
  match c with
  | PmFlush _ => false
  | _ => true
  end.

(** [P] survives the journal entry of a command and a step of the
    supervisor on a command other than [flush]. *)
Definition Quiet (P : World → Prop) : Prop :=
  (∀ c d e w, P w → P (record (EvExec c d e) w))
  ∧ (∀ c w out w', notFlush c = true → pm2Step c w = Some (out, w') → P w → P w').

(** Between [w0] and [w] nothing happened but commands other than
    [flush]: the registry in memory and on disk, the log files and the
    reachability of the supervisor are the same, and nothing was written
    to the state file. *)
Definition Untouched (w0 w : World) : Prop :=
  memory w = memory w0
  ∧ logFiles w = logFiles w0
  ∧ pm2Online w = pm2Online w0
  ∧ pm2Output w = pm2Output w0
  ∧ persistsOf (journal w) = persistsOf (journal w0).

(** The registry in memory is the one of the state file. *)
Definition Sync (w : World) : Prop := serverState w = registryOf w.

(** The name a request is about, if it is about one. *)
Definition targetOf (r : Request) : option string :=
  match r with
  | Register params _ => Some (r_name params)
  | Update nm _ _ | Start nm | Stop nm | Restart nm | Delete nm _
  | Describe nm | ReadLogs nm _ _ _ => Some nm
  | GetManagedProcesses | GetPm2Status _ => None
  end.

(** The entry [k] is [v], in memory and in the state file. *)
Definition entryIs (k : string) (v : option ManagedProcessConfig) (w : World) : Prop :=
  serverState w !! k = v ∧ registryOf w !! k = v.

(** No byte of [s] is a slash, a bar or an opening bracket: the text holds
    none of the supervisor's decorations. *)
Definition undecorated (s : string) : bool :=
  forallb (fun c => negb (Ascii.eqb c "/" || Ascii.eqb c "|" || Ascii.eqb c "["))
    (list_ascii_of_string s).

(** ** Sample data *)

(** A server that has just come up: nothing registered, no state file,
    the supervisor running without processes, no log file. *)
Definition bootWorld : World :=
  mkWorld ∅ None true [] (fun _ => None) (fun _ => Some "online"%string) (fun _ => true)
          "/home/dev/.pm2" ∅ ∅ [].

Definition webConfig : ManagedProcessConfig :=
  mkConfig (Some "web") (Some "server.js") None None None None None None None None%string.

(** A world where [registry] is on disk, the supervisor holds [procs] and
    the log files are [files]; creation commands are answered with
    [online] and every directory exists. *)
Definition worldWith (registry : gmap string ManagedProcessConfig)
    (procs : list Pm2Process) (files : gmap string string) : World :=
  mkWorld ∅ (Some registry) true procs (fun _ => None) (fun _ => Some "online"%string)
          (fun _ => true) "/home/dev/.pm2" files ∅ [].

(** The same with the supervisor not running. *)
Definition offlineWorld (registry : option (gmap string ManagedProcessConfig)) : World :=
  mkWorld ∅ registry false [] (fun _ => None) (fun _ => Some "online"%string)
          (fun _ => true) "/home/dev/.pm2" ∅ ∅ [].

(* ================================================================== *)
(** * Properties *)

(** ** Appending strings *)

Lemma append_nil_l s : EmptyString +:+ s = s.
Proof. reflexivity. Qed.

Lemma append_cons c s t : String c s +:+ t = String c (s +:+ t).
Proof. reflexivity. Qed.

Lemma append_empty_r s : s +:+ EmptyString = s.
Proof.
  induction s as [|c s IH]; [reflexivity|]. rewrite append_cons, IH. reflexivity.
Qed.

Lemma append_assoc (a b c : string) : (a +:+ b) +:+ c = a +:+ (b +:+ c).
Proof.
  induction a as [|ch a IH]; [reflexivity|]. rewrite !append_cons, IH. reflexivity.
Qed.

Lemma length_append (a b : string) :
  String.length (a +:+ b) = (String.length a + String.length b)%nat.
Proof.
  induction a as [|ch a IH]; [reflexivity|]. rewrite append_cons. simpl. rewrite IH. reflexivity.
Qed.

(** ** Reasoning about handlers *)

Lemma preserves_ret {A} (P : World → Prop) (a : A) : Preserves P (ret a).
Proof. intros w H. exact H. Qed.

Lemma preserves_throw {A} (P : World → Prop) msg : Preserves P (@throw A msg).
Proof. intros w H. exact H. Qed.

Lemma preserves_gets {A} (P : World → Prop) (f : World → A) : Preserves P (gets f).
Proof. intros w H. exact H. Qed.

Lemma preserves_modify (P : World → Prop) f :
  (∀ w, P w → P (f w)) → Preserves P (modify f).
Proof. intros Hf w H. apply Hf, H. Qed.

Lemma preserves_bind {A B} (P : World → Prop) (m : M A) (k : A → M B) :
  Preserves P m → (∀ a, Preserves P (k a)) → Preserves P (bind m k).
Proof.
  intros Hm Hk w H. unfold bind.
  specialize (Hm w H). destruct (m w) as [[a|e] w']; simpl in *.
  - apply Hk, Hm.
  - exact Hm.
Qed.

Lemma preserves_tryCatch {A} (P : World → Prop) (body handler : M A) :
  Preserves P body → Preserves P handler → Preserves P (tryCatch body handler).
Proof.
  intros Hb Hh w H. unfold tryCatch.
  specialize (Hb w H). destruct (body w) as [[a|e] w']; simpl in *.
  - exact Hb.
  - apply Hh, Hb.
Qed.

Lemma preserves_if {A} (P : World → Prop) (b : bool) (m1 m2 : M A) :
  Preserves P m1 → Preserves P m2 → Preserves P (if b then m1 else m2).
Proof. destruct b; auto. Qed.

Lemma memory_record e w : memory (record e w) = memory w.
Proof. reflexivity. Qed.

Lemma memory_pm2Step c w out w' : pm2Step c w = Some (out, w') → memory w' = memory w.
Proof.
  unfold pm2Step. destruct (pm2Online w); simpl; [|discriminate].
  destruct c; simpl; intros H;
    repeat match type of H with
           | (if ?b then _ else _) = _ => destruct b
           | match ?x with _ => _ end = _ => destruct x
           end; inversion H; subst; reflexivity.
Qed.

Lemma ofMemory_stable P : OfMemory P → SupervisorStable P.
Proof.
  intros HP. split.
  - intros e w H. eapply HP; [|exact H]. reflexivity.
  - intros c w out w' E H. apply memory_pm2Step in E. eapply HP; [|exact H].
    symmetry. exact E.
Qed.

(** [exec] either runs the command, and the supervisor takes its step, or
    rejects, and nothing but the journal has changed. *)
Lemma runPm2_cases c w :
  (∃ out w2, runPm2 c w = (Ok out, w2)
             ∧ spawnable (commandCwd c) w = true
             ∧ pm2Step c (record (execEvent c) w) = Some (out, w2))
  ∨ (runPm2 c w = (Throw "Command failed", record (execEvent c) w)
     ∧ (spawnable (commandCwd c) w = false ∨ pm2Step c (record (execEvent c) w) = None)).
Proof.
  unfold runPm2, execEvent.
  change (spawnable (commandCwd c) (record _ w)) with (spawnable (commandCwd c) w).
  destruct (spawnable (commandCwd c) w); [|right; auto].
  destruct (pm2Step c _) as [[out w2]|] eqn:E; [left; eauto | right; auto].
Qed.

Lemma preserves_runPm2 P c : SupervisorStable P → Preserves P (runPm2 c).
Proof.
  intros [Hrec Hstep] w H.
  destruct (runPm2_cases c w) as [(out & w2 & E & _ & Estep)|[E _]]; rewrite E; simpl.
  - eapply Hstep; [exact Estep|]. apply Hrec, H.
  - apply Hrec, H.
Qed.

Lemma preserves_jsonParse P out : Preserves P (jsonParse out).
Proof. destruct out; [apply preserves_throw | apply preserves_ret]. Qed.

Create HintDb preserves.
#[local] Hint Resolve preserves_ret preserves_throw preserves_gets preserves_bind
  preserves_tryCatch preserves_if preserves_runPm2 preserves_jsonParse
  ofMemory_stable : preserves.

Lemma preserves_getPm2ProcessInfo P nm : SupervisorStable P → Preserves P (getPm2ProcessInfo nm).
Proof. intros HP. unfold getPm2ProcessInfo. auto 10 with preserves. Qed.

Lemma preserves_restartPm2Process P nm : SupervisorStable P → Preserves P (restartPm2Process nm).
Proof. intros HP. unfold restartPm2Process. auto 10 with preserves. Qed.

Lemma preserves_deletePm2Process P nm : SupervisorStable P → Preserves P (deletePm2Process nm).
Proof. intros HP. unfold deletePm2Process. auto 10 with preserves. Qed.

Lemma preserves_stopPm2Process P nm : SupervisorStable P → Preserves P (stopPm2Process nm).
Proof. intros HP. unfold stopPm2Process. auto 10 with preserves. Qed.

#[local] Hint Resolve preserves_getPm2ProcessInfo preserves_restartPm2Process
  preserves_deletePm2Process preserves_stopPm2Process : preserves.

Lemma preserves_startPm2Process P config : SupervisorStable P → Preserves P (startPm2Process config).
Proof.
  intros HP. unfold startPm2Process.
  apply preserves_bind; [auto with preserves|].
  intros [p|]; [|auto 10 with preserves].
  destruct (p_status p) as [status|]; [|auto 10 with preserves].
  repeat apply preserves_if; auto 10 with preserves.
Qed.

#[local] Hint Resolve preserves_startPm2Process : preserves.

(** ** Entries are keyed by their name *)

Lemma Keyed_empty : Keyed ∅.
Proof. intros k c H. rewrite lookup_empty in H. discriminate. Qed.

Lemma Keyed_insert k c reg : name c = Some k → Keyed reg → Keyed (<[k := c]> reg).
Proof.
  intros Hc Hreg k' c' H. destruct (decide (k = k')) as [->|Hne].
  - rewrite lookup_insert_eq in H. congruence.
  - rewrite lookup_insert_ne in H by done. eauto.
Qed.

Lemma Keyed_setProperty k c reg : name c = Some k → Keyed reg → Keyed (setProperty k c reg).
Proof.
  intros Hc Hreg. unfold setProperty.
  destruct (reg !! k); [|destruct (String.eqb k "__proto__")]; auto using Keyed_insert.
Qed.

Lemma Keyed_delete k reg : Keyed reg → Keyed (delete k reg).
Proof.
  intros Hreg k' c' H. destruct (decide (k = k')) as [->|Hne].
  - rewrite lookup_delete_eq in H. discriminate.
  - rewrite lookup_delete_ne in H by done. eauto.
Qed.

Lemma registryKeyed_ofMemory : OfMemory registryKeyed.
Proof.
  intros w w' Hm. unfold memory in Hm. inversion Hm as [[Hs Hf Hb Hh]].
  unfold registryKeyed, registryOf. rewrite Hs, Hf. auto.
Qed.

Lemma keyed_loadState : Preserves registryKeyed loadState.
Proof. intros w [_ Hf]. split; exact Hf. Qed.

Lemma keyed_persistState : Preserves registryKeyed persistState.
Proof. intros w [Hs _]. split; exact Hs. Qed.

Lemma keyed_statSize path : Preserves registryKeyed (statSize path).
Proof. intros w H. unfold statSize. destruct (logFiles w !! path); exact H. Qed.

Lemma keyed_readAt path pos len : Preserves registryKeyed (readAt path pos len).
Proof.
  intros w H. unfold readAt.
  destruct (logFiles w !! path); [destruct (pos <? -1)|]; exact H.
Qed.

Lemma keyed_assignLogOffset nm v : Preserves registryKeyed (assignLogOffset nm v).
Proof.
  intros w [Hs Hf]. unfold assignLogOffset, getProperty.
  destruct (serverState w !! nm) as [c|] eqn:E; simpl.
  - split; [|exact Hf]. apply Keyed_insert; [|exact Hs]. simpl. eauto.
  - destruct (bool_decide _); simpl; split; assumption.
Qed.

#[local] Hint Resolve registryKeyed_ofMemory keyed_loadState keyed_persistState
  keyed_statSize keyed_readAt keyed_assignLogOffset : preserves.

Lemma keyed_serve lf sp r : Preserves registryKeyed (fun w => (Ok tt, serve lf sp r w)).
Proof.
  assert (Hmod : ∀ k c, name c = Some k →
            Preserves registryKeyed
              (modify (fun w => setServerState (setProperty k c (serverState w)) w))).
  { intros k c Hc. apply preserves_modify. intros w [Hs Hf].
    split; [apply Keyed_setProperty; assumption | exact Hf]. }
  assert (Hdel : ∀ k,
            Preserves registryKeyed
              (modify (fun w => setServerState (delete k (serverState w)) w))).
  { intros k. apply preserves_modify. intros w [Hs Hf].
    split; [apply Keyed_delete; assumption | exact Hf]. }
  intros w H. simpl. destruct r; simpl.
  - revert w H. change (Preserves registryKeyed getManagedProcesses).
    unfold getManagedProcesses. auto 10 with preserves.
  - revert w H.
    change (Preserves registryKeyed (registerManagedProcess params startImmediately)).
    unfold registerManagedProcess. auto 10 with preserves.
  - revert w H. change (Preserves registryKeyed (updateManagedProcess nm updates applyToPm2)).
    unfold updateManagedProcess.
    apply preserves_bind; [auto with preserves|]. intros _.
    apply preserves_bind; [auto with preserves|]. intros reg.
    destruct (getProperty reg nm); auto 10 with preserves.
  - revert w H. change (Preserves registryKeyed (startManagedProcess lf nm)).
    unfold startManagedProcess.
    apply preserves_bind; [auto with preserves|]. intros _.
    apply preserves_bind; [auto with preserves|]. intros reg.
    destruct (getProperty reg nm); auto 15 with preserves.
  - revert w H. change (Preserves registryKeyed (stopManagedProcess nm)).
    unfold stopManagedProcess. auto 10 with preserves.
  - revert w H. change (Preserves registryKeyed (restartManagedProcess nm)).
    unfold restartManagedProcess.
    do 3 (apply preserves_bind; [auto 10 with preserves|]; intros _).
    apply preserves_bind; [|auto with preserves].
    apply preserves_tryCatch; [|auto with preserves].
    apply preserves_bind; [auto with preserves|]. intros home.
    apply preserves_bind; [auto with preserves|]. intros size.
    apply preserves_bind; [auto with preserves|]. intros reg.
    destruct (getProperty reg nm); auto 10 with preserves.
  - revert w H. change (Preserves registryKeyed (deleteManagedProcess nm deleteFromPm2)).
    unfold deleteManagedProcess. auto 10 with preserves.
  - revert w H. change (Preserves registryKeyed (describeManagedProcess nm)).
    unfold describeManagedProcess, describePm2Process. auto 10 with preserves.
  - revert w H.
    change (Preserves registryKeyed (readManagedProcessLogs sp nm lines type freshOnly)).
    unfold readManagedProcessLogs.
    apply preserves_bind; [auto with preserves|]. intros _.
    apply preserves_bind; [auto with preserves|]. intros recorded.
    apply preserves_bind.
    + destruct freshOnly, recorded; auto with preserves.
      apply preserves_tryCatch; [|auto with preserves].
      apply preserves_bind; [auto with preserves|]. intros home.
      apply preserves_bind; [auto with preserves|]. intros size.
      destruct (0 <? size - z); auto 10 with preserves.
    + intros [text fresh]. simpl. destruct fresh; auto 10 with preserves.
  - revert w H. change (Preserves registryKeyed (getPm2Status processName)).
    unfold getPm2Status. auto 10 with preserves.
Qed.

(** C10. In every world reachable from the empty registry by requests to
    the server (register, update and delete among them), with the
    supervisor and the log files changing freely in between, each entry of
    [managedProcesses], in memory and in the state file, is stored under
    the key that its own [name] field holds. *)
Theorem registry_keyed_by_name lf sp w :
  Reachable lf sp w → registryKeyed w.
Proof.
  induction 1 as [w Hs Hf | r w Hw IH | w w' Hw IH Hm].
  - split; [rewrite Hs | rewrite Hf]; apply Keyed_empty.
  - exact (keyed_serve lf sp r w IH).
  - eapply registryKeyed_ofMemory; [symmetry; exact Hm | exact IH].
Qed.

Lemma bind_ok {A B} (m : M A) (k : A → M B) w a w' :
  m w = (Ok a, w') → bind m k w = k a w'.
Proof. intros H. unfold bind. rewrite H. reflexivity. Qed.

Lemma bind_throw {A B} (m : M A) (k : A → M B) w e w' :
  m w = (Throw e, w') → bind m k w = (Throw e, w').
Proof. intros H. unfold bind. rewrite H. reflexivity. Qed.

Lemma tryCatch_ok {A} (body handler : M A) w a w' :
  body w = (Ok a, w') → tryCatch body handler w = (Ok a, w').
Proof. intros H. unfold tryCatch. rewrite H. reflexivity. Qed.

(** *** The journal only grows *)

Lemma extends_record l e w : Extends l w → Extends l (record e w).
Proof. intros [rest H]. exists (rest ++ [e]). simpl. rewrite H, app_assoc. reflexivity. Qed.

Lemma journal_pm2Step c w out w' : pm2Step c w = Some (out, w') → journal w' = journal w.
Proof.
  unfold pm2Step. destruct (pm2Online w); simpl; [|discriminate].
  destruct c; simpl; intros H;
    repeat match type of H with
           | (if ?b then _ else _) = _ => destruct b
           | match ?x with _ => _ end = _ => destruct x
           end; inversion H; subst; reflexivity.
Qed.

Lemma extends_runPm2 l c : Preserves (Extends l) (runPm2 c).
Proof.
  intros w H.
  destruct (runPm2_cases c w) as [(out & w2 & E & _ & Estep)|[E _]]; rewrite E; simpl.
  - apply journal_pm2Step in Estep. apply (extends_record l (execEvent c)) in H.
    destruct H as [rest H]. exists rest. rewrite Estep. exact H.
  - apply extends_record, H.
Qed.

Lemma extends_loadState l : Preserves (Extends l) loadState.
Proof. intros w H. exact H. Qed.

Lemma extends_persistState l : Preserves (Extends l) persistState.
Proof. intros w H. apply (extends_record l _ (setStateFile _ w)), H. Qed.

Lemma extends_statSize l path : Preserves (Extends l) (statSize path).
Proof. intros w H. unfold statSize. destruct (logFiles w !! path); exact H. Qed.

Lemma extends_readAt l path pos len : Preserves (Extends l) (readAt path pos len).
Proof.
  intros w H. unfold readAt.
  destruct (logFiles w !! path); [destruct (pos <? -1)|]; exact H.
Qed.

Lemma extends_assignLogOffset l nm v : Preserves (Extends l) (assignLogOffset nm v).
Proof.
  intros w H. unfold assignLogOffset.
  destruct (getProperty (serverState w) nm) as [[c|k]|]; exact H.
Qed.

Create HintDb extends.
#[local] Hint Resolve extends_runPm2 extends_loadState extends_persistState
  extends_statSize extends_readAt extends_assignLogOffset : extends.

(** ** What the supervisor helpers do, case by case *)

Lemma runPm2_offline c w :
  pm2Online w = false →
  runPm2 c w = (Throw "Command failed", record (execEvent c) w).
Proof.
  intros H. unfold runPm2, pm2Step. simpl. rewrite H. simpl.
  destruct (spawnable _ _); reflexivity.
Qed.

Lemma runPm2_start config w :
  runPm2 (PmStart config) w
  = (if creates config w then Ok (Text EmptyString) else Throw "Command failed",
     setPm2List (pm2List w ++ additions config w) (record (execEvent (PmStart config)) w)).
Proof.
  unfold runPm2, pm2Step, additions, creates, execEvent. simpl.
  change (spawnable (cwd config) (record _ w)) with (spawnable (cwd config) w).
  destruct (pm2Online w); simpl.
  2: { rewrite app_nil_r. destruct (spawnable _ _); destruct w; reflexivity. }
  destruct (spawnable (cwd config) w); simpl; [|rewrite app_nil_r; destruct w; reflexivity].
  destruct (pm2Launch w _) as [status|] eqn:E; simpl.
  - reflexivity.
  - rewrite app_nil_r. destruct w; reflexivity.
Qed.

Lemma runPm2_restart nm w :
  pm2Online w = true → existsb (named nm) (pm2List w) = true →
  runPm2 (PmRestart nm) w
  = (Ok (Text EmptyString),
     setPm2List (setStatus nm "online" (pm2List w)) (record (execEvent (PmRestart nm)) w)).
Proof. intros H E. unfold runPm2, pm2Step. simpl. rewrite H, E. reflexivity. Qed.

Lemma runPm2_delete nm w :
  pm2Online w = true → existsb (named nm) (pm2List w) = true →
  runPm2 (PmDelete nm) w
  = (Ok (Text EmptyString),
     setPm2List (filter (fun p => named nm p = false) (pm2List w))
       (record (execEvent (PmDelete nm)) w)).
Proof. intros H E. unfold runPm2, pm2Step. simpl. rewrite H, E. reflexivity. Qed.

Lemma runPm2_missing c nm w :
  c = PmRestart nm ∨ c = PmDelete nm ∨ c = PmStop nm →
  existsb (named nm) (pm2List w) = false →
  runPm2 c w = (Throw "Command failed", record (execEvent c) w).
Proof.
  intros Hc E. unfold runPm2, pm2Step.
  destruct Hc as [->|[->| ->]]; simpl; destruct (pm2Online w); simpl;
    rewrite ?E; reflexivity.
Qed.

Lemma getPm2ProcessInfo_eq nm w :
  getPm2ProcessInfo nm w = (Ok (liveDescriptor nm w), record (execEvent PmJlist) w).
Proof.
  unfold getPm2ProcessInfo, liveDescriptor, tryCatch, bind, runPm2, pm2Step. simpl.
  destruct (pm2Online w); reflexivity.
Qed.

(** What the reconciler's query returns is the first descriptor of the
    name in the supervisor's answer, and nothing when there is no
    answer. *)
Lemma reported_is_live nm w :
  fst (getPm2ProcessInfo nm w) = Ok (liveDescriptor nm w).
Proof. rewrite getPm2ProcessInfo_eq. reflexivity. Qed.

Lemma find_existsb {A} (f : A → bool) l : find f l = None ↔ existsb f l = false.
Proof.
  induction l as [|a l IH]; simpl; [tauto|].
  destruct (f a); simpl; [split; discriminate | exact IH].
Qed.

Lemma find_some_existsb {A} (f : A → bool) l x : find f l = Some x → existsb f l = true.
Proof.
  intros H. destruct (existsb f l) eqn:E; [reflexivity|].
  apply find_existsb in E. congruence.
Qed.

Lemma existsb_deleted nm l :
  existsb (named nm) (filter (fun p => named nm p = false) l) = false.
Proof.
  induction l as [|p l IH]; [reflexivity|].
  rewrite filter_cons. destruct (decide (named nm p = false)) as [E|E]; simpl.
  - rewrite E. exact IH.
  - exact IH.
Qed.

(** [deletePm2Process] never throws and leaves one command in the journal;
    afterwards the supervisor, if it answers, has no descriptor of that
    name. *)
Lemma deletePm2Process_eq nm w :
  ∃ l,
    deletePm2Process nm w
    = (Ok tt, setPm2List l (record (execEvent (PmDelete nm)) w))
    ∧ (pm2Online w = true → existsb (named nm) l = false)
    ∧ l = (if pm2Online w then filter (fun p => named nm p = false) (pm2List w)
           else pm2List w).
Proof.
  unfold deletePm2Process, tryCatch, bind.
  destruct (pm2Online w) eqn:Hon.
  - destruct (existsb (named nm) (pm2List w)) eqn:E.
    + rewrite runPm2_delete by assumption. eexists. split; [reflexivity|].
      split; [|reflexivity]. intros _. apply existsb_deleted.
    + rewrite (runPm2_missing _ nm) by auto.
      exists (pm2List w). split; [destruct w; reflexivity|].
      split; [intros _; exact E|].
      induction (pm2List w) as [|p l IH]; [reflexivity|].
      simpl in E. apply orb_false_iff in E as [E1 E2].
      rewrite filter_cons. destruct (decide (named nm p = false)); [|contradiction].
      f_equal. apply IH, E2.
  - rewrite runPm2_offline by assumption.
    exists (pm2List w). split; [destruct w; reflexivity|].
    split; [discriminate | reflexivity].
Qed.

Lemma liveDescriptor_some nm w p :
  liveDescriptor nm w = Some p →
  pm2Online w = true ∧ ∃ n, nm = Some n ∧ existsb (named n) (pm2List w) = true.
Proof.
  unfold liveDescriptor. destruct (pm2Online w); [|discriminate].
  intros H. split; [reflexivity|].
  destruct nm as [n|].
  - exists n. split; [reflexivity|]. eapply find_some_existsb. exact H.
  - exfalso. induction (pm2List w); simpl in H; [discriminate|auto].
Qed.

(** The reconciler, outcome by outcome: what it returns, what it appends to
    the journal and what process table it leaves. *)
Lemma startPm2Process_summary config w :
  let r := startPm2Process config w in
  let nm := Js.interp (name config) in
  let outcome := if creates config w then Ok tt else Throw "Command failed" in
  match liveDescriptor (name config) w with
  | None =>
      fst r = outcome
      ∧ journal (snd r) = journal w ++ [execEvent PmJlist; execEvent (PmStart config)]
      ∧ pm2List (snd r) = pm2List w ++ additions config w
  | Some p =>
      fst r = (if statusIs "online" p || statusIs "stopped" p then Ok tt else outcome) ∧
      if statusIs "online" p then
        journal (snd r) = journal w ++ [execEvent PmJlist]
        ∧ pm2List (snd r) = pm2List w
      else if statusIs "stopped" p then
        journal (snd r) = journal w ++ [execEvent PmJlist; execEvent (PmRestart nm)]
        ∧ pm2List (snd r) = setStatus nm "online" (pm2List w)
      else
        journal (snd r)
        = journal w ++ [execEvent PmJlist; execEvent (PmDelete nm); execEvent (PmStart config)]
        ∧ pm2List (snd r)
          = filter (fun q => named nm q = false) (pm2List w) ++ additions config w
  end.
Proof.
  intros r nm outcome.
  set (create := bind (runPm2 (PmStart config)) (fun _ => ret tt)).
  assert (E : r =
    match liveDescriptor (name config) w with
    | Some p =>
        match p_status p with
        | Some status =>
            if String.eqb status "online" then ret tt
            else if String.eqb status "stopped" then restartPm2Process nm
            else bind (deletePm2Process nm) (fun _ => create)
        | None => bind (deletePm2Process nm) (fun _ => create)
        end
    | None => create
    end (record (execEvent PmJlist) w)).
  { subst r. unfold startPm2Process. unfold bind at 1.
    rewrite getPm2ProcessInfo_eq. reflexivity. }
  clearbody r. subst r.
  set (w1 := record (execEvent PmJlist) w).
  assert (Hcreate : ∀ v,
            pm2Online v = pm2Online w → dirExists v = dirExists w →
            pm2Launch v = pm2Launch w →
            fst (create v) = outcome
            ∧ journal (snd (create v)) = journal v ++ [execEvent (PmStart config)]
            ∧ pm2List (snd (create v)) = pm2List v ++ additions config w).
  { intros v H1 H2 H3. subst create. unfold bind. rewrite runPm2_start.
    assert (Hc : creates config v = creates config w).
    { unfold creates, spawnable. rewrite H1, H2, H3. reflexivity. }
    assert (Ha : additions config v = additions config w).
    { unfold additions. rewrite Hc, H3. reflexivity. }
    rewrite Hc, Ha. subst outcome. destruct (creates config w); simpl; auto. }
  destruct (liveDescriptor (name config) w) as [p|] eqn:Hd.
  - apply liveDescriptor_some in Hd as [Hon (n & Hn & Hex)].
    assert (Hnm : nm = n) by (subst nm; rewrite Hn; reflexivity).
    rewrite Hnm. clear Hnm nm.
    assert (Hother :
      let r := bind (deletePm2Process n) (fun _ => create) w1 in
      fst r = outcome
      ∧ journal (snd r)
        = journal w ++ [execEvent PmJlist; execEvent (PmDelete n); execEvent (PmStart config)]
      ∧ pm2List (snd r)
        = filter (fun q => named n q = false) (pm2List w) ++ additions config w).
    { cbv zeta. destruct (deletePm2Process_eq n w1) as (l & Ed & _ & Hl).
      rewrite (bind_ok _ _ _ _ _ Ed).
      change (pm2Online w1) with (pm2Online w) in Hl. rewrite Hon in Hl.
      change (pm2List w1) with (pm2List w) in Hl.
      destruct (Hcreate (setPm2List l (record (execEvent (PmDelete n)) w1)))
        as (H1 & H2 & H3); try reflexivity.
      rewrite H1, H2, H3. subst l. simpl. rewrite <- !app_assoc. auto. }
    unfold statusIs. destruct (p_status p) as [status|].
    + destruct (String.eqb status "online").
      * simpl. auto.
      * destruct (String.eqb status "stopped").
        -- unfold restartPm2Process, bind, ret. rewrite runPm2_restart by assumption.
           simpl. rewrite <- !app_assoc. auto.
        -- destruct Hother as (H1 & H2 & H3). simpl. auto.
    + destruct Hother as (H1 & H2 & H3). simpl. auto.
  - destruct (Hcreate w1) as (H1 & H2 & H3); try reflexivity.
    rewrite H1, H2, H3. simpl. rewrite <- !app_assoc. auto.
Qed.

(** ** The creation command, and at most one descriptor per name *)

Lemma map_default_Some (l : list string) : map (default EmptyString) (map Some l) = l.
Proof. induction l as [|x l IH]; [reflexivity|]. simpl. rewrite IH. reflexivity. Qed.

(** The command the reconciler joins from its parts is the text
    [creationText] spells out. *)
Lemma creation_command config : commandLine (PmStart config) = creationText config.
Proof.
  unfold commandLine, Js.join, startParts, creationText.
  destruct (interpreter config) as [i|]; simpl Js.truthyStr;
    [destruct (negb (String.eqb i EmptyString))|];
    (destruct (cwd config) as [d|]; simpl Js.truthyStr;
       [destruct (negb (String.eqb d EmptyString))|]);
    (destruct (instances config) as [n|]; [destruct (0 <? n)|]);
    (destruct (watch config) as [[]|]);
    (destruct (autorestart config) as [[]|]);
    (destruct (args config) as [[|a rest]|]);
    cbn [app map default from_option id]; rewrite ?map_default_Some;
    cbn [String.concat String.append]; rewrite ?append_empty_r; reflexivity.
Qed.

Lemma liveCount_app n l1 l2 w1 w2 w :
  pm2List w = l1 ++ l2 → pm2List w1 = l1 → pm2List w2 = l2 →
  liveCount n w = (liveCount n w1 + liveCount n w2)%nat.
Proof.
  unfold liveCount. intros -> -> ->. rewrite filter_app, length_app. reflexivity.
Qed.

Lemma count_setStatus n nm status l :
  length (filter (fun p => named n p = true) (setStatus nm status l))
  = length (filter (fun p => named n p = true) l).
Proof.
  induction l as [|p l IH]; [reflexivity|].
  unfold setStatus in *. simpl. rewrite !filter_cons.
  assert (E : named n (if named nm p then mkProc (p_name p) (Some status) else p) = named n p)
    by (destruct (named nm p); reflexivity).
  rewrite E. destruct (decide (named n p = true)); simpl; rewrite IH; reflexivity.
Qed.

Lemma count_deleted_same nm l :
  length (filter (fun p => named nm p = true) (filter (fun p => named nm p = false) l)) = 0%nat.
Proof.
  induction l as [|p l IH]; [reflexivity|].
  rewrite (filter_cons (fun p => named nm p = false)).
  destruct (decide (named nm p = false)) as [E|E]; [|exact IH].
  rewrite filter_cons. destruct (decide (named nm p = true)); [congruence | exact IH].
Qed.

Lemma count_deleted_le n nm l :
  (length (filter (fun p => named n p = true) (filter (fun p => named nm p = false) l))
   ≤ length (filter (fun p => named n p = true) l))%nat.
Proof.
  induction l as [|p l IH]; [reflexivity|].
  rewrite (filter_cons (fun p => named nm p = false)).
  destruct (decide (named nm p = false)) as [E|E].
  - rewrite !filter_cons. destruct (decide (named n p = true)); simpl; lia.
  - rewrite filter_cons. destruct (decide (named n p = true)); simpl; lia.
Qed.

Lemma count_none nm l :
  find (named nm) l = None → length (filter (fun p => named nm p = true) l) = 0%nat.
Proof.
  induction l as [|p l IH]; [reflexivity|]. simpl.
  destruct (named nm p) eqn:E; [discriminate|].
  intros H. rewrite filter_cons. destruct (decide (named nm p = true)); [congruence | auto].
Qed.

(** The descriptors a creation command adds all carry the name of the
    config, and there are as many as the command asks instances for. *)
Lemma count_launched n config status :
  length (filter (fun p => named n p = true) (launched config status))
  = (if String.eqb (default EmptyString (name config)) n then instanceCount config else 0)%nat.
Proof.
  unfold launched. induction (instanceCount config) as [|k IH].
  - simpl. destruct (String.eqb _ n); reflexivity.
  - simpl. rewrite filter_cons.
    destruct (decide (named n (mkProc (default EmptyString (name config)) (Some status)) = true))
      as [E|E]; unfold named in E; simpl in E.
    + rewrite E in *. simpl. rewrite IH. reflexivity.
    + destruct (String.eqb (default EmptyString (name config)) n); [congruence | exact IH].
Qed.

Lemma count_additions n config w :
  (length (filter (fun p => named n p = true) (additions config w))
   ≤ if String.eqb (default EmptyString (name config)) n then instanceCount config else 0)%nat.
Proof.
  unfold additions. destruct (creates config w).
  - rewrite count_launched. reflexivity.
  - simpl. lia.
Qed.

Lemma named_inj n nm p : named n p = true → named nm p = true → n = nm.
Proof.
  unfold named. intros H1 H2.
  apply String.eqb_eq in H1. apply String.eqb_eq in H2. congruence.
Qed.




(** ** Starting a name that is not registered *)

(** A name that [managedProcesses] has no property for, own or inherited:
    the handler throws before anything else happens. *)
Lemma start_unknown_name lf nm w :
  getProperty (registryOf w) nm = None →
  startManagedProcess lf nm w
  = (Throw ("Server '" +:+ nm +:+ "' is not registered. Use register-managed-process first."),
     setServerState (registryOf w) w).
Proof.
  intros H. unfold startManagedProcess, bind, loadState, modify, gets. simpl.
  fold (registryOf w). rewrite H. reflexivity.
Qed.

(** A name that is not registered but that [Object.prototype] has a
    property for passes the guard, and the supervisor is asked. *)
Lemma start_inherited_name lf nm w :
  registryOf w !! nm = None → nm ∈ objectPrototypeKeys →
  Extends (journal w ++ [execEvent PmJlist]) (snd (startManagedProcess lf nm w)).
Proof.
  intros Hreg Hin. unfold startManagedProcess.
  rewrite (bind_ok loadState _ w tt (setServerState (registryOf w) w)) by reflexivity.
  set (w0 := setServerState (registryOf w) w).
  rewrite (bind_ok (gets serverState) _ w0 (registryOf w) w0) by reflexivity.
  unfold getProperty. rewrite Hreg. rewrite bool_decide_eq_true_2 by exact Hin.
  set (config := viewSlot (Inherited nm)).
  assert (Hj : Extends (journal w ++ [execEvent PmJlist]) (snd (startPm2Process config w0))).
  { pose proof (startPm2Process_summary config w0) as S. cbv zeta in S.
    destruct (liveDescriptor (name config) w0) as [p|].
    - destruct S as [_ S].
      destruct (statusIs "online" p); [|destruct (statusIs "stopped" p)];
        destruct S as [Hj _]; unfold Extends; rewrite Hj; simpl;
        eexists; rewrite <- app_assoc; reflexivity.
    - destruct S as (_ & Hj & _). unfold Extends. rewrite Hj. simpl.
      eexists. rewrite <- app_assoc. reflexivity. }
  destruct (startPm2Process config w0) as [[[]|e] w1] eqn:E; simpl in Hj.
  - rewrite (bind_ok _ _ _ _ _ E). revert Hj.
    apply (preserves_bind (Extends (journal w ++ [execEvent PmJlist]))); intros;
      auto 10 with preserves extends.
  - rewrite (bind_throw _ _ _ _ _ E). exact Hj.
Qed.

(** C3 (the code departs from it). With nothing registered, a start of
    the name ["constructor"] does not throw: the lookup yields the
    inherited function [Object], so the handler asks the supervisor for its
    process list, issues a creation command without a script under the
    name ["Object"], and reports success. *)
Theorem start_constructor_not_rejected :
  let r := startManagedProcess (fun _ => []) "constructor" bootWorld in
  registryOf bootWorld !! "constructor"%string = None
  ∧ fst r = Ok "Server 'constructor' started"%string
  ∧ commandsOf (journal (snd r))
    = ["pm2 jlist"; "pm2 start  --name Object --no-autorestart";
       "pm2 logs constructor --lines 100 --nostream"]%string
  ∧ map p_name (pm2List (snd r)) = ["Object"%string].
Proof. vm_compute. repeat split; reflexivity. Qed.

(** ** Delete *)

(** C8. Whatever the name, registered or not, known to the supervisor or
    not, and whether the supervisor answers or not, the delete handler
    returns normally; the only command it issues is [pm2 delete nm] (when
    asked to remove the live process), whose failure it swallows; and
    afterwards neither the registry in memory nor the one in the state file
    has an entry under that name, all other entries being as the state
    file had them. *)
Theorem delete_is_idempotent nm deleteFromPm2 w :
  let r := deleteManagedProcess nm deleteFromPm2 w in
  fst r = Ok ("Server '" +:+ nm +:+ "' deleted"
               +:+ (if deleteFromPm2 then " and stopped" else ""))%string
  ∧ stateFile (snd r) = Some (delete nm (registryOf w))
  ∧ serverState (snd r) = delete nm (registryOf w)
  ∧ registryOf (snd r) !! nm = None
  ∧ (∀ k, k ≠ nm → registryOf (snd r) !! k = registryOf w !! k)
  ∧ commandsOf (journal (snd r))
    = commandsOf (journal w)
      ++ (if deleteFromPm2 then ["pm2 delete " +:+ nm]%string else []).
Proof.
  cbv zeta. unfold deleteManagedProcess.
  rewrite (bind_ok loadState _ w tt (setServerState (registryOf w) w)) by reflexivity.
  set (w0 := setServerState (registryOf w) w).
  assert (H : ∃ w1,
            (if deleteFromPm2 then deletePm2Process nm else ret tt) w0 = (Ok tt, w1)
            ∧ memory w1 = memory w0
            ∧ commandsOf (journal w1)
              = commandsOf (journal w)
                ++ (if deleteFromPm2 then ["pm2 delete " +:+ nm]%string else [])).
  { destruct deleteFromPm2.
    - destruct (deletePm2Process_eq nm w0) as (l & E & _). rewrite E.
      eexists. split; [reflexivity|]. split; [reflexivity|].
      simpl. unfold commandsOf. rewrite omap_app. reflexivity.
    - exists w0. split; [reflexivity|]. split; [reflexivity|].
      simpl. rewrite app_nil_r. reflexivity. }
  destruct H as (w1 & E & Hm & Hc). rewrite (bind_ok _ _ _ _ _ E).
  unfold memory in Hm. inversion Hm as [[Hs Hf Hb Hh]].
  unfold bind, modify, persistState, ret. simpl. unfold registryOf at 1 2. simpl.
  rewrite Hs. simpl.
  repeat split.
  - apply lookup_delete_eq.
  - intros k Hk. apply lookup_delete_ne. congruence.
  - unfold commandsOf in *. rewrite omap_app. simpl. rewrite app_nil_r. exact Hc.
Qed.

(** ** The autorestart flag *)

Lemma withAutorestart_same c : withAutorestart (autorestart c) c = c.
Proof. destruct c. reflexivity. Qed.

(** C7. The parts of the creation command are the options other than
    autorestart, then the autorestart flag, then the script arguments
    behind [--]; neither the options nor the arguments depend on the
    [autorestart] field, and the flag is [--no-autorestart] when the field
    is absent or false and nothing when it is true.  So the command of a
    config carries the flag whenever [autorestart] is not explicitly true,
    and with [autorestart] true it is the same command with the flag left
    out. *)
Theorem no_autorestart_unless_enabled config :
  let flag (a : option bool) :=
    match a with
    | Some true => []
    | _ => [Some "--no-autorestart"%string]
    end in
  let arguments :=
    match args config with
    | Some (a :: rest) => Some "--"%string :: map Some (a :: rest)
    | _ => []
    end in
  let options := startParts (withArgs None (withAutorestart (Some true) config)) in
  (∀ a, startParts (withAutorestart a config) = options ++ flag a ++ arguments)
  ∧ startParts config = options ++ flag (autorestart config) ++ arguments
  ∧ (flag (autorestart config) = [] ↔ autorestart config = Some true)
  ∧ (autorestart config ≠ Some true →
     Some "--no-autorestart"%string ∈ startParts config)
  ∧ commandLine (PmStart config) = Js.join " " (startParts config).
Proof.
  intros flag arguments options.
  assert (H : ∀ a, startParts (withAutorestart a config) = options ++ flag a ++ arguments).
  { intros a. subst flag arguments options.
    unfold startParts, withAutorestart, withArgs. simpl.
    destruct a as [[]|]; destruct (args config) as [[|x rest]|];
      simpl; rewrite ?app_nil_r; try rewrite <- app_assoc; reflexivity. }
  split; [exact H|].
  assert (H' : startParts config = options ++ flag (autorestart config) ++ arguments).
  { rewrite <- H, withAutorestart_same. reflexivity. }
  split; [exact H'|]. split; [|split; [|reflexivity]].
  - subst flag. simpl. destruct (autorestart config) as [[]|]; split; congruence.
  - intros Hne. rewrite H'. subst flag. simpl.
    destruct (autorestart config) as [[]|]; [congruence| |];
      rewrite !elem_of_app; right; left; apply list_elem_of_here.
Qed.

Lemma no_autorestart_unless_enabled_witness :
  autorestart webConfig ≠ Some true
  ∧ Some "--no-autorestart"%string ∈ startParts webConfig.
Proof.
  split; [discriminate|].
  destruct (no_autorestart_unless_enabled webConfig) as (_ & _ & _ & H & _).
  apply H. discriminate.
Defined.

(** ** Update *)

Lemma startPm2Process_memory config w :
  memory (snd (startPm2Process config w)) = memory w.
Proof.
  apply (preserves_startPm2Process (fun w' => memory w' = memory w)); [|reflexivity].
  apply ofMemory_stable. intros w1 w2 E H. congruence.
Qed.

Lemma commandsOf_app l1 l2 : commandsOf (l1 ++ l2) = commandsOf l1 ++ commandsOf l2.
Proof. unfold commandsOf. apply omap_app. Qed.

Lemma persistsOf_app l1 l2 : persistsOf (l1 ++ l2) = persistsOf l1 ++ persistsOf l2.
Proof. unfold persistsOf. apply omap_app. Qed.

(** Deleting and then starting: the reconciler finds nothing under the
    name and creates the process. *)
Lemma delete_then_start config nm w :
  name config = Some nm →
  let r := bind (deletePm2Process nm) (fun _ => startPm2Process config) w in
  memory (snd r) = memory w
  ∧ journal (snd r)
    = journal w ++ [execEvent (PmDelete nm); execEvent PmJlist; execEvent (PmStart config)]
  ∧ fst r = (if creates config w then Ok tt else Throw "Command failed")
  ∧ pm2List (snd r)
    = (if pm2Online w
       then filter (fun p => named nm p = false) (pm2List w)
       else pm2List w) ++ additions config w.
Proof.
  intros Hname r. subst r.
  destruct (deletePm2Process_eq nm w) as (l & E & Hl & Hl').
  rewrite (bind_ok _ _ _ _ _ E).
  set (w1 := setPm2List l (record (execEvent (PmDelete nm)) w)).
  pose proof (startPm2Process_summary config w1) as S. cbv zeta in S.
  pose proof (startPm2Process_memory config w1) as Hm.
  assert (Hd : liveDescriptor (name config) w1 = None).
  { unfold liveDescriptor. simpl. destruct (pm2Online w) eqn:Hon; [|reflexivity].
    rewrite Hname. apply find_existsb. apply Hl. reflexivity. }
  rewrite Hd in S. destruct S as (H1 & H2 & H3).
  split; [rewrite Hm; reflexivity|].
  split; [rewrite H2; simpl; rewrite <- app_assoc; reflexivity|].
  split; [exact H1|].
  rewrite H3. simpl. rewrite Hl'. reflexivity.
Qed.





(** ** Who writes [logOffset] *)

Lemma fresh_read_advances_the_offset :
  ¬ Claimed.offsetWrittenOnlyByStartAndRestart.
Proof.
  intros H.
  specialize (H (fun _ => []) (fun s => s)
                (ReadLogs "web" 50 StreamAll true) "web"%string
                (worldWith {[ "web"%string := withLogOffset (Some 0) webConfig ]} []
                           {[ "/home/dev/.pm2/logs/web-out.log"%string := "ready"%string ]})
                (withLogOffset (Some 0) webConfig)
                (withLogOffset (Some 5) webConfig)
                eq_refl eq_refl eq_refl).
  discriminate H.
Qed.

Lemma offsetIs_ofMemory k o : OfMemory (offsetIs k o).
Proof.
  intros w w' Hm. unfold memory in Hm.
  assert (Hs : serverState w = serverState w') by congruence.
  assert (Hf : stateFile w = stateFile w') by congruence.
  unfold offsetIs, registryOf. rewrite Hs, Hf. auto.
Qed.

Lemma offsetIs_persistState k o : Preserves (offsetIs k o) persistState.
Proof. intros w [Hs _]. split; exact Hs. Qed.

Lemma offsetIs_statSize k o path : Preserves (offsetIs k o) (statSize path).
Proof. intros w H. unfold statSize. destruct (logFiles w !! path); exact H. Qed.

Lemma offsetIs_readAt k o path pos len : Preserves (offsetIs k o) (readAt path pos len).
Proof.
  intros w H. unfold readAt.
  destruct (logFiles w !! path); [destruct (pos <? -1)|]; exact H.
Qed.

Lemma offsetIs_assign_other k o nm v :
  nm ≠ k → Preserves (offsetIs k o) (assignLogOffset nm v).
Proof.
  intros Hne w [Hs Hf]. unfold assignLogOffset.
  destruct (getProperty (serverState w) nm) as [[c|key]|]; simpl; split; auto.
  intros c'. simpl. rewrite lookup_insert_ne by exact Hne. apply Hs.
Qed.

Lemma offsetIs_setProperty k o nm c :
  nm ≠ k ∨ logOffset c = o →
  Preserves (offsetIs k o)
    (modify (fun w => setServerState (setProperty nm c (serverState w)) w)).
Proof.
  intros Hc. apply preserves_modify. intros w [Hs Hf]. split; [|exact Hf].
  intros c'. simpl. unfold setProperty.
  assert (Hins : <[nm := c]> (serverState w) !! k = Some c' → logOffset c' = o).
  { destruct (decide (nm = k)) as [->|Hne].
    - rewrite lookup_insert_eq. destruct Hc as [Hc|Hc]; [congruence|]. congruence.
    - rewrite lookup_insert_ne by exact Hne. apply Hs. }
  destruct (serverState w !! nm); [exact Hins|].
  destruct (String.eqb nm "__proto__"); [apply Hs | exact Hins].
Qed.

Lemma offsetIs_delete k o nm :
  Preserves (offsetIs k o) (modify (fun w => setServerState (delete nm (serverState w)) w)).
Proof.
  apply preserves_modify. intros w [Hs Hf]. split; [|exact Hf].
  intros c'. simpl. destruct (decide (nm = k)) as [->|Hne].
  - rewrite lookup_delete_eq. discriminate.
  - rewrite lookup_delete_ne by exact Hne. apply Hs.
Qed.

#[local] Hint Resolve offsetIs_ofMemory offsetIs_persistState offsetIs_statSize
  offsetIs_readAt offsetIs_delete : preserves.

(** A handler that begins with [loadState] works on the registry of the
    state file. *)
Lemma after_loadState {A} k o (rest : M A) w c :
  registryOf w !! k = Some c → logOffset c = o →
  Preserves (offsetIs k o) rest →
  offsetIs k o (snd (bind loadState (fun _ => rest) w)).
Proof.
  intros Hc Ho Hrest.
  rewrite (bind_ok loadState _ w tt (setServerState (registryOf w) w)) by reflexivity.
  apply Hrest. split; simpl; intros c' Hc'.
  - congruence.
  - unfold registryOf in *. simpl in Hc'. congruence.
Qed.

Lemma neq_of_eqb a b : String.eqb a b = false → a ≠ b.
Proof. intros H. apply String.eqb_neq. exact H. Qed.

Lemma preserves_apply {A} (P : World → Prop) (m : M A) w :
  Preserves P m → P w → P (snd (m w)).
Proof. intros H. apply H. Qed.

(** C6, as the code has it. The [logOffset] of a registry entry is left
    as it was by every request except a start or a restart of its name, a
    fresh-only log read of its name (which advances it) and a registration
    under its name (which replaces the entry): if the entry is still there
    after the request, its [logOffset] is the one the state file had
    before. *)
Theorem logOffset_frame lf sp r k w c c' :
  writesOffset r k = false →
  registryOf w !! k = Some c →
  registryOf (serve lf sp r w) !! k = Some c' →
  logOffset c' = logOffset c.
Proof.
  intros Hr Hc Hc'.
  set (o := logOffset c).
  set (Q := fun v : World => ∀ c0, registryOf v !! k = Some c0 → logOffset c0 = o).
  cut (Q (serve lf sp r w)); [intros H; apply H, Hc'|]. clear Hc' c'.
  assert (HQ : OfMemory Q).
  { intros v v' Hm. unfold memory in Hm.
    assert (Hf : stateFile v = stateFile v') by congruence.
    unfold Q, registryOf. rewrite Hf. auto. }
  assert (HQw : Q w) by (intros c0 H0; unfold o; congruence).
  assert (Hload : ∀ {A} (rest : M A),
            Preserves (offsetIs k o) rest → Q (snd (bind loadState (fun _ => rest) w))).
  { intros A rest Hrest.
    destruct (after_loadState k o rest w c Hc eq_refl Hrest) as [_ H]. exact H. }
  destruct r; simpl in Hr |- *.
  - apply Hload. auto 10 with preserves.
  - apply neq_of_eqb in Hr. apply Hload.
    apply preserves_bind; [apply offsetIs_setProperty; auto|]. intros _.
    auto 10 with preserves.
  - unfold updateManagedProcess.
    rewrite (bind_ok loadState _ w tt (setServerState (registryOf w) w)) by reflexivity.
    set (w0 := setServerState (registryOf w) w).
    rewrite (bind_ok (gets serverState) _ w0 (registryOf w) w0) by reflexivity.
    assert (H0 : offsetIs k o w0).
    { split; simpl; intros c0 H0; unfold o; [|unfold registryOf in *; simpl in H0]; congruence. }
    assert (Hset : ∀ existing,
              getProperty (registryOf w) nm = Some existing →
              nm ≠ k ∨ logOffset (mergeConfig (spreadSlot existing) updates nm) = o).
    { intros existing He. destruct (decide (nm = k)) as [->|Hne]; [right|left; exact Hne].
      unfold getProperty in He. rewrite Hc in He. inversion He. reflexivity. }
    destruct (getProperty (registryOf w) nm) as [existing|]; [|exact (proj2 H0)].
    specialize (Hset existing eq_refl).
    cut (offsetIs k o
           (snd (bind
                   (modify (fun v => setServerState
                      (setProperty nm (mergeConfig (spreadSlot existing) updates nm)
                         (serverState v)) v))
                   (fun _ =>
                    bind persistState (fun _ =>
                    bind (if applyToPm2
                          then bind (deletePm2Process nm) (fun _ =>
                                 startPm2Process (mergeConfig (spreadSlot existing) updates nm))
                          else ret tt) (fun _ =>
                    ret ("Server '" +:+ nm +:+ "' updated"
                         +:+ (if applyToPm2 then " and restarted with new settings" else ""))%string)))
                   w0))); [intros [_ H]; exact H|].
    apply (preserves_apply (offsetIs k o)); [|exact H0].
    apply preserves_bind; [apply offsetIs_setProperty; exact Hset|]. intros _.
    auto 10 with preserves.
  - apply neq_of_eqb in Hr. apply Hload.
    apply preserves_bind; [auto with preserves|]. intros reg.
    destruct (getProperty reg nm); [|auto with preserves].
    pose proof (offsetIs_assign_other k o nm) as Ha.
    auto 15 with preserves.
  - apply (preserves_apply Q (stopManagedProcess nm)); [|exact HQw].
    unfold stopManagedProcess. auto 10 with preserves.
  - apply neq_of_eqb in Hr. apply Hload.
    do 2 (apply preserves_bind; [auto 10 with preserves|]; intros _).
    apply preserves_bind; [|auto with preserves].
    apply preserves_tryCatch; [|auto with preserves].
    apply preserves_bind; [auto with preserves|]. intros home.
    apply preserves_bind; [auto with preserves|]. intros size.
    apply preserves_bind; [auto with preserves|]. intros reg.
    pose proof (offsetIs_assign_other k o nm) as Ha.
    destruct (getProperty reg nm); auto 10 with preserves.
  - apply Hload. auto 10 with preserves.
  - apply (preserves_apply Q (describeManagedProcess nm)); [|exact HQw].
    unfold describeManagedProcess, describePm2Process. auto 10 with preserves.
  - apply Hload.
    apply preserves_bind; [auto with preserves|]. intros recorded.
    apply preserves_bind.
    + destruct freshOnly; [|auto with preserves].
      apply neq_of_eqb in Hr.
      pose proof (offsetIs_assign_other k o nm) as Ha.
      destruct recorded; [|auto with preserves].
      apply preserves_tryCatch; [|auto with preserves].
      apply preserves_bind; [auto with preserves|]. intros home.
      apply preserves_bind; [auto with preserves|]. intros size.
      destruct (0 <? size - z); auto 10 with preserves.
    + intros [text fresh]. simpl. destruct fresh; auto 10 with preserves.
  - apply (preserves_apply Q (getPm2Status processName)); [|exact HQw].
    unfold getPm2Status. auto 10 with preserves.
Qed.

Lemma logOffset_frame_witness :
  let w := worldWith {[ "web"%string := withLogOffset (Some 7) webConfig ]} [] ∅ in
  let r := Update "web" noUpdates false in
  writesOffset r "web" = false
  ∧ registryOf w !! "web"%string = Some (withLogOffset (Some 7) webConfig)
  ∧ ∃ c', registryOf (serve (fun _ => []) (fun s => s) r w) !! "web"%string = Some c'
          ∧ logOffset c' = Some 7.
Proof.
  intros w r. split; [reflexivity|]. split; [reflexivity|].
  eexists. split; [reflexivity|].
  apply (logOffset_frame (fun _ => []) (fun s => s) r "web"%string w
           (withLogOffset (Some 7) webConfig)); reflexivity.
Defined.

(** ** Fresh-only log reads *)

Lemma length_substring a n s :
  (a + n ≤ String.length s)%nat → String.length (substring a n s) = n.
Proof.
  revert a n. induction s as [|ch s IH]; intros a n H; simpl in H.
  - assert (a = 0%nat) by lia. assert (n = 0%nat) by lia. subst. reflexivity.
  - destruct a as [|a]; destruct n as [|n]; simpl; try reflexivity.
    + f_equal. apply IH. lia.
    + apply (IH a 0%nat). lia.
    + apply IH. lia.
Qed.

Lemma substring_append a n s t :
  (a + n ≤ String.length s)%nat → substring a n (s +:+ t) = substring a n s.
Proof.
  revert a n. induction s as [|ch s IH]; intros a n H; simpl in H.
  - assert (a = 0%nat) by lia. assert (n = 0%nat) by lia. subst.
    simpl. destruct t; reflexivity.
  - destruct a as [|a]; destruct n as [|n]; simpl; try reflexivity.
    + f_equal. apply IH. lia.
    + apply (IH a 0%nat). lia.
    + apply IH. lia.
Qed.

Lemma substring_split a n m s :
  (a + n ≤ String.length s)%nat →
  substring a (n + m) s = substring a n s +:+ substring (a + n) m s.
Proof.
  revert a n. induction s as [|ch s IH]; intros a n H; simpl in H.
  - assert (a = 0%nat) by lia. assert (n = 0%nat) by lia. subst. reflexivity.
  - destruct a as [|a].
    + destruct n as [|n]; [reflexivity|]. simpl. f_equal.
      rewrite (IH 0%nat n) by lia. reflexivity.
    + simpl. apply IH. lia.
Qed.

(** Text of bytes below 128 decodes to itself. *)
Lemma decode_ascii s : Utf8.isAscii s = true → Utf8.decode s = s.
Proof.
  unfold Utf8.isAscii, Utf8.decode. induction s as [|c s IH]; [reflexivity|].
  simpl. intros H. apply andb_true_iff in H as [Hc Hs].
  unfold Utf8.lead. cbv zeta. rewrite Hc. rewrite (IH Hs). reflexivity.
Qed.

(** A read that the file covers fills the whole buffer. *)
Lemma fillBuffer_full from len content :
  (from + len ≤ String.length content)%nat →
  fillBuffer from len content = substring from len content.
Proof.
  intros H. unfold fillBuffer. rewrite length_substring by exact H.
  rewrite Nat.sub_diag. apply append_empty_r.
Qed.

(** One fresh-only read of a name with a recorded offset whose log file
    can be opened. *)
Lemma fresh_read_once sp nm lines type w c stored content :
  registryOf w !! nm = Some c →
  logOffset c = Some stored →
  0 ≤ stored →
  logFiles w !! getPm2LogPath (pm2Home w) nm
                  match type with StreamError => true | _ => false end
  = Some content →
  let bytesToRead := Z.of_nat (String.length content) - stored in
  let readSize := Z.min bytesToRead maxBytes in
  let r := readManagedProcessLogs sp nm lines type true w in
  if 0 <? bytesToRead then
    fst r = Ok (Utf8.decode (substring (Z.to_nat stored) (Z.to_nat readSize) content), true)
    ∧ stateFile (snd r)
      = Some (<[nm := withLogOffset (Some (stored + readSize)) c]> (registryOf w))
    ∧ commandsOf (journal (snd r)) = commandsOf (journal w)
    ∧ pm2Home (snd r) = pm2Home w
  else
    fst r = Ok (noNewLogs, true)
    ∧ stateFile (snd r) = stateFile w
    ∧ journal (snd r) = journal w.
Proof.
  intros Hc Ho Hnonneg Hfile bytesToRead readSize r. subst r.
  unfold readManagedProcessLogs.
  rewrite (bind_ok loadState _ w tt (setServerState (registryOf w) w)) by reflexivity.
  set (w0 := setServerState (registryOf w) w).
  assert (Hrec : gets (fun v => readLogOffset v nm) w0 = (Ok (Some stored), w0)).
  { unfold gets, readLogOffset, getProperty. simpl. rewrite Hc. simpl. rewrite Ho. reflexivity. }
  rewrite (bind_ok _ _ _ _ _ Hrec).
  assert (Hstat : statSize (getPm2LogPath (pm2Home w0) nm
                              match type with StreamError => true | _ => false end) w0
                  = (Ok (Z.of_nat (String.length content)), w0)).
  { unfold statSize. simpl. rewrite Hfile. reflexivity. }
  set (path := getPm2LogPath (pm2Home w0) nm
                 match type with StreamError => true | _ => false end) in *.
  fold bytesToRead in Hstat.
  destruct (0 <? bytesToRead) eqn:Hpos.
  - set (reg' := <[nm := withLogOffset (Some (stored + readSize)) c]> (registryOf w)).
    set (w1 := record (EvPersist reg') (setStateFile (Some reg') (setServerState reg' w0))).
    set (text := Utf8.decode (substring (Z.to_nat stored) (Z.to_nat readSize) content)).
    assert (Hmax : 0 < maxBytes) by reflexivity.
    erewrite bind_ok.
    2: { apply tryCatch_ok.
         rewrite (bind_ok (gets pm2Home) _ w0 (pm2Home w0) w0) by reflexivity.
         fold path. rewrite (bind_ok _ _ _ _ _ Hstat).
         fold bytesToRead. rewrite Hpos. fold readSize.
         assert (Hread : readAt path stored readSize w0 = (Ok text, w0)).
         { assert (Hfile0 : logFiles w0 !! path = Some content) by exact Hfile.
           unfold readAt. rewrite Hfile0.
           assert (E1 : (stored <? -1) = false) by lia.
           assert (E2 : (stored =? -1) = false) by lia.
           rewrite E1, E2. rewrite fillBuffer_full; [reflexivity|].
           subst readSize bytesToRead. lia. }
         rewrite (bind_ok _ _ _ _ _ Hread).
         assert (Hassign : assignLogOffset nm (stored + readSize) w0
                           = (Ok tt, setServerState reg' w0)).
         { unfold assignLogOffset, getProperty. simpl. rewrite Hc. reflexivity. }
         rewrite (bind_ok _ _ _ _ _ Hassign).
         rewrite (bind_ok persistState _ (setServerState reg' w0) tt w1) by reflexivity.
         reflexivity. }
    simpl. repeat split.
    rewrite commandsOf_app. simpl. apply app_nil_r.
  - erewrite bind_ok.
    2: { apply tryCatch_ok.
         rewrite (bind_ok (gets pm2Home) _ w0 (pm2Home w0) w0) by reflexivity.
         fold path. rewrite (bind_ok _ _ _ _ _ Hstat).
         fold bytesToRead. rewrite Hpos. reflexivity. }
    simpl. auto.
Qed.



(** A read that begins inside a character returns a replacement character
    in the place of the bytes it was left with: from offset 2 of the four
    bytes of [a], [e] with an acute accent and [b], the text is U+FFFD and
    [b]. *)
Lemma cut_character_is_replaced :
  let content := String "a" (String (ascii_of_N 195) (String (ascii_of_N 169) "b")) in
  let c := withLogOffset (Some 2) webConfig in
  let w := worldWith {[ "web"%string := c ]} []
             {[ "/home/dev/.pm2/logs/web-out.log"%string := content ]} in
  fst (readManagedProcessLogs (fun s => s) "web" 50 StreamAll true w)
  = Ok (Utf8.replacement +:+ "b", true)%string.
Proof. vm_compute. reflexivity. Qed.

(** ** The command line and the shell *)

Lemma command_with_blank_is_resplit :
  ¬ Claimed.argumentsSurviveTheShell.
Proof.
  intros H.
  specialize (H (mkConfig (Some "web") (Some "server.js") (Some "/srv/my app")
                   None None None None None None None)%string).
  vm_compute in H. discriminate H.
Qed.

Lemma plain_not_blank c : Shell.isPlain c = true → Shell.isBlank c = false.
Proof.
  intros Hp. destruct (Shell.isBlank c) eqn:Hb; [|reflexivity].
  unfold Shell.isBlank in Hb.
  apply orb_true_iff in Hb as [Hb|Hb]; [apply orb_true_iff in Hb as [Hb|Hb]|];
    apply Ascii.eqb_eq in Hb; subst c; discriminate Hp.
Qed.

Lemma fields_nonempty s : Shell.fields s ≠ [].
Proof.
  destruct s as [|c s]; simpl; [discriminate|].
  destruct (Shell.isBlank c); [discriminate|].
  destruct (Shell.fields s); discriminate.
Qed.

(** A run of plain characters stays in the first field. *)
Lemma fields_plain_prefix w rest :
  forallb Shell.isPlain (list_ascii_of_string w) = true →
  Shell.fields (w +:+ rest)
  = match Shell.fields rest with
    | f :: fs => (w +:+ f) :: fs
    | [] => [w]
    end.
Proof.
  induction w as [|c w IH]; simpl; intros H.
  - rewrite append_nil_l. destruct (Shell.fields rest) eqn:E; [|reflexivity].
    exfalso. exact (fields_nonempty rest E).
  - apply andb_true_iff in H as [Hc Hw].
    rewrite ?append_cons. simpl.
    rewrite (plain_not_blank c Hc), (IH Hw).
    destruct (Shell.fields rest); reflexivity.
Qed.

Lemma words_cons_plain w rest :
  Shell.plainWord w = true →
  Shell.words (w +:+ String " " rest) = w :: Shell.words rest.
Proof.
  unfold Shell.plainWord, Shell.words. intros H.
  apply andb_true_iff in H as [Hne Hp].
  rewrite (fields_plain_prefix w _ Hp). simpl. rewrite append_empty_r.
  rewrite filter_cons. destruct (decide (w ≠ EmptyString)) as [_|Hw]; [reflexivity|].
  exfalso. apply Hw. intros ->. discriminate Hne.
Qed.

Lemma words_single_plain w :
  Shell.plainWord w = true → Shell.words w = [w].
Proof.
  unfold Shell.plainWord, Shell.words. intros H.
  apply andb_true_iff in H as [Hne Hp].
  pose proof (fields_plain_prefix w EmptyString Hp) as E.
  simpl in E. rewrite !append_empty_r in E. rewrite E.
  rewrite filter_cons, filter_nil. destruct (decide (w ≠ EmptyString)) as [_|Hw]; [reflexivity|].
  exfalso. apply Hw. intros ->. discriminate Hne.
Qed.

(** Joining plain words with single blanks and splitting again gives the
    words back. *)
Lemma words_concat_plain ws :
  Forall (fun w => Shell.plainWord w = true) ws →
  Shell.words (String.concat " " ws) = ws.
Proof.
  induction 1 as [|w ws Hw Hws IH]; [reflexivity|].
  destruct ws as [|w' ws].
  - simpl. apply words_single_plain, Hw.
  - change (String.concat " " (w :: w' :: ws))
      with (w +:+ String " " (String.concat " " (w' :: ws))).
    rewrite (words_cons_plain w _ Hw), IH. reflexivity.
Qed.

(** C9, as the code has it. The creation command is assembled as an array
    of parts, but the array is joined with single blanks into one string,
    and that string is what goes to [exec]; the other supervisor commands
    are template strings with the name interpolated.  The [env] of a
    config travels in the options of [exec] and never in the command
    string, and [cwd] travels in both.  The words the shell splits the
    string into are the intended arguments whenever every part is a
    non-empty string of letters, digits and [- . / _ : @ + , =]. *)
Theorem commands_are_joined_strings config :
  (∀ w, journal (snd (runPm2 (PmStart config) w))
        = journal w
          ++ [EvExec (String.concat " " (map (default EmptyString) (startParts config)))
                (cwd config) (default ∅ (env config))])
  ∧ (∀ e, commandLine (PmStart (withEnv e config)) = commandLine (PmStart config))
  ∧ (Forall (fun part => Shell.plainWord part = true)
       (map (default EmptyString) (startParts config)) →
     Shell.words (commandLine (PmStart config))
     = map (default EmptyString) (startParts config))
  ∧ (∀ nm, Shell.plainWord nm = true →
     Shell.words (commandLine (PmRestart nm)) = ["pm2"; "restart"; nm]%string
     ∧ Shell.words (commandLine (PmDelete nm)) = ["pm2"; "delete"; nm]%string
     ∧ Shell.words (commandLine (PmStop nm)) = ["pm2"; "stop"; nm]%string
     ∧ Shell.words (commandLine (PmFlush nm)) = ["pm2"; "flush"; nm]%string
     ∧ Shell.words (commandLine (PmDescribe nm)) = ["pm2"; "describe"; nm]%string
     ∧ Shell.words (commandLine (PmLogs nm 100 StreamAll))
       = ["pm2"; "logs"; nm; "--lines"; "100"; "--nostream"]%string).
Proof.
  split; [|split; [|split]].
  - intros w.
    destruct (runPm2_cases (PmStart config) w) as [(out & w2 & E & _ & Estep)|[E _]];
      rewrite E; simpl.
    + apply journal_pm2Step in Estep. rewrite Estep. reflexivity.
    + reflexivity.
  - intros e. reflexivity.
  - intros H. apply words_concat_plain, H.
  - intros nm Hnm.
    assert (H3 : ∀ verb, Shell.plainWord verb = true →
              Shell.words ("pm2 " +:+ verb +:+ String " " nm) = ["pm2"%string; verb; nm]).
    { intros verb Hv.
      change ("pm2 " +:+ verb +:+ String " " nm)%string
        with ("pm2" +:+ String " " (verb +:+ String " " nm))%string.
      rewrite words_cons_plain by reflexivity.
      rewrite words_cons_plain by exact Hv.
      rewrite words_single_plain by exact Hnm. reflexivity. }
    repeat split;
      try (apply (H3 "restart"%string eq_refl)); try (apply (H3 "delete"%string eq_refl));
      try (apply (H3 "stop"%string eq_refl)); try (apply (H3 "flush"%string eq_refl));
      try (apply (H3 "describe"%string eq_refl)).
    change (commandLine (PmLogs nm 100 StreamAll))
      with ("pm2" +:+ String " " ("logs" +:+ String " " (nm +:+ " --lines 100 --nostream")))%string.
    rewrite !words_cons_plain by reflexivity.
    rewrite words_cons_plain by exact Hnm. reflexivity.
Qed.

Lemma commands_are_joined_strings_witness :
  Forall (fun part => Shell.plainWord part = true)
    (map (default EmptyString) (startParts webConfig))
  ∧ Shell.words (commandLine (PmStart webConfig))
    = ["pm2"; "start"; "server.js"; "--name"; "web"; "--no-autorestart"]%string.
Proof.
  assert (H : Forall (fun part => Shell.plainWord part = true)
                (map (default EmptyString) (startParts webConfig)))
    by (repeat constructor).
  split; [exact H|].
  destruct (commands_are_joined_strings webConfig) as (_ & _ & Hw & _).
  exact (Hw H).
Defined.

(** ** Endpoint discovery *)

Lemma prefix_spec p s : String.prefix p s = true ↔ ∃ t, s = p +:+ t.
Proof.
  revert s. induction p as [|a p IH]; intros s.
  - split; [intros _; exists s; reflexivity | intros _; destruct s; reflexivity].
  - destruct s as [|b s]; [split; [discriminate | intros [t H]; discriminate H]|].
    simpl. destruct (ascii_dec a b) as [->|Hne].
    + rewrite IH. split; intros [t H]; exists t.
      * rewrite append_cons, <- H. reflexivity.
      * rewrite append_cons in H. congruence.
    + split; [discriminate|]. intros [t H]. rewrite append_cons in H. congruence.
Qed.

(** [includes] is the substring test. *)
Lemma includes_spec needle hay :
  Js.includes needle hay = true ↔ ∃ before after, hay = before +:+ needle +:+ after.
Proof.
  induction hay as [|c hay IH].
  - change (Js.includes needle EmptyString)
      with (String.prefix needle EmptyString || false).
    rewrite orb_false_r, prefix_spec. split.
    + intros [t H]. exists EmptyString, t. exact H.
    + intros ([|b before] & after & H); [exists after; exact H|].
      rewrite append_cons in H. discriminate H.
  - change (Js.includes needle (String c hay))
      with (String.prefix needle (String c hay) || Js.includes needle hay).
    rewrite orb_true_iff, IH, prefix_spec. split.
    + intros [[t H]|(before & after & H)].
      * exists EmptyString, t. exact H.
      * exists (String c before), after. rewrite append_cons, <- H. reflexivity.
    + intros ([|b before] & after & H).
      * left. exists after. exact H.
      * right. rewrite append_cons in H. exists before, after. congruence.
Qed.

Lemma strip_spec href :
  (∃ k, href = Js.stripTrailingSlashes href +:+ slashes k)
  ∧ endsWithSlash (Js.stripTrailingSlashes href) = false.
Proof.
  induction href as [|c s [[k Hk] He]]; simpl.
  - split; [exists 0%nat; reflexivity | reflexivity].
  - destruct (Js.stripTrailingSlashes s) as [|d kept] eqn:E.
    + rewrite append_nil_l in Hk. destruct (Ascii.eqb c "/") eqn:Hc.
      * apply Ascii.eqb_eq in Hc. subst c. split; [|reflexivity].
        exists (S k). rewrite append_nil_l. simpl. congruence.
      * split; [|simpl; exact Hc]. exists k. rewrite append_cons, append_nil_l. congruence.
    + split; [exists k; rewrite append_cons; congruence|]. exact He.
Qed.

(** [find] returns the first element that passes the test. *)
Lemma find_first {A} (f : A → bool) l x :
  find f l = Some x →
  f x = true ∧ ∃ before after, l = before ++ x :: after ∧ Forall (fun y => f y = false) before.
Proof.
  induction l as [|a l IH]; simpl; [discriminate|].
  destruct (f a) eqn:E.
  - intros H. inversion H; subst. split; [exact E|]. exists [], l. split; [reflexivity|constructor].
  - intros H. destruct (IH H) as (Hx & before & after & Hl & Hb).
    split; [exact Hx|]. exists (a :: before), after. split; [rewrite Hl; reflexivity|].
    constructor; assumption.
Qed.

Lemma stripPrefix_spec p s rest : Discovery.stripPrefix p s = Some rest → s = p +:+ rest.
Proof.
  revert s. induction p as [|a p IH]; intros s; simpl.
  - intros H. inversion H. reflexivity.
  - destruct s as [|b s]; [discriminate|].
    destruct (Ascii.eqb a b) eqn:E; [|discriminate].
    apply Ascii.eqb_eq in E. subst b. intros H. rewrite append_cons, <- (IH s H). reflexivity.
Qed.

Lemma stripLabel_spec s rest :
  Discovery.stripLabel s = Some rest →
  ∃ label, label ∈ ["port"; "Port"; "PORT"]%string ∧ s = label +:+ rest.
Proof.
  unfold Discovery.stripLabel.
  destruct (Discovery.stripPrefix "port" s) as [r|] eqn:E1.
  { intros H. inversion H; subst. exists "port"%string.
    split; [set_solver | apply stripPrefix_spec, E1]. }
  destruct (Discovery.stripPrefix "Port" s) as [r|] eqn:E2.
  { intros H. inversion H; subst. exists "Port"%string.
    split; [set_solver | apply stripPrefix_spec, E2]. }
  intros H. exists "PORT"%string. split; [set_solver | apply stripPrefix_spec, H].
Qed.

Lemma takeDigits_spec max s :
  ∃ after,
    s = Discovery.takeDigits max s +:+ after
    ∧ forallb Discovery.isDigit (list_ascii_of_string (Discovery.takeDigits max s)) = true
    ∧ (String.length (Discovery.takeDigits max s) ≤ max)%nat.
Proof.
  revert s. induction max as [|m IH]; intros s.
  - exists s. destruct s; (split; [reflexivity|]); (split; [reflexivity|]); simpl; lia.
  - destruct s as [|c s].
    { exists EmptyString. split; [reflexivity|]. split; [reflexivity|]. simpl; lia. }
    simpl. destruct (Discovery.isDigit c) eqn:E.
    + destruct (IH s) as (after & Hs & Hd & Hl). exists after.
      rewrite append_cons, <- Hs. simpl. rewrite E, Hd.
      split; [reflexivity|]. split; [reflexivity|]. lia.
    + exists (String c s). split; [reflexivity|]. split; [reflexivity|]. simpl; lia.
Qed.

(** [skipSeps] removes a run of separator characters, and a non-empty one
    when a separator is at the head. *)
Lemma skipSeps_spec s :
  ∃ seps,
    s = seps +:+ Discovery.skipSeps s
    ∧ Discovery.skipSeps seps = EmptyString
    ∧ (Discovery.sepLen s ≠ 0%nat → seps ≠ EmptyString).
Proof.
  assert (H : ∀ n s, (String.length s ≤ n)%nat →
            ∃ seps,
              s = seps +:+ Discovery.skipSeps s
              ∧ Discovery.skipSeps seps = EmptyString
              ∧ (Discovery.sepLen s ≠ 0%nat → seps ≠ EmptyString)).
  { clear s. induction n as [|n IH]; intros s Hn.
    - destruct s; [|simpl in Hn; lia]. exists EmptyString. split; [reflexivity|]. split; [reflexivity|]. intros H; exfalso; apply H; reflexivity.
    - destruct s as [|a r1].
      { exists EmptyString. split; [reflexivity|]. split; [reflexivity|]. intros H; exfalso; apply H; reflexivity. }
      simpl in Hn. simpl Discovery.skipSeps.
      destruct (Discovery.isSep1 a) eqn:E1.
      { destruct (IH r1 ltac:(lia)) as (seps & Hs & Hk & _).
        exists (String a seps). rewrite append_cons, <- Hs.
        split; [reflexivity|]. split; [simpl; rewrite E1; exact Hk | discriminate]. }
      destruct r1 as [|b r2].
      { exists EmptyString. split; [reflexivity|]. split; [reflexivity|].
        simpl. rewrite E1. intros H; exfalso; apply H; reflexivity. }
      simpl in Hn.
      destruct (Discovery.isSep2 a b) eqn:E2.
      { destruct (IH r2 ltac:(lia)) as (seps & Hs & Hk & _).
        exists (String a (String b seps)). rewrite !append_cons, <- Hs.
        split; [reflexivity|]. split; [simpl; rewrite E1, E2; exact Hk | discriminate]. }
      destruct r2 as [|c r3].
      { exists EmptyString. split; [reflexivity|]. split; [reflexivity|].
        simpl. rewrite E1, E2. intros H; exfalso; apply H; reflexivity. }
      simpl in Hn.
      destruct (Discovery.isSep3 a b c) eqn:E3.
      { destruct (IH r3 ltac:(lia)) as (seps & Hs & Hk & _).
        exists (String a (String b (String c seps))). rewrite !append_cons, <- Hs.
        split; [reflexivity|].
        split; [simpl; rewrite E1, E2, E3; exact Hk | discriminate]. }
      exists EmptyString. split; [reflexivity|]. split; [reflexivity|].
      simpl. rewrite E1, E2, E3. intros H; exfalso; apply H; reflexivity. }
  apply (H (String.length s)). lia.
Qed.

Lemma portMatch_sound logs port :
  Discovery.portMatch logs = Some port → PortMention logs port.
Proof.
  induction logs as [|ch logs IH].
  - simpl. unfold Discovery.portMatchHere. simpl. discriminate.
  - simpl Discovery.portMatch.
    destruct (Discovery.portMatchHere (String ch logs)) as [d|] eqn:E.
    + intros H. inversion H; subst d. clear H IH.
      unfold Discovery.portMatchHere in E.
      destruct (Discovery.stripLabel (String ch logs)) as [rest|] eqn:El; [|discriminate].
      destruct (stripLabel_spec _ _ El) as (label & Hlabel & Hs).
      destruct (skipSeps_spec rest) as (seps & Hrest & Hseps & Hne).
      destruct (Discovery.sepLen rest) eqn:Hlen; [discriminate|].
      destruct (takeDigits_spec 5 (Discovery.skipSeps rest)) as (after & Ht & Hd & Hl).
      cbv zeta in E.
      remember (Discovery.takeDigits 5 (Discovery.skipSeps rest)) as digits eqn:Hdigits.
      destruct (4 <=? String.length digits)%nat eqn:H4; [|discriminate].
      assert (digits = port) by congruence. subst port. clear E.
      exists EmptyString, label, seps, after.
      split.
      { rewrite append_nil_l, Hs. f_equal. rewrite Hrest at 1. f_equal. exact Ht. }
      split; [exact Hlabel|]. split; [apply Hne; discriminate|].
      split; [exact Hseps|]. split; [exact Hd|].
      apply Nat.leb_le in H4. lia.
    + intros H. destruct (IH H) as (before & label & seps & after & Hl & Hrest).
      exists (String ch before), label, seps, after.
      split; [rewrite append_cons, <- Hl; reflexivity | exact Hrest].
Qed.

(** *** The port pattern finds a mention whenever there is one *)

Lemma digit_is_no_separator a :
  Discovery.isDigit a = true →
  Discovery.isSep1 a = false
  ∧ (∀ b, Discovery.isSep2 a b = false)
  ∧ (∀ b c, Discovery.isSep3 a b c = false).
Proof.
  unfold Discovery.isDigit, Discovery.isSep1, Discovery.isSep2, Discovery.isSep3.
  generalize (Discovery.code a). intros n H.
  apply andb_true_iff in H as [H1 H2].
  apply Nat.leb_le in H1. apply Nat.leb_le in H2.
  assert (E : ∀ m, (m < 48 ∨ 57 < m)%nat → (n =? m)%nat = false)
    by (intros m Hm; apply Nat.eqb_neq; lia).
  rewrite (E 32%nat), (E 58%nat), (E 194%nat), (E 225%nat), (E 226%nat), (E 227%nat),
    (E 239%nat) by lia.
  assert (E13 : (n <=? 13)%nat = false) by (apply Nat.leb_gt; lia).
  rewrite E13, andb_false_r. simpl. auto.
Qed.

Lemma skipSeps_digit a rest :
  Discovery.isDigit a = true → Discovery.skipSeps (String a rest) = String a rest.
Proof.
  intros H. destruct (digit_is_no_separator a H) as (H1 & H2 & H3).
  simpl. rewrite H1. destruct rest as [|b r2]; [reflexivity|]. rewrite H2.
  destruct r2 as [|c r3]; [reflexivity|]. rewrite H3. reflexivity.
Qed.

Lemma sepLen_sep1 a x : Discovery.isSep1 a = true → Discovery.sepLen (String a x) ≠ 0%nat.
Proof. intros E. destruct x as [|b [|c y]]; simpl; rewrite E; discriminate. Qed.

Lemma sepLen_sep2 a b x :
  Discovery.isSep2 a b = true → Discovery.sepLen (String a (String b x)) ≠ 0%nat.
Proof.
  intros E. destruct x as [|c y]; simpl; destruct (Discovery.isSep1 a);
    try discriminate; rewrite E; discriminate.
Qed.

Lemma sepLen_sep3 a b c x :
  Discovery.isSep3 a b c = true → Discovery.sepLen (String a (String b (String c x))) ≠ 0%nat.
Proof.
  intros E. simpl. destruct (Discovery.isSep1 a); [discriminate|].
  destruct (Discovery.isSep2 a b); [discriminate|]. rewrite E. discriminate.
Qed.

(** A run of separators in front of a text is skipped whole. *)
Lemma skipSeps_append seps rest :
  Discovery.skipSeps seps = EmptyString →
  Discovery.skipSeps (seps +:+ rest) = Discovery.skipSeps rest
  ∧ (seps ≠ EmptyString → Discovery.sepLen (seps +:+ rest) ≠ 0%nat).
Proof.
  assert (H : ∀ n seps, (String.length seps ≤ n)%nat →
            Discovery.skipSeps seps = EmptyString →
            Discovery.skipSeps (seps +:+ rest) = Discovery.skipSeps rest
            ∧ (seps ≠ EmptyString → Discovery.sepLen (seps +:+ rest) ≠ 0%nat)).
  { clear seps. induction n as [|n IH]; intros seps Hn Hs.
    - destruct seps; [|simpl in Hn; lia]. split; [reflexivity | congruence].
    - destruct seps as [|a r1]; [split; [reflexivity | congruence]|].
      simpl in Hn. rewrite append_cons. simpl in Hs. simpl Discovery.skipSeps.
      destruct (Discovery.isSep1 a) eqn:E1.
      { destruct (IH r1 ltac:(lia) Hs) as [H1 _].
        split; [exact H1 | intros _; apply sepLen_sep1, E1]. }
      destruct r1 as [|b r2]; [discriminate|].
      simpl in Hn. rewrite append_cons.
      destruct (Discovery.isSep2 a b) eqn:E2.
      { destruct (IH r2 ltac:(lia) Hs) as [H1 _].
        split; [exact H1 | intros _; apply sepLen_sep2, E2]. }
      destruct r2 as [|c r3]; [discriminate|].
      simpl in Hn. rewrite append_cons.
      destruct (Discovery.isSep3 a b c) eqn:E3; [|discriminate].
      destruct (IH r3 ltac:(lia) Hs) as [H1 _].
      split; [exact H1 | intros _; apply sepLen_sep3, E3]. }
  apply (H (String.length seps)). lia.
Qed.

Lemma stripPrefix_append p rest : Discovery.stripPrefix p (p +:+ rest) = Some rest.
Proof.
  induction p as [|a p IH]; [destruct rest; reflexivity|].
  rewrite append_cons. simpl. rewrite Ascii.eqb_refl. exact IH.
Qed.

Lemma stripLabel_append label rest :
  label ∈ ["port"; "Port"; "PORT"]%string →
  Discovery.stripLabel (label +:+ rest) = Some rest.
Proof.
  intros H. unfold Discovery.stripLabel.
  apply elem_of_cons in H as [->|H]; [rewrite stripPrefix_append; reflexivity|].
  apply elem_of_cons in H as [->|H].
  { rewrite (stripPrefix_append "Port" rest). reflexivity. }
  apply elem_of_cons in H as [->|H]; [|inversion H].
  rewrite (stripPrefix_append "PORT" rest). reflexivity.
Qed.

Lemma takeDigits_length max digits after :
  forallb Discovery.isDigit (list_ascii_of_string digits) = true →
  (Nat.min max (String.length digits)
   ≤ String.length (Discovery.takeDigits max (digits +:+ after)))%nat.
Proof.
  revert digits. induction max as [|m IH]; intros digits H; [simpl; lia|].
  destruct digits as [|c digits]; [simpl; lia|].
  simpl in H. apply andb_true_iff in H as [Hc Hd].
  rewrite append_cons. simpl. rewrite Hc. simpl. specialize (IH digits Hd). lia.
Qed.

Lemma portMatchHere_complete label seps port after :
  label ∈ ["port"; "Port"; "PORT"]%string →
  seps ≠ EmptyString → Discovery.skipSeps seps = EmptyString →
  forallb Discovery.isDigit (list_ascii_of_string port) = true →
  (4 ≤ String.length port)%nat →
  ∃ found, Discovery.portMatchHere (label +:+ seps +:+ port +:+ after) = Some found.
Proof.
  intros Hlabel Hne Hseps Hd Hlen. unfold Discovery.portMatchHere.
  rewrite (stripLabel_append label _ Hlabel).
  destruct (skipSeps_append seps (port +:+ after) Hseps) as [Hskip Hpos].
  specialize (Hpos Hne).
  destruct (Discovery.sepLen (seps +:+ port +:+ after)); [congruence|].
  rewrite Hskip.
  destruct port as [|d port]; [simpl in Hlen; lia|].
  simpl in Hd. apply andb_true_iff in Hd as [Hd0 Hd].
  rewrite append_cons, (skipSeps_digit d _ Hd0), <- append_cons.
  pose proof (takeDigits_length 5 (String d port) after) as Ht.
  simpl forallb in Ht. rewrite Hd0, Hd in Ht. specialize (Ht eq_refl).
  cbv zeta.
  destruct (4 <=? String.length (Discovery.takeDigits 5 (String d port +:+ after)))%nat eqn:E.
  - eexists. reflexivity.
  - apply Nat.leb_gt in E. lia.
Qed.

Lemma portMatch_here s found :
  Discovery.portMatchHere s = Some found → Discovery.portMatch s = Some found.
Proof.
  intros H. destruct s as [|c s].
  - change (Discovery.portMatch EmptyString)
      with (match Discovery.portMatchHere EmptyString with
            | Some d => Some d
            | None => None
            end).
    rewrite H. reflexivity.
  - change (Discovery.portMatch (String c s))
      with (match Discovery.portMatchHere (String c s) with
            | Some d => Some d
            | None => Discovery.portMatch s
            end).
    rewrite H. reflexivity.
Qed.

Lemma portMatch_complete logs port :
  PortMention logs port → ∃ found, Discovery.portMatch logs = Some found.
Proof.
  intros (before & label & seps & after & Hl & Hlabel & Hne & Hseps & Hd & Hlen).
  subst logs. induction before as [|ch before IH].
  - rewrite append_nil_l.
    destruct (portMatchHere_complete label seps port after Hlabel Hne Hseps Hd ltac:(lia))
      as [found Hf].
    exists found. apply portMatch_here, Hf.
  - rewrite append_cons. simpl Discovery.portMatch.
    destruct (Discovery.portMatchHere _) as [d|]; [eexists; reflexivity | exact IH].
Qed.

(** *** The start handler reports success with or without an address *)

Lemma sameLink_stable w0 : SupervisorStable (SameLink w0).
Proof.
  split.
  - intros e w H. exact H.
  - intros c w out w' E [H1 H2]. unfold pm2Step in E.
    destruct (pm2Online w) eqn:Hon; simpl in E; [|discriminate].
    destruct c; simpl in E;
      repeat match type of E with
             | (if ?b then _ else _) = _ => destruct b
             | match ?x with _ => _ end = _ => destruct x
             end; inversion E; subst; split; simpl; congruence.
Qed.

Lemma sameLink_statSize w0 path : Preserves (SameLink w0) (statSize path).
Proof. intros w H. unfold statSize. destruct (logFiles w !! path); exact H. Qed.

Lemma sameLink_assignLogOffset w0 nm v : Preserves (SameLink w0) (assignLogOffset nm v).
Proof.
  intros w H. unfold assignLogOffset.
  destruct (getProperty (serverState w) nm) as [[c|k]|]; exact H.
Qed.

Lemma sameLink_persistState w0 : Preserves (SameLink w0) persistState.
Proof. intros w H. exact H. Qed.

#[local] Hint Resolve sameLink_stable sameLink_statSize sameLink_assignLogOffset
  sameLink_persistState : preserves.

Lemma creates_offline config w : pm2Online w = false → creates config w = false.
Proof. intros H. unfold creates. rewrite H. reflexivity. Qed.

(** The reconciler returns normally only when the supervisor answers. *)
Lemma reconciled_online config w :
  fst (startPm2Process config w) = Ok tt → pm2Online w = true.
Proof.
  intros Hok. pose proof (startPm2Process_summary config w) as S. cbv zeta in S.
  destruct (liveDescriptor (name config) w) as [p|] eqn:Hd.
  - apply liveDescriptor_some in Hd as [Hon _]. exact Hon.
  - destruct S as [S _]. rewrite Hok in S. unfold creates in S.
    destruct (pm2Online w); [reflexivity | discriminate].
Qed.

(** What the reconciler returns depends on the supervisor and the
    directories only. *)
Lemma startPm2Process_outcome config w w' :
  pm2Online w' = pm2Online w → pm2List w' = pm2List w →
  pm2Launch w' = pm2Launch w → dirExists w' = dirExists w →
  fst (startPm2Process config w') = fst (startPm2Process config w).
Proof.
  intros H1 H2 H3 H4.
  pose proof (startPm2Process_summary config w) as S. cbv zeta in S.
  pose proof (startPm2Process_summary config w') as S'. cbv zeta in S'.
  assert (Hd : liveDescriptor (name config) w' = liveDescriptor (name config) w)
    by (unfold liveDescriptor; rewrite H1, H2; reflexivity).
  assert (Hc : creates config w' = creates config w)
    by (unfold creates, spawnable; rewrite H1, H3, H4; reflexivity).
  rewrite Hd, Hc in S'.
  destruct (liveDescriptor (name config) w) as [p|].
  - destruct S as [S _]. destruct S' as [S' _]. congruence.
  - destruct S as [S _]. destruct S' as [S' _]. congruence.
Qed.

(** The reconciler returns normally or throws what [exec] rejected
    with. *)
Lemma reconciler_outcome config w :
  fst (startPm2Process config w) = Ok tt
  ∨ fst (startPm2Process config w) = Throw "Command failed".
Proof.
  pose proof (startPm2Process_summary config w) as S. cbv zeta in S.
  destruct (liveDescriptor (name config) w) as [p|].
  - destruct S as [S _]. rewrite S.
    destruct (statusIs "online" p || statusIs "stopped" p); [auto|].
    destruct (creates config w); auto.
  - destruct S as [S _]. rewrite S. destruct (creates config w); auto.
Qed.

Lemma start_reports_success lf nm w slot :
  getProperty (registryOf w) nm = Some slot →
  fst (startPm2Process (viewSlot slot) w) = Ok tt →
  fst (startManagedProcess lf nm w)
  = Ok ("Server '" +:+ nm +:+ "' started"
        +:+ match pm2Output w (commandLine (PmLogs nm 100 StreamAll)) with
            | Some logs => Discovery.urlInfo (lf logs) logs
            | None => EmptyString
            end)%string.
Proof.
  intros Hslot Hrec. pose proof (reconciled_online _ _ Hrec) as Hon.
  unfold startManagedProcess.
  rewrite (bind_ok loadState _ w tt (setServerState (registryOf w) w)) by reflexivity.
  set (w0 := setServerState (registryOf w) w).
  rewrite (bind_ok (gets serverState) _ w0 (registryOf w) w0) by reflexivity.
  rewrite Hslot.
  assert (L0 : SameLink w w0) by (split; reflexivity).
  assert (Hok : fst (startPm2Process (viewSlot slot) w0) = Ok tt).
  { rewrite <- Hrec. apply startPm2Process_outcome; reflexivity. }
  pose proof (preserves_startPm2Process (SameLink w) (viewSlot slot)
                (sameLink_stable w) w0 L0) as L1.
  destruct (startPm2Process (viewSlot slot) w0) as [[[]|e] w1] eqn:E1;
    simpl in Hok, L1; [|discriminate].
  rewrite (bind_ok _ _ _ _ _ E1).
  set (capture := tryCatch
                    (bind (gets pm2Home) (fun home =>
                     bind (statSize (getPm2LogPath home nm false)) (fun size =>
                     bind (assignLogOffset nm size) (fun _ => persistState))))
                    (ret tt)).
  assert (L2 : SameLink w (snd (capture w1))).
  { apply (preserves_apply (SameLink w)); [|exact L1].
    unfold capture. auto 10 with preserves. }
  assert (Hcap : fst (capture w1) = Ok tt).
  { unfold capture, tryCatch.
    destruct (bind (gets pm2Home) _ w1) as [[[]|e] v]; reflexivity. }
  destruct (capture w1) as [[[]|e] w2] eqn:E2; simpl in Hcap, L2; [|discriminate].
  rewrite (bind_ok _ _ _ _ _ E2).
  destruct L2 as [Hon2 Hout2].
  unfold bind, tryCatch, runPm2, pm2Step. simpl.
  rewrite Hon2, Hon, Hout2. simpl.
  destruct (pm2Output w _); reflexivity.
Qed.


(** The test for a local link looks at the whole href, not at its host. *)
Example local_test_is_a_substring_test :
  Discovery.discoverUrl
    ["http://docs.example.com/localhost-setup"; "http://127.0.0.1:3000"]%string EmptyString
  = Some "http://docs.example.com/localhost-setup"%string
  ∧ Spec.discoverUrl
      ["http://docs.example.com/localhost-setup"; "http://127.0.0.1:3000"]%string EmptyString
    = Some "http://127.0.0.1:3000"%string.
Proof. vm_compute. split; reflexivity. Qed.

Lemma isLocalHref_spec href :
  Discovery.isLocalHref href = true
  ↔ ∃ spelling before after,
      spelling ∈ ["localhost"; "127.0.0.1"; "0.0.0.0"]%string
      ∧ href = before +:+ spelling +:+ after.
Proof.
  unfold Discovery.isLocalHref. rewrite !orb_true_iff, !includes_spec. split.
  - intros [[(b & a & H)|(b & a & H)]|(b & a & H)].
    + exists "localhost"%string, b, a. split; [set_solver | exact H].
    + exists "127.0.0.1"%string, b, a. split; [set_solver | exact H].
    + exists "0.0.0.0"%string, b, a. split; [set_solver | exact H].
  - intros (spelling & b & a & Hin & H).
    apply elem_of_cons in Hin as [->|Hin]; [left; left; eauto|].
    apply elem_of_cons in Hin as [->|Hin]; [left; right; eauto|].
    apply elem_of_cons in Hin as [->|Hin]; [right; eauto | inversion Hin].
Qed.



(** ** Instances *)

Lemma delete_is_idempotent_witness :
  let w := worldWith {[ "api"%string := webConfig ]} [] ∅ in
  "api"%string ≠ "web"%string
  ∧ fst (deleteManagedProcess "web" true w) = Ok "Server 'web' deleted and stopped"%string
  ∧ registryOf (snd (deleteManagedProcess "web" true w)) !! "api"%string
    = registryOf w !! "api"%string.
Proof.
  intros w. split; [discriminate|].
  destruct (delete_is_idempotent "web" true w) as (Hok & _ & _ & _ & H & _).
  split; [exact Hok|]. apply H. discriminate.
Defined.

Lemma registry_keyed_by_name_witness :
  let params := mkParams "web" "server.js" None None None None None None None in
  let w := serve (fun _ => []) (fun s => s) (Register params true) bootWorld in
  Reachable (fun _ => []) (fun s => s) w ∧ registryKeyed w.
Proof.
  intros params w.
  assert (H : Reachable (fun _ => []) (fun s => s) w).
  { apply reach_serve, reach_start; reflexivity. }
  split; [exact H|]. exact (registry_keyed_by_name _ _ _ H).
Defined.

(* ================================================================== *)
(** * Further properties of the handlers *)

(** ** Commands that leave everything but the process table alone *)

Lemma quiet_runPm2 P c : Quiet P → notFlush c = true → Preserves P (runPm2 c).
Proof.
  intros [Hrec Hstep] Hc w H.
  destruct (runPm2_cases c w) as [(out & w2 & E & _ & Estep)|[E _]]; rewrite E; simpl.
  - eapply Hstep; [exact Hc | exact Estep |]. apply Hrec, H.
  - apply Hrec, H.
Qed.

Lemma quiet_getPm2ProcessInfo P nm : Quiet P → Preserves P (getPm2ProcessInfo nm).
Proof.
  intros HP. unfold getPm2ProcessInfo.
  apply preserves_tryCatch; [|apply preserves_ret].
  apply preserves_bind; [apply quiet_runPm2; [exact HP | reflexivity]|].
  intros out. apply preserves_bind; [apply preserves_jsonParse|].
  intros l. apply preserves_ret.
Qed.

Lemma quiet_restartPm2Process P nm : Quiet P → Preserves P (restartPm2Process nm).
Proof.
  intros HP. unfold restartPm2Process.
  apply preserves_bind; [apply quiet_runPm2; [exact HP | reflexivity]|].
  intros _. apply preserves_ret.
Qed.

Lemma quiet_deletePm2Process P nm : Quiet P → Preserves P (deletePm2Process nm).
Proof.
  intros HP. unfold deletePm2Process.
  apply preserves_tryCatch; [|apply preserves_ret].
  apply preserves_bind; [apply quiet_runPm2; [exact HP | reflexivity]|].
  intros _. apply preserves_ret.
Qed.

Lemma quiet_stopPm2Process P nm : Quiet P → Preserves P (stopPm2Process nm).
Proof.
  intros HP. unfold stopPm2Process.
  apply preserves_tryCatch; [|apply preserves_ret].
  apply preserves_bind; [apply quiet_runPm2; [exact HP | reflexivity]|].
  intros _. apply preserves_ret.
Qed.

Lemma quiet_startPm2Process P config : Quiet P → Preserves P (startPm2Process config).
Proof.
  intros HP. unfold startPm2Process.
  assert (Hcreate : Preserves P (bind (runPm2 (PmStart config)) (fun _ => ret tt))).
  { apply preserves_bind; [apply quiet_runPm2; [exact HP | reflexivity]|].
    intros _. apply preserves_ret. }
  assert (Hrecreate : Preserves P
            (bind (deletePm2Process (Js.interp (name config)))
               (fun _ => bind (runPm2 (PmStart config)) (fun _ => ret tt)))).
  { apply preserves_bind; [apply quiet_deletePm2Process, HP | intros _; exact Hcreate]. }
  apply preserves_bind; [apply quiet_getPm2ProcessInfo, HP|].
  intros [p|]; [|exact Hcreate].
  destruct (p_status p) as [status|]; [|exact Hrecreate].
  apply preserves_if; [apply preserves_ret|].
  apply preserves_if; [apply quiet_restartPm2Process, HP | exact Hrecreate].
Qed.

Lemma untouched_refl w : Untouched w w.
Proof. repeat split. Qed.

Lemma untouched_quiet w0 : Quiet (Untouched w0).
Proof.
  split.
  - intros c d e w (H1 & H2 & H3 & H4 & H5). repeat split; try assumption.
    simpl. rewrite persistsOf_app, H5. simpl. apply app_nil_r.
  - intros c w out w' Hc E (H1 & H2 & H3 & H4 & H5). unfold pm2Step in E.
    unfold Untouched, memory in *.
    destruct (pm2Online w) eqn:Hon; simpl in E; [|discriminate].
    destruct c; try discriminate Hc; simpl in E;
      repeat match type of E with
             | (if ?b then _ else _) = _ => destruct b
             | match ?x with _ => _ end = _ => destruct x
             end; inversion E; subst; repeat split; simpl; congruence.
Qed.

Lemma startPm2Process_untouched config w :
  Untouched w (snd (startPm2Process config w)).
Proof.
  apply (quiet_startPm2Process (Untouched w) config (untouched_quiet w)), untouched_refl.
Qed.

(** ** Starting twice, and starting after a stop *)

Lemma find_setStatus nm status l :
  find (named nm) (setStatus nm status l)
  = option_map (fun p => mkProc (p_name p) (Some status)) (find (named nm) l).
Proof.
  induction l as [|p l IH]; [reflexivity|]. unfold setStatus in *. simpl.
  destruct (named nm p) eqn:E; simpl.
  - unfold named in *. simpl. rewrite E. reflexivity.
  - rewrite E. exact IH.
Qed.

Lemma find_app_none {A} (f : A → bool) l1 l2 :
  find f l1 = None → find f (l1 ++ l2) = find f l2.
Proof.
  induction l1 as [|a l1 IH]; [reflexivity|]. simpl.
  destruct (f a); [discriminate | exact IH].
Qed.

Lemma find_deleted nm l : find (named nm) (filter (fun p => named nm p = false) l) = None.
Proof. apply find_existsb, existsb_deleted. Qed.

Lemma count_some nm l p :
  find (named nm) l = Some p →
  (1 ≤ length (filter (fun q => named nm q = true) l))%nat.
Proof.
  induction l as [|q l IH]; simpl; [discriminate|].
  destruct (named nm q) eqn:E.
  - intros _. rewrite filter_cons. destruct (decide (named nm q = true)); [simpl; lia | congruence].
  - intros H. rewrite filter_cons. destruct (decide (named nm q = true)); [congruence | auto].
Qed.

Lemma instanceCount_pos config : ∃ k, instanceCount config = S k.
Proof.
  unfold instanceCount. destruct (instances config) as [n|]; [|exists 0%nat; reflexivity].
  destruct (0 <? n) eqn:E; [|exists 0%nat; reflexivity].
  exists (Nat.pred (Z.to_nat n)). lia.
Qed.

(** When the creation command goes through, the supervisor's answer is the
    status of the descriptors added, the first of which carries the name
    of the config. *)
Lemma additions_created config nm w :
  name config = Some nm → creates config w = true →
  ∃ status rest,
    pm2Launch w (commandLine (PmStart config)) = Some status
    ∧ additions config w = mkProc nm (Some status) :: rest.
Proof.
  intros Hname Hc. unfold additions. rewrite Hc. unfold creates in Hc.
  apply andb_true_iff in Hc as [_ Hc]. apply bool_decide_eq_true in Hc as [status Hs].
  rewrite Hs. simpl. destruct (instanceCount_pos config) as [k Hk].
  exists status, (repeat (mkProc nm (Some status)) k).
  split; [reflexivity|]. unfold launched. rewrite Hk, Hname. reflexivity.
Qed.

(** After a run of the reconciler that returns normally, and with the
    supervisor answering creation commands with online descriptors, the
    first descriptor it reports for the name is online. *)
Lemma started_is_online config nm w :
  name config = Some nm →
  fst (startPm2Process config w) = Ok tt →
  (∀ status, pm2Launch w (commandLine (PmStart config)) = Some status →
             status = "online"%string) →
  let w1 := snd (startPm2Process config w) in
  pm2Online w1 = true
  ∧ pm2Launch w1 = pm2Launch w
  ∧ ∃ p, find (named nm) (pm2List w1) = Some p ∧ statusIs "online" p = true.
Proof.
  intros Hname Hok Hlaunch w1.
  pose proof (reconciled_online config w Hok) as Hon.
  pose proof (startPm2Process_summary config w) as S. cbv zeta in S. fold w1 in S.
  assert (Hsame : pm2Online w1 = pm2Online w ∧ pm2Launch w1 = pm2Launch w).
  { apply (preserves_startPm2Process
             (fun v => pm2Online v = pm2Online w ∧ pm2Launch v = pm2Launch w));
      [|split; reflexivity].
    split.
    - intros e v H. exact H.
    - intros c v out v' E [H1 H2]. unfold pm2Step in E.
      destruct (pm2Online v) eqn:Hv; simpl in E; [|discriminate].
      destruct c; simpl in E;
        repeat match type of E with
               | (if ?b then _ else _) = _ => destruct b
               | match ?x with _ => _ end = _ => destruct x
               end; inversion E; subst; split; simpl; congruence. }
  destruct Hsame as [Hon1 Hlaunch1].
  rewrite Hname in S. simpl Js.interp in S.
  split; [congruence|]. split; [exact Hlaunch1|].
  assert (Hnew : creates config w = true →
            ∀ before, find (named nm) before = None →
            ∃ p, find (named nm) (before ++ additions config w) = Some p
                 ∧ statusIs "online" p = true).
  { intros Hc before Hb.
    destruct (additions_created config nm w Hname Hc) as (status & rest & Hs & Ha).
    rewrite (Hlaunch status Hs) in Ha.
    rewrite find_app_none by exact Hb. rewrite Ha. simpl.
    unfold named at 1. simpl. rewrite String.eqb_refl.
    eexists. split; reflexivity. }
  destruct (liveDescriptor (Some nm) w) as [p|] eqn:Hd.
  - unfold liveDescriptor in Hd. rewrite Hon in Hd.
    change (sameName (Some nm)) with (named nm) in Hd.
    destruct S as [Hfst S]. rewrite Hok in Hfst.
    destruct (statusIs "online" p) eqn:E1; [|destruct (statusIs "stopped" p) eqn:E2];
      destruct S as [_ Hl]; rewrite Hl.
    + exists p. auto.
    + rewrite find_setStatus, Hd. simpl. eexists. split; reflexivity.
    + simpl in Hfst. apply Hnew; [|apply find_deleted].
      destruct (creates config w); [reflexivity | discriminate].
  - unfold liveDescriptor in Hd. rewrite Hon in Hd.
    change (sameName (Some nm)) with (named nm) in Hd.
    destruct S as (Hfst & _ & Hl). rewrite Hok in Hfst. rewrite Hl.
    apply Hnew; [|exact Hd].
    destruct (creates config w); [reflexivity | discriminate].
Qed.



(** X2. Stop, then start: once the stop handler has stopped the
    descriptors of a name, the reconciler run for a config of that name
    issues [pm2 restart] and no creation command, and the process table
    keeps its length. *)
Theorem start_after_stop_restarts config nm w :
  name config = Some nm → pm2Online w = true →
  existsb (named nm) (pm2List w) = true →
  let w1 := snd (stopManagedProcess nm w) in
  let r2 := startPm2Process config w1 in
  fst r2 = Ok tt
  ∧ commandsOf (journal (snd r2))
    = commandsOf (journal w) ++ ["pm2 stop " +:+ nm; "pm2 jlist"; "pm2 restart " +:+ nm]%string
  ∧ length (pm2List (snd r2)) = length (pm2List w)
  ∧ ∃ p, find (named nm) (pm2List (snd r2)) = Some p ∧ statusIs "online" p = true.
Proof.
  intros Hname Hon Hex w1 r2.
  assert (E1 : stopManagedProcess nm w
               = (Ok ("Server '" +:+ nm +:+ "' stopped")%string,
                  setPm2List (setStatus nm "stopped" (pm2List w))
                    (record (execEvent (PmStop nm)) w))).
  { unfold stopManagedProcess, stopPm2Process, tryCatch, bind, runPm2, pm2Step. simpl.
    rewrite Hon, Hex. reflexivity. }
  assert (Hw1 : w1 = setPm2List (setStatus nm "stopped" (pm2List w))
                       (record (execEvent (PmStop nm)) w)).
  { unfold w1. rewrite E1. reflexivity. }
  destruct (find (named nm) (pm2List w)) as [p0|] eqn:Hf.
  2: { apply find_existsb in Hf. congruence. }
  pose proof (startPm2Process_summary config w1) as S. cbv zeta in S. fold r2 in S.
  rewrite Hname in S. simpl Js.interp in S.
  assert (Hd : liveDescriptor (Some nm) w1 = Some (mkProc (p_name p0) (Some "stopped"%string))).
  { rewrite Hw1. unfold liveDescriptor.
    change (pm2Online (setPm2List (setStatus nm "stopped" (pm2List w))
                         (record (execEvent (PmStop nm)) w))) with (pm2Online w).
    change (pm2List (setPm2List (setStatus nm "stopped" (pm2List w))
                       (record (execEvent (PmStop nm)) w)))
      with (setStatus nm "stopped" (pm2List w)).
    change (sameName (Some nm)) with (named nm).
    rewrite Hon, find_setStatus, Hf. reflexivity. }
  rewrite Hd in S. simpl in S. destruct S as (H1 & H2 & H3).
  split; [exact H1|]. rewrite H2, H3, Hw1. simpl.
  split; [rewrite !commandsOf_app; simpl; rewrite <- app_assoc; reflexivity|].
  split; [unfold setStatus; rewrite !length_map; reflexivity|].
  rewrite !find_setStatus, Hf. simpl. eexists. split; reflexivity.
Qed.

Lemma start_after_stop_restarts_witness :
  let w := worldWith ∅ [mkProc "web" (Some "online"%string)] ∅ in
  name webConfig = Some "web"%string
  ∧ pm2Online w = true
  ∧ existsb (named "web") (pm2List w) = true
  ∧ commandsOf (journal (snd (startPm2Process webConfig (snd (stopManagedProcess "web" w)))))
    = ["pm2 stop web"; "pm2 jlist"; "pm2 restart web"]%string.
Proof.
  intros w. split; [reflexivity|]. split; [reflexivity|]. split; [reflexivity|].
  destruct (start_after_stop_restarts webConfig "web" w eq_refl eq_refl eq_refl)
    as (_ & H & _).
  exact H.
Defined.

(** ** The start handler *)

Lemma getProperty_none reg nm :
  getProperty reg nm = None ↔ reg !! nm = None ∧ nm ∉ objectPrototypeKeys.
Proof.
  unfold getProperty. destruct (reg !! nm) as [c|].
  - split; [discriminate | intros [H _]; discriminate H].
  - destruct (bool_decide (nm ∈ objectPrototypeKeys)) eqn:E.
    + apply bool_decide_eq_true in E. split; [discriminate | intros [_ H]; contradiction].
    + apply bool_decide_eq_false in E. split; auto.
Qed.



(** X4. A start of a registered name while the supervisor does not
    answer throws; the handler has issued [pm2 jlist] and the creation
    command, and has written nothing: the state file is as it was. *)
Theorem start_fails_when_the_supervisor_is_down lf nm w c :
  registryOf w !! nm = Some c → pm2Online w = false →
  let r := startManagedProcess lf nm w in
  fst r = Throw "Command failed"
  ∧ commandsOf (journal (snd r))
    = commandsOf (journal w) ++ ["pm2 jlist"; commandLine (PmStart c)]%string
  ∧ persistsOf (journal (snd r)) = persistsOf (journal w)
  ∧ stateFile (snd r) = stateFile w.
Proof.
  intros Hreg Hoff r. subst r. unfold startManagedProcess.
  rewrite (bind_ok loadState _ w tt (setServerState (registryOf w) w)) by reflexivity.
  set (w0 := setServerState (registryOf w) w).
  rewrite (bind_ok (gets serverState) _ w0 (registryOf w) w0) by reflexivity.
  unfold getProperty. rewrite Hreg. simpl viewSlot.
  pose proof (startPm2Process_summary c w0) as S. cbv zeta in S.
  pose proof (startPm2Process_untouched c w0) as (Hm & _ & _ & _ & Hp).
  assert (Hd : liveDescriptor (name c) w0 = None).
  { unfold liveDescriptor. change (pm2Online w0) with (pm2Online w). rewrite Hoff. reflexivity. }
  rewrite Hd in S. rewrite (creates_offline c w0 Hoff) in S.
  destruct S as (H1 & H2 & _).
  destruct (startPm2Process c w0) as [[[]|e] w1] eqn:E; simpl in H1, H2, Hm, Hp;
    [discriminate|].
  rewrite (bind_throw _ _ _ _ _ E). simpl.
  split; [inversion H1; reflexivity|].
  split; [rewrite H2, commandsOf_app; reflexivity|]. split; [exact Hp|].
  unfold memory in Hm. change (stateFile w) with (stateFile w0). congruence.
Qed.

Lemma start_fails_when_the_supervisor_is_down_witness :
  let w := offlineWorld (Some {[ "web"%string := webConfig ]}) in
  registryOf w !! "web"%string = Some webConfig
  ∧ pm2Online w = false
  ∧ fst (startManagedProcess (fun _ => []) "web" w) = Throw "Command failed".
Proof.
  intros w. split; [reflexivity|]. split; [reflexivity|].
  destruct (start_fails_when_the_supervisor_is_down (fun _ => []) "web" w webConfig
              eq_refl eq_refl) as [E _].
  exact E.
Defined.

(** X5. A start of a registered name.  When the handler's run of the
    reconciler returns normally, so does the handler, and if the
    standard-output log of the name exists, its size is stored as the
    entry's [logOffset] and the registry is written once, while with no
    such file nothing is written.  When the reconciler throws (the
    supervisor does not answer or refuses the creation command, or the
    working directory of the config does not exist), the handler throws
    and nothing is written. *)
Theorem start_captures_the_log_offset lf nm w c :
  registryOf w !! nm = Some c →
  let r := startManagedProcess lf nm w in
  (fst (startPm2Process c w) = Ok tt →
   (∃ text, fst r = Ok text)
   ∧ match logFiles w !! getPm2LogPath (pm2Home w) nm false with
     | Some content =>
         let stored := <[nm := withLogOffset (Some (Z.of_nat (String.length content))) c]>
                         (registryOf w) in
         stateFile (snd r) = Some stored
         ∧ persistsOf (journal (snd r)) = persistsOf (journal w) ++ [stored]
     | None =>
         stateFile (snd r) = stateFile w
         ∧ persistsOf (journal (snd r)) = persistsOf (journal w)
     end)
  ∧ (fst (startPm2Process c w) ≠ Ok tt →
     fst r = Throw "Command failed"
     ∧ stateFile (snd r) = stateFile w
     ∧ persistsOf (journal (snd r)) = persistsOf (journal w)).
Proof.
  intros Hreg r.
  assert (Hslot : getProperty (registryOf w) nm = Some (Own c))
    by (unfold getProperty; rewrite Hreg; reflexivity).
  assert (Hsame : fst (startPm2Process c (setServerState (registryOf w) w))
                  = fst (startPm2Process c w))
    by (apply startPm2Process_outcome; reflexivity).
  split.
  2: { intros Hfail. subst r. unfold startManagedProcess.
       rewrite (bind_ok loadState _ w tt (setServerState (registryOf w) w)) by reflexivity.
       set (w0 := setServerState (registryOf w) w) in *.
       rewrite (bind_ok (gets serverState) _ w0 (registryOf w) w0) by reflexivity.
       rewrite Hslot. simpl viewSlot.
       pose proof (startPm2Process_untouched c w0) as (Hm & _ & _ & _ & Hp).
       destruct (reconciler_outcome c w0) as [H|H]; [congruence|].
       destruct (startPm2Process c w0) as [[[]|e] w1] eqn:E1; simpl in H, Hm, Hp;
         [discriminate|].
       rewrite (bind_throw _ _ _ _ _ E1). simpl.
       split; [congruence|]. split; [|exact Hp].
       unfold memory in Hm. change (stateFile w) with (stateFile w0). congruence. }
  intros Hrec. split.
  { eexists. apply (start_reports_success lf nm w (Own c) Hslot Hrec). }
  subst r. unfold startManagedProcess.
  rewrite (bind_ok loadState _ w tt (setServerState (registryOf w) w)) by reflexivity.
  set (w0 := setServerState (registryOf w) w) in *.
  rewrite (bind_ok (gets serverState) _ w0 (registryOf w) w0) by reflexivity.
  rewrite Hslot. simpl viewSlot.
  assert (Hok : fst (startPm2Process c w0) = Ok tt) by congruence.
  pose proof (startPm2Process_untouched c w0) as (Hm & Hfiles & _ & _ & Hp).
  destruct (startPm2Process c w0) as [[[]|e] w1] eqn:E1;
    simpl in Hok, Hm, Hfiles, Hp; [|discriminate].
  rewrite (bind_ok _ _ _ _ _ E1).
  unfold memory in Hm.
  assert (Hs1 : serverState w1 = registryOf w) by (change (registryOf w) with (serverState w0); congruence).
  assert (Hf1 : stateFile w1 = stateFile w) by (change (stateFile w) with (stateFile w0); congruence).
  assert (Hh1 : pm2Home w1 = pm2Home w) by (change (pm2Home w) with (pm2Home w0); congruence).
  change (logFiles w0) with (logFiles w) in Hfiles.
  change (journal w0) with (journal w) in Hp.
  set (tail := fun _ : unit =>
         bind (tryCatch
                 (bind (runPm2 (PmLogs nm 100 StreamAll)) (fun stdout =>
                  ret (Discovery.urlInfo (lf (stdoutText stdout)) (stdoutText stdout))))
                 (ret EmptyString))
           (fun urlInfo => ret ("Server '" +:+ nm +:+ "' started" +:+ urlInfo)%string)).
  assert (Htail : ∀ v, stateFile (snd (tail tt v)) = stateFile v
                       ∧ persistsOf (journal (snd (tail tt v))) = persistsOf (journal v)).
  { intros v.
    apply (preserves_apply
             (fun v' => stateFile v' = stateFile v
                        ∧ persistsOf (journal v') = persistsOf (journal v))); [|auto].
    assert (HQ : Quiet (fun v' => stateFile v' = stateFile v
                                  ∧ persistsOf (journal v') = persistsOf (journal v))).
    { split.
      - intros c0 d e v' [H1 H2]. split; [exact H1|]. simpl.
        rewrite persistsOf_app, H2. simpl. apply app_nil_r.
      - intros c0 v' out v'' _ Estep [H1 H2].
        pose proof (memory_pm2Step _ _ _ _ Estep) as Hmem.
        pose proof (journal_pm2Step _ _ _ _ Estep) as Hj.
        unfold memory in Hmem. split; [congruence | rewrite Hj; exact H2]. }
    unfold tail. apply preserves_bind; [|intros; apply preserves_ret].
    apply preserves_tryCatch; [|apply preserves_ret].
    apply preserves_bind; [apply quiet_runPm2; [exact HQ | reflexivity]|].
    intros; apply preserves_ret. }
  destruct (logFiles w !! getPm2LogPath (pm2Home w) nm false) as [content|] eqn:Hfile.
  - set (stored := <[nm := withLogOffset (Some (Z.of_nat (String.length content))) c]>
                     (registryOf w)).
    set (w2 := record (EvPersist stored)
                 (setStateFile (Some stored) (setServerState stored w1))).
    assert (E2 : tryCatch
                   (bind (gets pm2Home) (fun home =>
                    bind (statSize (getPm2LogPath home nm false)) (fun size =>
                    bind (assignLogOffset nm size) (fun _ => persistState))))
                   (ret tt) w1 = (Ok tt, w2)).
    { apply tryCatch_ok.
      rewrite (bind_ok (gets pm2Home) _ w1 (pm2Home w1) w1) by reflexivity.
      assert (Hstat : statSize (getPm2LogPath (pm2Home w1) nm false) w1
                      = (Ok (Z.of_nat (String.length content)), w1)).
      { unfold statSize. rewrite Hh1, Hfiles, Hfile. reflexivity. }
      rewrite (bind_ok _ _ _ _ _ Hstat).
      assert (Hassign : assignLogOffset nm (Z.of_nat (String.length content)) w1
                        = (Ok tt, setServerState stored w1)).
      { unfold assignLogOffset, getProperty. rewrite Hs1, Hreg. reflexivity. }
      rewrite (bind_ok _ _ _ _ _ Hassign). reflexivity. }
    rewrite (bind_ok _ _ _ _ _ E2).
    destruct (Htail w2) as [Ht1 Ht2]. fold (tail tt). rewrite Ht1, Ht2.
    simpl. rewrite persistsOf_app, Hp. auto.
  - assert (E2 : tryCatch
                   (bind (gets pm2Home) (fun home =>
                    bind (statSize (getPm2LogPath home nm false)) (fun size =>
                    bind (assignLogOffset nm size) (fun _ => persistState))))
                   (ret tt) w1 = (Ok tt, w1)).
    { unfold tryCatch.
      rewrite (bind_ok (gets pm2Home) _ w1 (pm2Home w1) w1) by reflexivity.
      assert (Hstat : statSize (getPm2LogPath (pm2Home w1) nm false) w1 = (Throw "ENOENT", w1)).
      { unfold statSize. rewrite Hh1, Hfiles, Hfile. reflexivity. }
      rewrite (bind_throw _ _ _ _ _ Hstat). reflexivity. }
    rewrite (bind_ok _ _ _ _ _ E2).
    destruct (Htail w1) as [Ht1 Ht2]. fold (tail tt). rewrite Ht1, Ht2. auto.
Qed.

Lemma start_captures_the_log_offset_witness :
  let w := worldWith {[ "web"%string := webConfig ]} []
             {[ "/home/dev/.pm2/logs/web-out.log"%string := "booting"%string ]} in
  registryOf w !! "web"%string = Some webConfig
  ∧ fst (startPm2Process webConfig w) = Ok tt
  ∧ stateFile (snd (startManagedProcess (fun _ => []) "web" w))
    = Some {[ "web"%string := withLogOffset (Some 7) webConfig ]}.
Proof.
  intros w. split; [reflexivity|]. split; [reflexivity|].
  destruct (start_captures_the_log_offset (fun _ => []) "web" w webConfig eq_refl)
    as [H _].
  destruct (H eq_refl) as [_ H'].
  change (logFiles w !! getPm2LogPath (pm2Home w) "web" false)
    with (Some "booting"%string) in H'.
  destruct H' as [H' _]. cbv zeta in H'. etransitivity; [exact H' | reflexivity].
Defined.

(** ** The restart handler *)

Lemma flush_step nm w :
  ∃ wf,
    tryCatch (bind (runPm2 (PmFlush nm)) (fun _ => ret tt)) (ret tt) w = (Ok tt, wf)
    ∧ memory wf = memory w
    ∧ journal wf = journal w ++ [execEvent (PmFlush nm)]
    ∧ pm2List wf = pm2List w
    ∧ pm2Online wf = pm2Online w
    ∧ logFiles wf
      = (if pm2Online w
         then truncateFile (getPm2LogPath (pm2Home w) nm false)
                (truncateFile (getPm2LogPath (pm2Home w) nm true) (logFiles w))
         else logFiles w).
Proof.
  unfold tryCatch, bind, runPm2, pm2Step. simpl.
  destruct (pm2Online w) eqn:Hon; simpl; eexists; (split; [reflexivity|]);
    simpl; rewrite ?Hon; repeat split.
Qed.

Lemma restart_step nm w :
  let r := restartPm2Process nm w in
  memory (snd r) = memory w
  ∧ logFiles (snd r) = logFiles w
  ∧ journal (snd r) = journal w ++ [execEvent (PmRestart nm)]
  ∧ (if pm2Online w && existsb (named nm) (pm2List w)
     then fst r = Ok tt ∧ pm2List (snd r) = setStatus nm "online" (pm2List w)
     else fst r = Throw "Command failed" ∧ pm2List (snd r) = pm2List w).
Proof.
  unfold restartPm2Process, bind, runPm2, pm2Step. simpl.
  destruct (pm2Online w); simpl; [|repeat split].
  destruct (existsb (named nm) (pm2List w)); simpl; repeat split.
Qed.

(** X6. The restart handler does not swallow a failure of [pm2 restart]:
    when the supervisor does not answer or holds no process of that name,
    the handler throws, having issued the flush and the restart command,
    and writes nothing to the state file. *)
Theorem restart_propagates_the_failure nm w :
  pm2Online w && existsb (named nm) (pm2List w) = false →
  let r := restartManagedProcess nm w in
  fst r = Throw "Command failed"
  ∧ commandsOf (journal (snd r))
    = commandsOf (journal w) ++ ["pm2 flush " +:+ nm; "pm2 restart " +:+ nm]%string
  ∧ persistsOf (journal (snd r)) = persistsOf (journal w)
  ∧ stateFile (snd r) = stateFile w
  ∧ pm2List (snd r) = pm2List w.
Proof.
  intros Hfail r. subst r. unfold restartManagedProcess.
  rewrite (bind_ok loadState _ w tt (setServerState (registryOf w) w)) by reflexivity.
  set (w0 := setServerState (registryOf w) w).
  destruct (flush_step nm w0) as (wf & Ef & Hm & Hj & Hl & Hon & _).
  rewrite (bind_ok _ _ _ _ _ Ef).
  pose proof (restart_step nm wf) as R. cbv zeta in R.
  rewrite Hon, Hl in R. change (pm2Online w0) with (pm2Online w) in R.
  change (pm2List w0) with (pm2List w) in R. rewrite Hfail in R.
  destruct R as (Rm & _ & Rj & Rf & Rl).
  destruct (restartPm2Process nm wf) as [[[]|e] w2] eqn:E; simpl in Rm, Rj, Rf, Rl;
    [discriminate|].
  rewrite (bind_throw _ _ _ _ _ E). simpl.
  split; [inversion Rf; reflexivity|].
  rewrite Rj, Hj. unfold memory in Rm, Hm.
  split; [rewrite !commandsOf_app; simpl; rewrite <- app_assoc; reflexivity|].
  split; [rewrite !persistsOf_app; simpl; rewrite !app_nil_r; reflexivity|].
  split; [change (stateFile w) with (stateFile w0); congruence | exact Rl].
Qed.

Lemma restart_propagates_the_failure_witness :
  pm2Online bootWorld && existsb (named "web") (pm2List bootWorld) = false
  ∧ fst (restartManagedProcess "web" bootWorld) = Throw "Command failed".
Proof.
  split; [reflexivity|].
  destruct (restart_propagates_the_failure "web" bootWorld eq_refl) as [E _]. exact E.
Defined.

(** X7. A restart that the supervisor carries out returns normally, with
    the descriptors of the name online and both log files of the name
    flushed.  If the name is registered and its standard-output log
    exists, the size of that just-flushed file, zero, becomes the entry's
    [logOffset] and the registry is written; if the log does not exist,
    or the name has no property in the registry, nothing is written. *)
Theorem restart_flushes_and_resets_the_offset nm w :
  pm2Online w = true → existsb (named nm) (pm2List w) = true →
  let r := restartManagedProcess nm w in
  let outLog := getPm2LogPath (pm2Home w) nm false in
  fst r = Ok ("Server '" +:+ nm +:+ "' restarted (logs flushed)")%string
  ∧ pm2List (snd r) = setStatus nm "online" (pm2List w)
  ∧ logFiles (snd r)
    = truncateFile outLog (truncateFile (getPm2LogPath (pm2Home w) nm true) (logFiles w))
  ∧ (∀ c content, registryOf w !! nm = Some c → logFiles w !! outLog = Some content →
       stateFile (snd r) = Some (<[nm := withLogOffset (Some 0) c]> (registryOf w))
       ∧ logFiles (snd r) !! outLog = Some EmptyString)
  ∧ (logFiles w !! outLog = None ∨ getProperty (registryOf w) nm = None →
       stateFile (snd r) = stateFile w
       ∧ persistsOf (journal (snd r)) = persistsOf (journal w)).
Proof.
  intros Hon Hex r outLog. subst r. unfold restartManagedProcess.
  rewrite (bind_ok loadState _ w tt (setServerState (registryOf w) w)) by reflexivity.
  set (w0 := setServerState (registryOf w) w).
  destruct (flush_step nm w0) as (wf & Ef & Hm & Hj & Hl & Hon1 & Hfiles).
  rewrite (bind_ok _ _ _ _ _ Ef).
  change (pm2Online w0) with (pm2Online w) in Hfiles, Hon1. rewrite Hon in Hfiles, Hon1.
  change (pm2Home w0) with (pm2Home w) in Hfiles. change (logFiles w0) with (logFiles w) in Hfiles.
  fold outLog in Hfiles.
  pose proof (restart_step nm wf) as R. cbv zeta in R.
  rewrite Hon1, Hl in R. change (pm2List w0) with (pm2List w) in R. rewrite Hex in R.
  destruct R as (Rm & Rfiles & Rj & Rf & Rl).
  destruct (restartPm2Process nm wf) as [[[]|e] w2] eqn:E;
    simpl in Rm, Rfiles, Rj, Rf, Rl; [|discriminate].
  rewrite (bind_ok _ _ _ _ _ E).
  unfold memory in Rm, Hm.
  assert (Hs2 : serverState w2 = registryOf w)
    by (change (registryOf w) with (serverState w0); congruence).
  assert (Hf2 : stateFile w2 = stateFile w)
    by (change (stateFile w) with (stateFile w0); congruence).
  assert (Hh2 : pm2Home w2 = pm2Home w)
    by (change (pm2Home w) with (pm2Home w0); congruence).
  assert (Hfiles2 : logFiles w2
            = truncateFile outLog
                (truncateFile (getPm2LogPath (pm2Home w) nm true) (logFiles w)))
    by congruence.
  assert (Hp2 : persistsOf (journal w2) = persistsOf (journal w)).
  { rewrite Rj, Hj, !persistsOf_app. simpl. rewrite !app_nil_r. reflexivity. }
  assert (Hout : logFiles w2 !! outLog
                 = match logFiles w !! outLog with Some _ => Some EmptyString | None => None end).
  { rewrite Hfiles2. unfold truncateFile at 1.
    assert (Hinner : truncateFile (getPm2LogPath (pm2Home w) nm true) (logFiles w) !! outLog
                     = logFiles w !! outLog).
    { unfold truncateFile.
      destruct (logFiles w !! getPm2LogPath (pm2Home w) nm true); [|reflexivity].
      apply lookup_insert_ne. unfold outLog, getPm2LogPath.
      intros Heq. apply (f_equal String.length) in Heq.
      assert (Hlen : ∀ a b, String.length (a +:+ b) = (String.length a + String.length b)%nat).
      { clear. induction a as [|ch a IH]; intros b; [reflexivity|].
        rewrite append_cons. simpl. rewrite IH. reflexivity. }
      rewrite !Hlen in Heq. simpl in Heq. lia. }
    rewrite Hinner. destruct (logFiles w !! outLog); [apply lookup_insert_eq | exact Hinner]. }
  set (capture :=
         tryCatch
           (bind (gets pm2Home) (fun home =>
            bind (statSize (getPm2LogPath home nm false)) (fun size =>
            bind (gets serverState) (fun reg =>
            match getProperty reg nm with
            | Some _ => bind (assignLogOffset nm size) (fun _ => persistState)
            | None => ret tt
            end))))
           (ret tt)).
  assert (Hcases :
    (∀ c content, registryOf w !! nm = Some c → logFiles w !! outLog = Some content →
       capture w2
       = (Ok tt,
          record (EvPersist (<[nm := withLogOffset (Some 0) c]> (registryOf w)))
            (setStateFile (Some (<[nm := withLogOffset (Some 0) c]> (registryOf w)))
               (setServerState (<[nm := withLogOffset (Some 0) c]> (registryOf w)) w2))))
    ∧ (logFiles w !! outLog = None ∨ getProperty (registryOf w) nm = None →
       capture w2 = (Ok tt, w2))).
  { split.
    - intros c content Hc Hfile. unfold capture. apply tryCatch_ok.
      rewrite (bind_ok (gets pm2Home) _ w2 (pm2Home w2) w2) by reflexivity.
      assert (Hstat : statSize (getPm2LogPath (pm2Home w2) nm false) w2 = (Ok 0, w2)).
      { unfold statSize. rewrite Hh2. fold outLog. rewrite Hout, Hfile. reflexivity. }
      rewrite (bind_ok _ _ _ _ _ Hstat).
      rewrite (bind_ok (gets serverState) _ w2 (serverState w2) w2) by reflexivity.
      rewrite Hs2. unfold getProperty at 1. rewrite Hc.
      assert (Hassign : assignLogOffset nm 0 w2
                = (Ok tt, setServerState (<[nm := withLogOffset (Some 0) c]> (registryOf w)) w2)).
      { unfold assignLogOffset, getProperty. rewrite Hs2, Hc. reflexivity. }
      rewrite (bind_ok _ _ _ _ _ Hassign). reflexivity.
    - intros Hor. unfold capture, tryCatch.
      rewrite (bind_ok (gets pm2Home) _ w2 (pm2Home w2) w2) by reflexivity.
      destruct (logFiles w !! outLog) as [content|] eqn:Hfile.
      + destruct Hor as [Hor|Hor]; [discriminate|].
        assert (Hstat : statSize (getPm2LogPath (pm2Home w2) nm false) w2 = (Ok 0, w2)).
        { unfold statSize. rewrite Hh2. fold outLog. rewrite Hout. reflexivity. }
        rewrite (bind_ok _ _ _ _ _ Hstat).
        rewrite (bind_ok (gets serverState) _ w2 (serverState w2) w2) by reflexivity.
        rewrite Hs2, Hor. reflexivity.
      + assert (Hstat : statSize (getPm2LogPath (pm2Home w2) nm false) w2
                        = (Throw "ENOENT", w2)).
        { unfold statSize. rewrite Hh2. fold outLog. rewrite Hout. reflexivity. }
        rewrite (bind_throw _ _ _ _ _ Hstat). reflexivity. }
  destruct Hcases as [Hyes Hno].
  assert (Hcap : ∃ w3, capture w2 = (Ok tt, w3)
                       ∧ pm2List w3 = pm2List w2 ∧ logFiles w3 = logFiles w2).
  { destruct (logFiles w !! outLog) as [content|] eqn:Hfile.
    - destruct (registryOf w !! nm) as [c|] eqn:Hc.
      + eexists. split; [apply (Hyes c content eq_refl eq_refl)|]. split; reflexivity.
      + destruct (getProperty (registryOf w) nm) as [slot|] eqn:Hslot.
        * unfold getProperty in Hslot. rewrite Hc in Hslot.
          destruct (bool_decide (nm ∈ objectPrototypeKeys)) eqn:Hb; [|discriminate].
          inversion Hslot; subst slot.
          exists (record (EvPersist (serverState w2))
                    (setStateFile (Some (serverState w2))
                       (setBuiltinOffsets (<[nm := 0]> (builtinOffsets w2)) w2))).
          split; [|split; reflexivity].
          unfold capture. apply tryCatch_ok.
          rewrite (bind_ok (gets pm2Home) _ w2 (pm2Home w2) w2) by reflexivity.
          assert (Hstat : statSize (getPm2LogPath (pm2Home w2) nm false) w2 = (Ok 0, w2)).
          { unfold statSize. rewrite Hh2. fold outLog. rewrite Hout. reflexivity. }
          rewrite (bind_ok _ _ _ _ _ Hstat).
          rewrite (bind_ok (gets serverState) _ w2 (serverState w2) w2) by reflexivity.
          assert (Hslot2 : getProperty (serverState w2) nm = Some (Inherited nm)).
          { unfold getProperty. rewrite Hs2, Hc, Hb. reflexivity. }
          rewrite Hslot2.
          assert (Hassign : assignLogOffset nm 0 w2
                    = (Ok tt, setBuiltinOffsets (<[nm := 0]> (builtinOffsets w2)) w2)).
          { unfold assignLogOffset. rewrite Hslot2. reflexivity. }
          rewrite (bind_ok _ _ _ _ _ Hassign). reflexivity.
        * exists w2. split; [apply Hno; auto | split; reflexivity].
    - exists w2. split; [apply Hno; auto | split; reflexivity]. }
  destruct Hcap as (w3 & E3 & Hl3 & Hfiles3).
  fold capture. rewrite (bind_ok _ _ _ _ _ E3). simpl.
  split; [reflexivity|]. split; [congruence|]. split; [congruence|]. split.
  - intros c content Hc Hfile. rewrite (Hyes c content Hc Hfile) in E3.
    inversion E3; subst w3. simpl. split; [reflexivity|].
    rewrite Hout, Hfile. reflexivity.
  - intros Hor. rewrite (Hno Hor) in E3. inversion E3; subst w3. auto.
Qed.

Lemma restart_flushes_and_resets_the_offset_witness :
  let w := worldWith {[ "web"%string := withLogOffset (Some 40) webConfig ]}
             [mkProc "web" (Some "online"%string)]
             {[ "/home/dev/.pm2/logs/web-out.log"%string := "old output"%string ]} in
  pm2Online w = true
  ∧ existsb (named "web") (pm2List w) = true
  ∧ stateFile (snd (restartManagedProcess "web" w))
    = Some {[ "web"%string := withLogOffset (Some 0) webConfig ]}.
Proof.
  intros w. split; [reflexivity|]. split; [reflexivity|].
  destruct (restart_flushes_and_resets_the_offset "web" w eq_refl eq_refl)
    as (_ & _ & _ & H & _).
  destruct (H (withLogOffset (Some 40) webConfig) "old output"%string eq_refl eq_refl)
    as [E _].
  rewrite E. reflexivity.
Defined.

(** ** Register, update and delete *)

(** X8. Registration stores the config under its name, without a
    [logOffset] and in place of any entry the name had, and writes the
    registry before the supervisor is contacted.  So the entry is on disk
    whatever happens next: without [startImmediately] no command is
    issued; with it the handler returns normally exactly when its run of
    the reconciler does, and a failed start throws without taking the
    registration back. *)
Theorem register_persists_before_starting params startImmediately w :
  r_name params ≠ "__proto__"%string →
  let config :=
    mkConfig (Some (r_name params)) (Some (r_script params)) (r_cwd params)
             (r_args params) (r_env params) (r_interpreter params)
             (r_instances params) (r_watch params) (r_autorestart params) None in
  let stored := <[r_name params := config]> (registryOf w) in
  let r := registerManagedProcess params startImmediately w in
  stateFile (snd r) = Some stored
  ∧ registryOf (snd r) !! r_name params = Some config
  ∧ (∀ k, k ≠ r_name params → registryOf (snd r) !! k = registryOf w !! k)
  ∧ persistsOf (journal (snd r)) = persistsOf (journal w) ++ [stored]
  ∧ (startImmediately = false →
     commandsOf (journal (snd r)) = commandsOf (journal w) ∧ ∃ text, fst r = Ok text)
  ∧ (startImmediately = true →
     match fst (startPm2Process config w) with
     | Ok _ => fst r = Ok ("Server '" +:+ r_name params +:+ "' registered and started")%string
     | Throw e => fst r = Throw e
     end).
Proof.
  intros Hname config stored r. subst r. unfold registerManagedProcess.
  rewrite (bind_ok loadState _ w tt (setServerState (registryOf w) w)) by reflexivity.
  set (w0 := setServerState (registryOf w) w).
  fold config.
  assert (Hset : setProperty (r_name params) config (registryOf w) = stored).
  { unfold setProperty, stored. destruct (registryOf w !! r_name params); [reflexivity|].
    destruct (String.eqb (r_name params) "__proto__") eqn:E; [|reflexivity].
    apply String.eqb_eq in E. contradiction. }
  set (w2 := record (EvPersist stored) (setStateFile (Some stored) (setServerState stored w0))).
  assert (E1 : modify (fun v => setServerState (setProperty (r_name params) config (serverState v)) v) w0
               = (Ok tt, setServerState stored w0)).
  { unfold modify. simpl. rewrite Hset. reflexivity. }
  rewrite (bind_ok _ _ _ _ _ E1).
  rewrite (bind_ok persistState _ (setServerState stored w0) tt w2) by reflexivity.
  assert (Hgoal : ∀ v (out : Outcome string),
            Untouched w2 v →
            (startImmediately = false → v = w2 ∧ ∃ text, out = Ok text) →
            (startImmediately = true →
             match fst (startPm2Process config w) with
             | Ok _ => out = Ok ("Server '" +:+ r_name params +:+ "' registered and started")%string
             | Throw e => out = Throw e
             end) →
            stateFile v = Some stored
            ∧ registryOf v !! r_name params = Some config
            ∧ (∀ k, k ≠ r_name params → registryOf v !! k = registryOf w !! k)
            ∧ persistsOf (journal v) = persistsOf (journal w) ++ [stored]
            ∧ (startImmediately = false →
               commandsOf (journal v) = commandsOf (journal w) ∧ ∃ text, out = Ok text)
            ∧ (startImmediately = true →
               match fst (startPm2Process config w) with
               | Ok _ => out = Ok ("Server '" +:+ r_name params +:+ "' registered and started")%string
               | Throw e => out = Throw e
               end)).
  { intros v out (Hm & _ & _ & _ & Hp) Hno Hyes. unfold memory in Hm.
    assert (Hf : stateFile v = Some stored) by (change (Some stored) with (stateFile w2); congruence).
    split; [exact Hf|]. unfold registryOf at 1 2. rewrite Hf. simpl.
    split; [apply lookup_insert_eq|].
    split; [intros k Hk; apply lookup_insert_ne; congruence|].
    split.
    { rewrite Hp. simpl. rewrite persistsOf_app. reflexivity. }
    split; [|exact Hyes].
    intros Hs. destruct (Hno Hs) as [-> Hout]. split; [|exact Hout].
    simpl. rewrite commandsOf_app. simpl. apply app_nil_r. }
  destruct startImmediately.
  - pose proof (startPm2Process_untouched config w2) as Hu.
    assert (Hfst : fst (startPm2Process config w2) = fst (startPm2Process config w))
      by (apply startPm2Process_outcome; reflexivity).
    destruct (startPm2Process config w2) as [[[]|e] v] eqn:E; simpl in Hu, Hfst.
    + rewrite (bind_ok _ _ _ _ _ E). simpl. apply (Hgoal v _ Hu); [discriminate|].
      intros _. rewrite <- Hfst. reflexivity.
    + rewrite (bind_throw _ _ _ _ _ E). simpl. apply (Hgoal v _ Hu); [discriminate|].
      intros _. rewrite <- Hfst. reflexivity.
  - rewrite (bind_ok (ret tt) _ w2 tt w2) by reflexivity. simpl.
    apply (Hgoal w2 _ (untouched_refl w2)); [|discriminate].
    intros _. split; [reflexivity | eexists; reflexivity].
Qed.

Lemma register_persists_before_starting_witness :
  let params := mkParams "web" "server.js" None None None None None None None in
  let w := offlineWorld None in
  r_name params ≠ "__proto__"%string
  ∧ fst (registerManagedProcess params true w) = Throw "Command failed"
  ∧ registryOf (snd (registerManagedProcess params true w)) !! "web"%string = Some webConfig.
Proof.
  intros params w.
  assert (H : r_name params ≠ "__proto__"%string) by discriminate.
  split; [exact H|].
  destruct (register_persists_before_starting params true w H)
    as (_ & Hreg & _ & _ & _ & Hthrow).
  split; [exact (Hthrow eq_refl) | exact Hreg].
Defined.

(** A registration that starts at once in a working directory that does
    not exist: the supervisor answers, but [exec] cannot spawn, so the
    handler throws; the entry is registered all the same. *)
Lemma register_in_a_missing_directory :
  let params := mkParams "web" "server.js" (Some "/no/such/dir"%string)
                         None None None None None None in
  let w := mkWorld ∅ None true [] (fun _ => None) (fun _ => Some "online"%string)
                   (fun _ => false) "/home/dev/.pm2" ∅ ∅ [] in
  let r := registerManagedProcess params true w in
  pm2Online w = true
  ∧ fst r = Throw "Command failed"
  ∧ pm2List (snd r) = []
  ∧ is_Some (registryOf (snd r) !! "web"%string).
Proof.
  intros params w r.
  split; [reflexivity|]. split; [reflexivity|]. split; [reflexivity|].
  eexists. reflexivity.
Qed.

(** X9. An update with [applyToPm2] while the supervisor does not answer
    throws, but only after the merged config has been written: the state
    file holds the update although the handler failed. *)
Theorem update_is_kept_when_the_restart_fails nm updates w existing :
  registryOf w !! nm = Some existing → pm2Online w = false →
  let r := updateManagedProcess nm updates true w in
  fst r = Throw "Command failed"
  ∧ stateFile (snd r) = Some (<[nm := mergeConfig existing updates nm]> (registryOf w))
  ∧ pm2List (snd r) = pm2List w.
Proof.
  intros Hreg Hoff r. subst r. unfold updateManagedProcess.
  rewrite (bind_ok loadState _ w tt (setServerState (registryOf w) w)) by reflexivity.
  set (w0 := setServerState (registryOf w) w).
  rewrite (bind_ok (gets serverState) _ w0 (registryOf w) w0) by reflexivity.
  unfold getProperty. rewrite Hreg. simpl spreadSlot.
  set (updated := mergeConfig existing updates nm).
  set (stored := <[nm := updated]> (registryOf w)).
  set (w2 := record (EvPersist stored) (setStateFile (Some stored) (setServerState stored w0))).
  assert (E1 : modify (fun v => setServerState (setProperty nm updated (serverState v)) v) w0
               = (Ok tt, setServerState stored w0)).
  { unfold modify, setProperty. simpl. rewrite Hreg. reflexivity. }
  rewrite (bind_ok _ _ _ _ _ E1).
  rewrite (bind_ok persistState _ (setServerState stored w0) tt w2) by reflexivity.
  pose proof (delete_then_start updated nm w2 eq_refl) as D. cbv zeta in D.
  assert (Hc : creates updated w2 = false) by (apply creates_offline; exact Hoff).
  unfold additions in D. rewrite Hc in D.
  change (pm2Online w2) with (pm2Online w) in D. rewrite Hoff in D.
  rewrite app_nil_r in D.
  destruct D as (Dm & _ & Do & Dl).
  destruct (bind (deletePm2Process nm) (fun _ => startPm2Process updated) w2)
    as [[[]|e] v] eqn:E; simpl in Dm, Do, Dl; [discriminate|].
  rewrite (bind_throw _ _ _ _ _ E). simpl.
  split; [inversion Do; reflexivity|].
  unfold memory in Dm. split; [change (Some stored) with (stateFile w2); congruence | exact Dl].
Qed.

Lemma update_is_kept_when_the_restart_fails_witness :
  let w := offlineWorld (Some {[ "web"%string := webConfig ]}) in
  let updates := mkUpdates (Some "app.js"%string) None None None None None None None in
  registryOf w !! "web"%string = Some webConfig
  ∧ pm2Online w = false
  ∧ fst (updateManagedProcess "web" updates true w) = Throw "Command failed"
  ∧ (script <$> registryOf (snd (updateManagedProcess "web" updates true w)) !! "web"%string)
    = Some (Some "app.js"%string).
Proof.
  intros w updates. split; [reflexivity|]. split; [reflexivity|].
  destruct (update_is_kept_when_the_restart_fails "web" updates w webConfig eq_refl eq_refl)
    as (E & Hf & _).
  split; [exact E|]. unfold registryOf. rewrite Hf. reflexivity.
Defined.



(** ** Stop, describe and the two status requests *)

(** X11. The stop handler always returns normally, registered name or
    not: it issues the one command [pm2 stop nm], whose failure it
    swallows, never reads or writes the registry, and leaves the log files
    alone; when the supervisor holds processes of that name they end up
    stopped, and otherwise the process table is unchanged. *)
Theorem stop_is_best_effort nm w :
  let r := stopManagedProcess nm w in
  fst r = Ok ("Server '" +:+ nm +:+ "' stopped")%string
  ∧ journal (snd r) = journal w ++ [EvExec ("pm2 stop " +:+ nm)%string None ∅]
  ∧ memory (snd r) = memory w
  ∧ logFiles (snd r) = logFiles w
  ∧ pm2List (snd r)
    = (if pm2Online w && existsb (named nm) (pm2List w)
       then setStatus nm "stopped" (pm2List w)
       else pm2List w)
  ∧ length (pm2List (snd r)) = length (pm2List w).
Proof.
  cbv zeta. unfold stopManagedProcess, stopPm2Process, tryCatch, bind, runPm2, pm2Step. simpl.
  destruct (pm2Online w); simpl; [|repeat split].
  destruct (existsb (named nm) (pm2List w)); simpl; repeat split.
  unfold setStatus. apply length_map.
Qed.

(** X12. Describe passes the supervisor's text through unchanged and
    propagates its failure: it returns what [pm2 describe nm] printed when
    the supervisor answers and the command succeeds, and throws otherwise;
    either way it issues that one command and touches neither the
    registry nor the process table. *)
Theorem describe_is_a_passthrough nm w :
  let r := describeManagedProcess nm w in
  fst r = match (if pm2Online w then pm2Output w ("pm2 describe " +:+ nm)%string else None) with
          | Some text => Ok text
          | None => Throw "Command failed"
          end
  ∧ journal (snd r) = journal w ++ [EvExec ("pm2 describe " +:+ nm)%string None ∅]
  ∧ memory (snd r) = memory w
  ∧ pm2List (snd r) = pm2List w
  ∧ logFiles (snd r) = logFiles w.
Proof.
  cbv zeta. unfold describeManagedProcess, describePm2Process, bind, runPm2, pm2Step. simpl.
  destruct (pm2Online w); simpl; [|repeat split].
  destruct (pm2Output w ("pm2 describe " +:+ nm)%string); simpl; repeat split.
Qed.

Lemma filter_named_all nm l :
  Forall (fun p => p_name p = nm) (filter (fun p => sameName (Some nm) p = true) l).
Proof.
  induction l as [|p l IH]; [constructor|].
  rewrite filter_cons. destruct (decide (sameName (Some nm) p = true)) as [E|E]; [|exact IH].
  constructor; [|exact IH]. apply String.eqb_eq. exact E.
Qed.

(** X13. The supervisor status never throws and changes nothing: with
    the supervisor down it answers "not available"; with it up, and every
    descriptor of the table carrying a status, it lists the whole process
    table when no name (or the empty name) is given, and otherwise exactly
    the processes of the given name, in table order. *)
Theorem pm2_status_is_total processName w :
  let r := getPm2Status processName w in
  memory (snd r) = memory w
  ∧ pm2List (snd r) = pm2List w
  ∧ logFiles (snd r) = logFiles w
  ∧ journal (snd r) = journal w ++ [EvExec "pm2 jlist" None ∅]
  ∧ (pm2Online w = false → fst r = Ok None)
  ∧ (pm2Online w = true → Forall (fun p => p_status p ≠ None) (pm2List w) →
     Js.truthyStr processName = false → fst r = Ok (Some (pm2List w)))
  ∧ (pm2Online w = true → Forall (fun p => p_status p ≠ None) (pm2List w) →
     ∀ nm, processName = Some nm → nm ≠ EmptyString →
       ∃ listed,
         fst r = Ok (Some listed)
         ∧ listed = filter (fun p => p_name p = nm) (pm2List w)
         ∧ Forall (fun p => p_name p = nm) listed).
Proof.
  cbv zeta. unfold getPm2Status, tryCatch, bind, runPm2, pm2Step, jsonParse, ret. simpl.
  destruct (pm2Online w) eqn:Hon; simpl.
  2: { repeat split; try discriminate. }
  repeat split; try discriminate.
  - intros _ _ Hf. rewrite Hf. reflexivity.
  - intros _ _ nm -> Hne.
    assert (Ht : Js.truthyStr (Some nm) = true).
    { simpl. destruct (String.eqb nm EmptyString) eqn:E; [|reflexivity].
      apply String.eqb_eq in E. contradiction. }
    rewrite Ht. eexists. split; [reflexivity|].
    split; [|apply filter_named_all].
    induction (pm2List w) as [|p l IH]; [reflexivity|].
    rewrite !filter_cons, IH.
    destruct (decide (sameName (Some nm) p = true)) as [E|E];
      destruct (decide (p_name p = nm)) as [E'|E']; try reflexivity.
    + exfalso. apply E'. apply String.eqb_eq. exact E.
    + exfalso. apply E. apply String.eqb_eq. exact E'.
Qed.

Lemma pm2_status_is_total_witness :
  let w := worldWith ∅ [mkProc "web" (Some "online"%string); mkProc "api" (Some "stopped"%string)] ∅ in
  pm2Online w = true
  ∧ Forall (fun p => p_status p ≠ None) (pm2List w)
  ∧ "api"%string ≠ EmptyString
  ∧ fst (getPm2Status (Some "api"%string) w) = Ok (Some [mkProc "api" (Some "stopped"%string)]).
Proof.
  intros w.
  assert (Hall : Forall (fun p => p_status p ≠ None) (pm2List w))
    by (repeat constructor; discriminate).
  split; [reflexivity|]. split; [exact Hall|]. split; [discriminate|].
  destruct (pm2_status_is_total (Some "api"%string) w) as (_ & _ & _ & _ & _ & _ & H).
  destruct (H eq_refl Hall "api"%string eq_refl ltac:(discriminate)) as (listed & E & -> & _).
  exact E.
Defined.

Lemma find_rev_none {A} (f : A → bool) l : find f l = None → find f (rev l) = None.
Proof.
  intros H. apply find_existsb. apply find_existsb in H.
  destruct (existsb f (rev l)) eqn:E; [|reflexivity].
  apply existsb_exists in E as (x & Hin & Hx). apply in_rev in Hin.
  assert (existsb f l = true) by (apply existsb_exists; eauto). congruence.
Qed.

(** X14. The listing never throws and writes nothing.  It returns one row
    per registry entry, carrying the entry's name, script and cwd; the
    status of a row is ["stopped"] whenever the supervisor does not answer
    or reports no process of the entry's name, and otherwise the status of
    the last such process in the supervisor's list (["stopped"] again if
    that status is missing or empty). *)
Theorem listing_joins_registry_and_supervisor w :
  let r := getManagedProcesses w in
  ∃ rows,
    fst r = Ok rows
    ∧ length rows = size (registryOf w)
    ∧ stateFile (snd r) = stateFile w
    ∧ pm2List (snd r) = pm2List w
    ∧ journal (snd r) = journal w ++ [EvExec "pm2 jlist" None ∅]
    ∧ (∀ k c, registryOf w !! k = Some c →
       ∃ row,
         row ∈ rows
         ∧ row_name row = name c ∧ row_script row = script c ∧ row_cwd row = cwd c
         ∧ (pm2Online w = false ∨ find (sameName (name c)) (pm2List w) = None →
            row_status row = "stopped"%string)
         ∧ (∀ p status,
              pm2Online w = true →
              find (sameName (name c)) (rev (pm2List w)) = Some p →
              p_status p = Some status → status ≠ EmptyString →
              row_status row = status))
    ∧ (∀ row, row ∈ rows → ∃ k c, registryOf w !! k = Some c ∧ row_name row = name c).
Proof.
  cbv zeta. unfold getManagedProcesses.
  rewrite (bind_ok loadState _ w tt (setServerState (registryOf w) w)) by reflexivity.
  set (w0 := setServerState (registryOf w) w).
  set (processes := if pm2Online w then pm2List w else []).
  assert (E1 : tryCatch (bind (runPm2 PmJlist) (fun stdout => jsonParse stdout)) (ret []) w0
               = (Ok processes, record (execEvent PmJlist) w0)).
  { unfold tryCatch, bind, runPm2, pm2Step, jsonParse, ret, processes. simpl.
    destruct (pm2Online w); reflexivity. }
  rewrite (bind_ok _ _ _ _ _ E1).
  rewrite (bind_ok (gets serverState) _ _ (registryOf w) (record (execEvent PmJlist) w0))
    by reflexivity.
  eexists. split; [reflexivity|].
  split; [rewrite length_map; apply length_map_to_list|].
  split; [reflexivity|]. split; [reflexivity|]. split; [reflexivity|]. split.
  - intros k c Hc. eexists. split.
    { apply list_elem_of_fmap. exists (k, c). split; [reflexivity|].
      apply elem_of_map_to_list. exact Hc. }
    simpl. split; [reflexivity|]. split; [reflexivity|]. split; [reflexivity|]. split.
    + intros Hnone.
      assert (Hf : find (sameName (name c)) (rev processes) = None).
      { unfold processes. destruct Hnone as [Hoff|Hnone].
        - rewrite Hoff. reflexivity.
        - destruct (pm2Online w); [apply find_rev_none, Hnone | reflexivity]. }
      rewrite Hf. reflexivity.
    + intros p status Hon Hp Hs Hne. unfold processes. rewrite Hon, Hp, Hs. simpl.
      destruct (String.eqb status EmptyString) eqn:E; [|reflexivity].
      apply String.eqb_eq in E. contradiction.
  - intros row Hrow. apply list_elem_of_fmap in Hrow as ([k c] & -> & Hin).
    apply elem_of_map_to_list in Hin. exists k, c. split; [exact Hin | reflexivity].
Qed.

Lemma listing_joins_registry_and_supervisor_witness :
  let w := worldWith {[ "web"%string := webConfig ]} [] ∅ in
  registryOf w !! "web"%string = Some webConfig
  ∧ ∃ rows row,
      fst (getManagedProcesses w) = Ok rows
      ∧ row ∈ rows ∧ row_name row = Some "web"%string
      ∧ row_status row = "stopped"%string.
Proof.
  intros w. split; [reflexivity|].
  destruct (listing_joins_registry_and_supervisor w) as (rows & E & _ & _ & _ & _ & H & _).
  destruct (H "web"%string webConfig eq_refl) as (row & Hin & Hn & _ & _ & Hs & _).
  exists rows, row. split; [exact E|]. split; [exact Hin|]. split; [exact Hn|].
  apply Hs. right. reflexivity.
Defined.

(** ** Reading logs *)

(** *** The clean-up of the log text *)

Lemma undecorated_drop n s :
  undecorated s = true → undecorated (Pm2Text.dropBytes n s) = true.
Proof.
  revert s. induction n as [|n IH]; intros s H; [destruct s; exact H|].
  destruct s as [|c s]; [exact H|]. simpl. apply IH.
  unfold undecorated in *. simpl in H. apply andb_true_iff in H as [_ H]. exact H.
Qed.

(** No expression of the chain matches at the head of a text without
    decorations. *)
Lemma undecorated_no_match s :
  undecorated s = true →
  Pm2Text.bannerLen s = None ∧ Pm2Text.prefixLen s = None ∧ Pm2Text.tailingLen s = None.
Proof.
  intros H.
  assert (Hhead : ∀ t, undecorated t = true →
            match t with
            | String c _ => Ascii.eqb c "/" = false ∧ Ascii.eqb c "|" = false
                            ∧ Ascii.eqb c "[" = false
            | EmptyString => True
            end).
  { intros [|c t] Ht; [exact I|]. unfold undecorated in Ht. simpl in Ht.
    apply andb_true_iff in Ht as [Ht _]. apply negb_true_iff in Ht.
    apply orb_false_iff in Ht as [Ht H3]. apply orb_false_iff in Ht as [H1 H2]. auto. }
  split; [|split].
  - destruct s as [|c s]; [reflexivity|].
    destruct (Hhead _ H) as (H1 & _). unfold Pm2Text.bannerLen.
    destruct c as [[] [] [] [] [] [] [] []]; try reflexivity. discriminate H1.
  - unfold Pm2Text.prefixLen. cbv zeta.
    set (s1 := Pm2Text.dropBytes (Pm2Text.wsRun s) s).
    assert (H1 : undecorated s1 = true) by (apply undecorated_drop, H).
    destruct (Pm2Text.digitRun s1) as [|d]; [reflexivity|].
    assert (H2 : undecorated (Pm2Text.dropBytes (S d) s1) = true)
      by (apply undecorated_drop, H1).
    destruct (Pm2Text.dropBytes (S d) s1) as [|c s3]; [reflexivity|].
    destruct (Hhead _ H2) as (_ & Hbar & _).
    destruct c as [[] [] [] [] [] [] [] []]; try reflexivity. discriminate Hbar.
  - destruct s as [|c s]; [reflexivity|].
    destruct (Hhead _ H) as (_ & _ & H3). unfold Pm2Text.tailingLen.
    change (Discovery.stripPrefix "[TAILING]" (String c s))
      with (if Ascii.eqb "[" c then Discovery.stripPrefix "TAILING]" s else None).
    rewrite Ascii.eqb_sym, H3. reflexivity.
Qed.

(** A replacement whose expression matches nowhere returns the text. *)
Lemma replaceAll_nowhere matchLen s :
  (∀ b t, undecorated t = true → matchLen b t = None) →
  undecorated s = true →
  ∀ b pending, Pm2Text.replaceAll matchLen b pending 0 s = s.
Proof.
  intros Hno. induction s as [|c s IH]; intros H b pending; [reflexivity|].
  simpl. rewrite (Hno b _ H). f_equal. apply IH.
  unfold undecorated in *. simpl in H. apply andb_true_iff in H as [_ H]. exact H.
Qed.

(** The chain only trims a text that holds no slash, bar or bracket. *)
Lemma undecorated_is_trimmed s :
  undecorated s = true → Pm2Text.stripPm2Formatting s = Pm2Text.trim s.
Proof.
  intros H. unfold Pm2Text.stripPm2Formatting, Pm2Text.replaceBanners,
    Pm2Text.replacePrefixes, Pm2Text.replaceTailing.
  rewrite (replaceAll_nowhere (fun _ t => Pm2Text.bannerLen t) s);
    [|intros b t Ht; apply undecorated_no_match, Ht | exact H].
  rewrite (replaceAll_nowhere
             (fun atLineStart t => if atLineStart then Pm2Text.prefixLen t else None) s);
    [|intros b t Ht; destruct b; [apply undecorated_no_match, Ht | reflexivity] | exact H].
  rewrite (replaceAll_nowhere (fun _ t => Pm2Text.tailingLen t) s);
    [reflexivity | intros b t Ht; apply undecorated_no_match, Ht | exact H].
Qed.

(** X15. A log read that is not fresh-only, for a whole number of lines,
    issues the one command [pm2 logs <name> --lines <n> --nostream], with
    [--out] or [--err] for the single streams; it returns what the command
    printed after the three replacements and the trim of the handler (the
    log-path banners, the [<id>|<name>|] prefixes of the lines and the
    [[TAILING]] lines removed), which for a text that holds no slash, bar
    or bracket is the text trimmed; it throws when the command fails; and
    in no case does it write the registry or move a [logOffset]. *)
Theorem tail_read_asks_the_supervisor nm lines type w :
  Z.abs lines < 2 ^ 53 →
  let r := readManagedProcessLogs Pm2Text.stripPm2Formatting nm lines type false w in
  let command :=
    ("pm2 logs " +:+ nm +:+ " --lines " +:+ Js.numberToString lines +:+ " --nostream"
     +:+ match type with
         | StreamOut => " --out"
         | StreamError => " --err"
         | StreamAll => ""
         end)%string in
  fst r = match (if pm2Online w then pm2Output w command else None) with
          | Some out => Ok (Pm2Text.stripPm2Formatting out, false)
          | None => Throw "Command failed"
          end
  ∧ (∀ out, pm2Online w = true → pm2Output w command = Some out →
       undecorated out = true → fst r = Ok (Pm2Text.trim out, false))
  ∧ journal (snd r) = journal w ++ [EvExec command None ∅]
  ∧ stateFile (snd r) = stateFile w
  ∧ builtinOffsets (snd r) = builtinOffsets w
  ∧ logFiles (snd r) = logFiles w.
Proof.
  intros _. cbv zeta. unfold readManagedProcessLogs.
  rewrite (bind_ok loadState _ w tt (setServerState (registryOf w) w)) by reflexivity.
  set (w0 := setServerState (registryOf w) w).
  rewrite (bind_ok (gets (fun v => readLogOffset v nm)) _ w0 (readLogOffset w0 nm) w0)
    by reflexivity.
  rewrite (bind_ok (ret (EmptyString, false)) _ w0 (EmptyString, false) w0)
    by reflexivity.
  unfold bind, runPm2, pm2Step. simpl.
  destruct (pm2Online w); simpl; [|repeat split; discriminate].
  destruct (pm2Output w _) as [out|]; simpl; repeat split; try discriminate.
  intros text _ E Hplain. inversion E; subst text.
  rewrite (undecorated_is_trimmed out Hplain). reflexivity.
Qed.

Lemma tail_read_asks_the_supervisor_witness :
  let nl := String (ascii_of_nat 10) EmptyString in
  let printed :=
    ("[TAILING] Tailing last 50 lines for [web] process" +:+ nl
     +:+ "/home/dev/.pm2/logs/web-out.log last 50 lines:" +:+ nl
     +:+ "0|web      | ready on 3000" +:+ nl
     +:+ "0|web      | GET /" +:+ nl +:+ nl)%string in
  let w := mkWorld ∅ None true []
             (fun command =>
                if String.eqb command "pm2 logs web --lines 50 --nostream"
                then Some printed else None)
             (fun _ => Some "online"%string) (fun _ => true) "/home/dev/.pm2" ∅ ∅ [] in
  Z.abs 50 < 2 ^ 53
  ∧ fst (readManagedProcessLogs Pm2Text.stripPm2Formatting "web" 50 StreamAll false w)
    = Ok (("ready on 3000" +:+ nl +:+ "GET /")%string, false).
Proof.
  intros nl printed w.
  assert (H : Z.abs 50 < 2 ^ 53) by reflexivity.
  split; [exact H|].
  destruct (tail_read_asks_the_supervisor "web" 50 StreamAll w H) as [E _].
  cbv zeta in E. etransitivity; [exact E | reflexivity].
Defined.

(** X16. A fresh-only read of a name with no recorded offset (and with no
    [logOffset] ever put on a built-in object) reads nothing at all: it
    returns the empty text, still marked fresh, without opening a log
    file, without the fall-back to [pm2 logs] and without any write. *)
Theorem fresh_read_without_offset_is_empty sp nm lines type w :
  (∀ c, registryOf w !! nm = Some c → logOffset c = None) →
  builtinOffsets w = ∅ →
  let r := readManagedProcessLogs sp nm lines type true w in
  fst r = Ok (EmptyString, true)
  ∧ journal (snd r) = journal w
  ∧ stateFile (snd r) = stateFile w.
Proof.
  intros Hnone Hb r. subst r. unfold readManagedProcessLogs.
  rewrite (bind_ok loadState _ w tt (setServerState (registryOf w) w)) by reflexivity.
  set (w0 := setServerState (registryOf w) w).
  assert (Hrec : readLogOffset w0 nm = None).
  { unfold readLogOffset, getProperty. simpl. rewrite Hb, !lookup_empty.
    destruct (registryOf w !! nm) as [c|] eqn:Hc.
    - rewrite (Hnone c eq_refl). reflexivity.
    - destruct (bool_decide (nm ∈ objectPrototypeKeys)); reflexivity. }
  rewrite (bind_ok (gets (fun v => readLogOffset v nm)) _ w0 None w0)
    by (unfold gets; rewrite Hrec; reflexivity).
  repeat split.
Qed.

Lemma fresh_read_without_offset_is_empty_witness :
  let w := worldWith {[ "web"%string := webConfig ]} []
             {[ "/home/dev/.pm2/logs/web-out.log"%string := "ready"%string ]} in
  (∀ c, registryOf w !! "web"%string = Some c → logOffset c = None)
  ∧ builtinOffsets w = ∅
  ∧ fst (readManagedProcessLogs (fun s => s) "web" 50 StreamAll true w) = Ok (EmptyString, true).
Proof.
  intros w.
  assert (H : ∀ c, registryOf w !! "web"%string = Some c → logOffset c = None).
  { intros c Hc. inversion Hc. reflexivity. }
  split; [exact H|]. split; [reflexivity|].
  destruct (fresh_read_without_offset_is_empty (fun s => s) "web" 50 StreamAll w H eq_refl)
    as [E _].
  exact E.
Defined.

(** X17. A fresh-only read whose log file cannot be opened falls back to
    the supervisor: it is, in result and in effect, the read that is not
    fresh-only, so what it returns is not marked fresh and the recorded
    offset is not touched. *)
Theorem fresh_read_falls_back_without_the_file sp nm lines type w c stored :
  registryOf w !! nm = Some c → logOffset c = Some stored →
  logFiles w !! getPm2LogPath (pm2Home w) nm
                  match type with StreamError => true | _ => false end = None →
  readManagedProcessLogs sp nm lines type true w
  = readManagedProcessLogs sp nm lines type false w.
Proof.
  intros Hc Ho Hfile.
  set (w0 := setServerState (registryOf w) w).
  set (tail := (let* stdout := runPm2 (PmLogs nm lines type) in
                ret (sp (stdoutText stdout), false)) w0).
  assert (Hrec : readLogOffset w0 nm = Some stored).
  { unfold readLogOffset, getProperty. simpl. rewrite Hc. simpl. rewrite Ho. reflexivity. }
  assert (Hstat : statSize (getPm2LogPath (pm2Home w0) nm
                              match type with StreamError => true | _ => false end) w0
                  = (Throw "ENOENT", w0)).
  { unfold statSize. change (logFiles w0) with (logFiles w).
    change (pm2Home w0) with (pm2Home w). rewrite Hfile. reflexivity. }
  assert (R : readManagedProcessLogs sp nm lines type false w = tail).
  { unfold readManagedProcessLogs.
    rewrite (bind_ok loadState _ w tt w0) by reflexivity.
    rewrite (bind_ok (gets (fun v => readLogOffset v nm)) _ w0 (Some stored) w0)
      by (unfold gets; rewrite Hrec; reflexivity).
    rewrite (bind_ok (ret (EmptyString, false)) _ w0 (EmptyString, false) w0)
      by reflexivity.
    reflexivity. }
  rewrite R.
  unfold readManagedProcessLogs.
  rewrite (bind_ok loadState _ w tt w0) by reflexivity.
  rewrite (bind_ok (gets (fun v => readLogOffset v nm)) _ w0 (Some stored) w0)
    by (unfold gets; rewrite Hrec; reflexivity).
  rewrite (bind_ok _ _ w0 (EmptyString, false) w0); [reflexivity|].
  unfold tryCatch.
  rewrite (bind_ok (gets pm2Home) _ w0 (pm2Home w0) w0) by reflexivity.
  rewrite (bind_throw _ _ _ _ _ Hstat). reflexivity.
Qed.

Lemma fresh_read_falls_back_without_the_file_witness :
  let w := worldWith {[ "web"%string := withLogOffset (Some 7) webConfig ]} [] ∅ in
  registryOf w !! "web"%string = Some (withLogOffset (Some 7) webConfig)
  ∧ readManagedProcessLogs (fun s => s) "web" 50 StreamAll true w
    = readManagedProcessLogs (fun s => s) "web" 50 StreamAll false w.
Proof.
  intros w. split; [reflexivity|].
  apply (fresh_read_falls_back_without_the_file (fun s => s) "web" 50 StreamAll w
           (withLogOffset (Some 7) webConfig) 7); reflexivity.
Defined.

(** ** A request about one name leaves the other entries alone *)

Lemma entryIs_ofMemory k v : OfMemory (entryIs k v).
Proof.
  intros w w' Hm. unfold memory in Hm.
  assert (Hs : serverState w = serverState w') by congruence.
  assert (Hf : stateFile w = stateFile w') by congruence.
  unfold entryIs, registryOf. rewrite Hs, Hf. auto.
Qed.

Lemma entryIs_persistState k v : Preserves (entryIs k v) persistState.
Proof. intros w [Hs _]. split; exact Hs. Qed.

Lemma entryIs_statSize k v path : Preserves (entryIs k v) (statSize path).
Proof. intros w H. unfold statSize. destruct (logFiles w !! path); exact H. Qed.

Lemma entryIs_readAt k v path pos len : Preserves (entryIs k v) (readAt path pos len).
Proof.
  intros w H. unfold readAt.
  destruct (logFiles w !! path); [destruct (pos <? -1)|]; exact H.
Qed.

Lemma entryIs_assign_other k v nm z :
  nm ≠ k → Preserves (entryIs k v) (assignLogOffset nm z).
Proof.
  intros Hne w [Hs Hf]. unfold assignLogOffset.
  destruct (getProperty (serverState w) nm) as [[c|key]|]; simpl; split; auto.
  simpl. rewrite lookup_insert_ne by exact Hne. exact Hs.
Qed.

Lemma entryIs_setProperty k v nm c :
  nm ≠ k →
  Preserves (entryIs k v)
    (modify (fun w => setServerState (setProperty nm c (serverState w)) w)).
Proof.
  intros Hne. apply preserves_modify. intros w [Hs Hf]. split; [|exact Hf].
  simpl. unfold setProperty.
  assert (Hins : <[nm := c]> (serverState w) !! k = v)
    by (rewrite lookup_insert_ne by exact Hne; exact Hs).
  destruct (serverState w !! nm); [exact Hins|].
  destruct (String.eqb nm "__proto__"); [exact Hs | exact Hins].
Qed.

Lemma entryIs_delete k v nm :
  nm ≠ k →
  Preserves (entryIs k v) (modify (fun w => setServerState (delete nm (serverState w)) w)).
Proof.
  intros Hne. apply preserves_modify. intros w [Hs Hf]. split; [|exact Hf].
  simpl. rewrite lookup_delete_ne by exact Hne. exact Hs.
Qed.

#[local] Hint Resolve entryIs_ofMemory entryIs_persistState entryIs_statSize
  entryIs_readAt : preserves.

(** X18. Whatever a request does, it does to the entry it names: the
    entry stored in the state file under any other key is the same after
    the request as before, whether the handler returned or threw.  The
    listing and the supervisor status name no entry and change none. *)
Theorem other_entries_are_left_alone lf sp r k w :
  targetOf r ≠ Some k →
  registryOf (serve lf sp r w) !! k = registryOf w !! k.
Proof.
  intros Hr.
  set (v := registryOf w !! k).
  set (Q := fun u : World => registryOf u !! k = v).
  change (Q (serve lf sp r w)).
  assert (HQ : OfMemory Q).
  { intros u u' Hm. unfold memory in Hm.
    assert (Hf : stateFile u = stateFile u') by congruence.
    unfold Q, registryOf. rewrite Hf. auto. }
  assert (HQw : Q w) by reflexivity.
  assert (Hload : ∀ {A} (rest : M A),
            Preserves (entryIs k v) rest → Q (snd (bind loadState (fun _ => rest) w))).
  { intros A rest Hrest.
    rewrite (bind_ok loadState _ w tt (setServerState (registryOf w) w)) by reflexivity.
    apply Hrest. split; reflexivity. }
  assert (Hne : ∀ nm, targetOf r = Some nm → nm ≠ k) by (intros nm E <-; exact (Hr E)).
  destruct r; simpl in Hne |- *.
  - apply Hload. auto 10 with preserves.
  - specialize (Hne _ eq_refl). apply Hload.
    apply preserves_bind; [apply entryIs_setProperty; exact Hne|]. intros _.
    auto 10 with preserves.
  - specialize (Hne _ eq_refl). apply Hload.
    apply preserves_bind; [auto with preserves|]. intros reg.
    destruct (getProperty reg nm); [|auto with preserves].
    apply preserves_bind; [apply entryIs_setProperty; exact Hne|]. intros _.
    auto 10 with preserves.
  - specialize (Hne _ eq_refl). apply Hload.
    apply preserves_bind; [auto with preserves|]. intros reg.
    destruct (getProperty reg nm); [|auto with preserves].
    pose proof (entryIs_assign_other k v nm) as Ha.
    auto 15 with preserves.
  - apply (preserves_apply Q (stopManagedProcess nm)); [|exact HQw].
    unfold stopManagedProcess. auto 10 with preserves.
  - specialize (Hne _ eq_refl). apply Hload.
    do 2 (apply preserves_bind; [auto 10 with preserves|]; intros _).
    apply preserves_bind; [|auto with preserves].
    apply preserves_tryCatch; [|auto with preserves].
    apply preserves_bind; [auto with preserves|]. intros home.
    apply preserves_bind; [auto with preserves|]. intros size.
    apply preserves_bind; [auto with preserves|]. intros reg.
    pose proof (entryIs_assign_other k v nm) as Ha.
    destruct (getProperty reg nm); auto 10 with preserves.
  - specialize (Hne _ eq_refl). apply Hload.
    apply preserves_bind; [auto 10 with preserves|]. intros _.
    apply preserves_bind; [apply entryIs_delete; exact Hne|]. intros _.
    auto 10 with preserves.
  - apply (preserves_apply Q (describeManagedProcess nm)); [|exact HQw].
    unfold describeManagedProcess, describePm2Process. auto 10 with preserves.
  - specialize (Hne _ eq_refl). apply Hload.
    apply preserves_bind; [auto with preserves|]. intros recorded.
    apply preserves_bind.
    + destruct freshOnly; [|auto with preserves].
      pose proof (entryIs_assign_other k v nm) as Ha.
      destruct recorded; [|auto with preserves].
      apply preserves_tryCatch; [|auto with preserves].
      apply preserves_bind; [auto with preserves|]. intros home.
      apply preserves_bind; [auto with preserves|]. intros size.
      destruct (0 <? size - z); auto 10 with preserves.
    + intros [text fresh]. simpl. destruct fresh; auto 10 with preserves.
  - apply (preserves_apply Q (getPm2Status processName)); [|exact HQw].
    unfold getPm2Status. auto 10 with preserves.
Qed.

Lemma other_entries_are_left_alone_witness :
  let w := worldWith {[ "web"%string := webConfig ]} [] ∅ in
  let r := Delete "api" true in
  targetOf r ≠ Some "web"%string
  ∧ registryOf (serve (fun _ => []) (fun s => s) r w) !! "web"%string = Some webConfig.
Proof.
  intros w r.
  assert (H : targetOf r ≠ Some "web"%string) by discriminate.
  split; [exact H|].
  rewrite (other_entries_are_left_alone (fun _ => []) (fun s => s) r "web"%string w H).
  reflexivity.
Defined.

(** ** Memory and state file agree between requests *)

Lemma sync_ofMemory : OfMemory Sync.
Proof.
  intros w w' Hm. unfold memory in Hm.
  assert (Hs : serverState w = serverState w') by congruence.
  assert (Hf : stateFile w = stateFile w') by congruence.
  unfold Sync, registryOf. rewrite Hs, Hf. auto.
Qed.

Lemma sync_loadState : Preserves Sync loadState.
Proof. intros w _. reflexivity. Qed.

Lemma sync_persistState : Preserves Sync persistState.
Proof. intros w _. reflexivity. Qed.

Lemma sync_statSize path : Preserves Sync (statSize path).
Proof. intros w H. unfold statSize. destruct (logFiles w !! path); exact H. Qed.

Lemma sync_readAt path pos len : Preserves Sync (readAt path pos len).
Proof.
  intros w H. unfold readAt.
  destruct (logFiles w !! path); [destruct (pos <? -1)|]; exact H.
Qed.

#[local] Hint Resolve sync_ofMemory sync_loadState sync_persistState sync_statSize
  sync_readAt : preserves.

(** A write to the registry in memory that is followed at once by
    [persistState]: the two together keep memory and state file equal,
    provided the write, where it throws, has changed nothing. *)
Lemma sync_write {A} (m : M unit) (k : unit → M A) :
  (∀ w e w', m w = (Throw e, w') → w' = w) →
  (∀ u w, Sync (snd (k u w))) →
  Preserves Sync (bind m k).
Proof.
  intros Hm Hk w H. unfold bind.
  destruct (m w) as [[u|e] w'] eqn:E; [apply Hk|].
  simpl. rewrite (Hm w e w' E). exact H.
Qed.

Lemma sync_persist_then {A} (rest : unit → M A) :
  (∀ u, Preserves Sync (rest u)) → ∀ w, Sync (snd (bind persistState rest w)).
Proof.
  intros Hrest w.
  rewrite (bind_ok persistState rest w tt
             (record (EvPersist (serverState w)) (setStateFile (Some (serverState w)) w)))
    by reflexivity.
  apply Hrest. reflexivity.
Qed.

Lemma modify_never_throws f w e w' : modify f w = (Throw e, w') → w' = w.
Proof. unfold modify. discriminate. Qed.

Lemma assignLogOffset_throws nm z w e w' :
  assignLogOffset nm z w = (Throw e, w') → w' = w.
Proof.
  unfold assignLogOffset.
  destruct (getProperty (serverState w) nm) as [[c|key]|]; intros H; inversion H.
  reflexivity.
Qed.

Lemma sync_serve lf sp r : Preserves Sync (fun w => (Ok tt, serve lf sp r w)).
Proof.
  assert (Hassign : ∀ nm z, Preserves Sync (bind (assignLogOffset nm z) (fun _ => persistState))).
  { intros nm z. apply sync_write; [apply assignLogOffset_throws|].
    intros _ w. reflexivity. }
  intros w H. simpl. destruct r; simpl.
  - revert w H. change (Preserves Sync getManagedProcesses).
    unfold getManagedProcesses. auto 10 with preserves.
  - revert w H.
    change (Preserves Sync (registerManagedProcess params startImmediately)).
    unfold registerManagedProcess. cbv zeta.
    apply preserves_bind; [auto with preserves|]. intros _.
    apply sync_write; [apply modify_never_throws|]. intros _.
    apply sync_persist_then. intros _. auto 10 with preserves.
  - revert w H. change (Preserves Sync (updateManagedProcess nm updates applyToPm2)).
    unfold updateManagedProcess.
    apply preserves_bind; [auto with preserves|]. intros _.
    apply preserves_bind; [auto with preserves|]. intros reg.
    destruct (getProperty reg nm); [|auto with preserves]. cbv zeta.
    apply sync_write; [apply modify_never_throws|]. intros _.
    apply sync_persist_then. intros _. auto 10 with preserves.
  - revert w H. change (Preserves Sync (startManagedProcess lf nm)).
    unfold startManagedProcess.
    apply preserves_bind; [auto with preserves|]. intros _.
    apply preserves_bind; [auto with preserves|]. intros reg.
    destruct (getProperty reg nm); auto 15 with preserves.
  - revert w H. change (Preserves Sync (stopManagedProcess nm)).
    unfold stopManagedProcess. auto 10 with preserves.
  - revert w H. change (Preserves Sync (restartManagedProcess nm)).
    unfold restartManagedProcess.
    do 3 (apply preserves_bind; [auto 10 with preserves|]; intros _).
    apply preserves_bind; [|auto with preserves].
    apply preserves_tryCatch; [|auto with preserves].
    apply preserves_bind; [auto with preserves|]. intros home.
    apply preserves_bind; [auto with preserves|]. intros size.
    apply preserves_bind; [auto with preserves|]. intros reg.
    destruct (getProperty reg nm); auto 10 with preserves.
  - revert w H. change (Preserves Sync (deleteManagedProcess nm deleteFromPm2)).
    unfold deleteManagedProcess.
    apply preserves_bind; [auto with preserves|]. intros _.
    apply preserves_bind; [destruct deleteFromPm2; auto with preserves|]. intros _.
    apply sync_write; [apply modify_never_throws|]. intros _.
    apply sync_persist_then. intros _. auto 10 with preserves.
  - revert w H. change (Preserves Sync (describeManagedProcess nm)).
    unfold describeManagedProcess, describePm2Process. auto 10 with preserves.
  - revert w H.
    change (Preserves Sync (readManagedProcessLogs sp nm lines type freshOnly)).
    unfold readManagedProcessLogs.
    apply preserves_bind; [auto with preserves|]. intros _.
    apply preserves_bind; [auto with preserves|]. intros recorded.
    apply preserves_bind.
    + destruct freshOnly, recorded; auto with preserves.
      apply preserves_tryCatch; [|auto with preserves].
      apply preserves_bind; [auto with preserves|]. intros home.
      apply preserves_bind; [auto with preserves|]. intros size.
      destruct (0 <? size - z); [|auto 10 with preserves].
      apply preserves_bind; [auto with preserves|]. intros buffer.
      apply sync_write; [apply assignLogOffset_throws|]. intros _.
      apply sync_persist_then. intros _. auto with preserves.
    + intros [text fresh]. simpl. destruct fresh; auto 10 with preserves.
  - revert w H. change (Preserves Sync (getPm2Status processName)).
    unfold getPm2Status. auto 10 with preserves.
Qed.

(** X19. Between requests the registry in memory and the state file
    agree: in every world reachable from a server that comes up with
    nothing registered, by any requests and with the supervisor and the
    log files changing freely in between,
    [serverState.managedProcesses] is exactly what the state file holds
    (nothing, before the first write).  Every handler that changes the
    registry writes it out before anything that follows can throw, so a
    failed request never leaves a change in memory only. *)
Theorem memory_and_state_file_agree lf sp w :
  Reachable lf sp w → serverState w = registryOf w.
Proof.
  induction 1 as [w Hs Hf | r w Hw IH | w w' Hw IH Hm].
  - rewrite Hs, Hf. reflexivity.
  - exact (sync_serve lf sp r w IH).
  - eapply sync_ofMemory; [symmetry; exact Hm | exact IH].
Qed.

Lemma memory_and_state_file_agree_witness :
  let w := serve (fun _ => []) (fun s => s) (Start "web")
             (serve (fun _ => []) (fun s => s)
                (Register (mkParams "web" "server.js" None None None None None None None) false)
                bootWorld) in
  Reachable (fun _ => []) (fun s => s) w
  ∧ serverState w = registryOf w
  ∧ ∃ c, serverState w !! "web"%string = Some c.
Proof.
  intros w.
  assert (H : Reachable (fun _ => []) (fun s => s) w).
  { do 2 apply reach_serve. apply reach_start; reflexivity. }
  split; [exact H|]. split.
  - exact (memory_and_state_file_agree (fun _ => []) (fun s => s) w H).
  - eexists. reflexivity.
Defined.

(** ** Registration: the name [__proto__], and the way to a start *)

(** X20. Registering the name [__proto__] in a registry that has no such
    own property stores nothing: the assignment replaces the prototype of
    the registry object instead of adding an entry, so the state file is
    written with the registry as it was, and the handler still reports
    the registration. *)
Theorem registering_proto_stores_nothing params startImmediately w :
  r_name params = "__proto__"%string →
  registryOf w !! "__proto__"%string = None →
  let r := registerManagedProcess params startImmediately w in
  stateFile (snd r) = Some (registryOf w)
  ∧ registryOf (snd r) !! "__proto__"%string = None
  ∧ persistsOf (journal (snd r)) = persistsOf (journal w) ++ [registryOf w]
  ∧ (startImmediately = false → fst r = Ok "Server '__proto__' registered"%string).
Proof.
  intros Hname Hnone r. subst r. unfold registerManagedProcess.
  rewrite (bind_ok loadState _ w tt (setServerState (registryOf w) w)) by reflexivity.
  set (w0 := setServerState (registryOf w) w).
  set (config := mkConfig _ _ _ _ _ _ _ _ _ _).
  set (w2 := record (EvPersist (registryOf w)) (setStateFile (Some (registryOf w)) w0)).
  assert (E1 : modify (fun v => setServerState (setProperty (r_name params) config (serverState v)) v) w0
               = (Ok tt, w0)).
  { unfold modify. simpl. unfold setProperty. rewrite Hname, Hnone. reflexivity. }
  rewrite (bind_ok _ _ _ _ _ E1).
  rewrite (bind_ok persistState _ w0 tt w2) by reflexivity.
  assert (Hgoal : ∀ v, Untouched w2 v →
            stateFile v = Some (registryOf w)
            ∧ registryOf v !! "__proto__"%string = None
            ∧ persistsOf (journal v) = persistsOf (journal w) ++ [registryOf w]).
  { intros v (Hm & _ & _ & _ & Hp). unfold memory in Hm.
    assert (Hf : stateFile v = Some (registryOf w))
      by (change (Some (registryOf w)) with (stateFile w2); congruence).
    split; [exact Hf|]. unfold registryOf at 1. rewrite Hf. simpl.
    split; [exact Hnone|].
    rewrite Hp. simpl. rewrite persistsOf_app. reflexivity. }
  destruct startImmediately.
  - pose proof (startPm2Process_untouched config w2) as Hu.
    destruct (startPm2Process config w2) as [[[]|e] v] eqn:E; simpl in Hu.
    + rewrite (bind_ok _ _ _ _ _ E). simpl.
      destruct (Hgoal v Hu) as (H1 & H2 & H3). repeat split; try assumption. discriminate.
    + rewrite (bind_throw _ _ _ _ _ E). simpl.
      destruct (Hgoal v Hu) as (H1 & H2 & H3). repeat split; try assumption. discriminate.
  - rewrite (bind_ok (ret tt) _ w2 tt w2) by reflexivity. simpl.
    destruct (Hgoal w2 (untouched_refl w2)) as (H1 & H2 & H3).
    repeat split; try assumption. intros _. rewrite Hname. reflexivity.
Qed.

Lemma registering_proto_stores_nothing_witness :
  let params := mkParams "__proto__" "server.js" None None None None None None None in
  r_name params = "__proto__"%string
  ∧ registryOf bootWorld !! "__proto__"%string = None
  ∧ fst (registerManagedProcess params false bootWorld)
    = Ok "Server '__proto__' registered"%string
  ∧ stateFile (snd (registerManagedProcess params false bootWorld)) = Some ∅.
Proof.
  intros params. split; [reflexivity|]. split; [reflexivity|].
  destruct (registering_proto_stores_nothing params false bootWorld eq_refl eq_refl)
    as (Hf & _ & _ & Hr).
  split; [exact (Hr eq_refl) | exact Hf].
Defined.

(** The commands issued so far, the process table and the reachability of
    the supervisor: what capturing the log offset leaves alone. *)
Lemma capture_keeps_the_supervisor nm cs l w :
  commandsOf (journal w) = cs → pm2List w = l → pm2Online w = true →
  let v := snd (tryCatch
                  (let* home := gets pm2Home in
                   let* size := statSize (getPm2LogPath home nm false) in
                   assignLogOffset nm size ;;
                   persistState)
                  (ret tt) w) in
  commandsOf (journal v) = cs ∧ pm2List v = l ∧ pm2Online v = true
  ∧ pm2Output v = pm2Output w.
Proof.
  intros Hc Hl Hon.
  set (P := fun v : World =>
              commandsOf (journal v) = cs ∧ pm2List v = l ∧ pm2Online v = true
              ∧ pm2Output v = pm2Output w).
  apply (preserves_apply P); [|repeat split; assumption].
  apply preserves_tryCatch; [|apply preserves_ret].
  apply preserves_bind; [apply preserves_gets|]. intros home.
  apply preserves_bind.
  { intros u H. unfold statSize. destruct (logFiles u !! _); exact H. }
  intros size. apply preserves_bind.
  { intros u H. unfold assignLogOffset.
    destruct (getProperty (serverState u) nm) as [[c|key]|]; exact H. }
  intros _ u (H1 & H2 & H3 & H4). repeat split; try assumption.
  simpl. rewrite commandsOf_app, H1. simpl. apply app_nil_r.
Qed.


